(** * Kuru swap through a smart wallet: the quote and the swap pipeline

    A shallow embedding of [src/index.ts].  JavaScript numbers are IEEE 754
    binary64 values (the Standard Library's [spec_float] at precision 53),
    bigints are [Z], texts are [string], and the asynchronous [main] is a
    computation in a small monad that records every external interaction.

    The file has three layers: the definitions taken from the source, a
    theory of correctly rounded binary64 arithmetic that relates [SFsub],
    [SFmul] and [SFdiv] to a rounding function on integers, and the theorems
    on the quote and on the orchestrator. *)

From Stdlib Require Import ZArith List String Ascii Bool Lia SpecFloat.
Import ListNotations.
Local Open Scope Z_scope.

(** ** JavaScript numbers *)

Module JSNumber.

Definition prec : Z := 53.
Definition emax : Z := 1024.

Definition number := spec_float.

(** The arithmetic operators [*], [/] and [-] on numbers. *)
Definition mul : number -> number -> number := SFmul prec emax.
Definition div : number -> number -> number := SFdiv prec emax.
Definition sub : number -> number -> number := SFsub prec emax.

(** An integer literal. *)
Definition of_Z (z : Z) : number := binary_normalize prec emax z 0 false.

(** [x === y] on two numbers: NaN differs from everything and the two
    zeros are equal. *)
Definition strict_eq (x y : number) : bool := SFeqb x y.

Definition is_finite (x : number) : bool :=
  match x with
  | S754_zero _ | S754_finite _ _ _ => true
  | _ => false
  end.

(** A well-formed binary64 value. *)
Definition valid (x : number) : bool := valid_binary prec emax x.

End JSNumber.

Import JSNumber.

(** ** Texts of numbers: [Number.prototype.toFixed] and viem's [parseUnits] *)

Module JSText.

(** The result of [toFixed]: a text, or, for a magnitude of at least 10^21,
    the exponent notation of [Number::toString], which is kept symbolic. *)
Inductive text :=
| Text (s : string)
| ExpNotation (x : number).

Definition digit_char (d : Z) : ascii := ascii_of_nat (48 + Z.to_nat d).

Fixpoint decimal_digits_aux (fuel : nat) (n : Z) (acc : list ascii) : list ascii :=
  match fuel with
  | O => acc
  | S fuel' =>
      let acc' := digit_char (n mod 10) :: acc in
      if n / 10 =? 0 then acc' else decimal_digits_aux fuel' (n / 10) acc'
  end.

(** The digits of the decimal representation of [n >= 0]; "0" for 0. *)
Definition decimal_digits (n : Z) : list ascii :=
  decimal_digits_aux (S (Z.to_nat (Z.log2 n))) n [].

Definition zero_char : ascii := "0"%char.
Definition dot_char : ascii := "."%char.
Definition minus_char : ascii := "-"%char.

(** Steps 11 and 12 of [toFixed]: the digits of [n], padded on the left
    with zeros to [f + 1] digits, with a point before the last [f]. *)
Definition fixed_digits (n : Z) (f : nat) : list ascii :=
  let m := decimal_digits n in
  let k := List.length m in
  let m := if Nat.leb k f then repeat zero_char (f + 1 - k) ++ m else m in
  let k := List.length m in
  match f with
  | O => m
  | _ => firstn (k - f) m ++ dot_char :: skipn (k - f) m
  end.

(** "Let n be an integer for which n / 10^f - x is as close to zero as
    possible.  If there are two such n, pick the larger n", for
    x = m * 2^e. *)
Definition nearest_scaled (m : positive) (e : Z) (f : nat) : Z :=
  match e with
  | Zneg p => (2 * Zpos m * 10 ^ Z.of_nat f + 2 ^ Zpos p) / 2 ^ (Zpos p + 1)
  | _ => Zpos m * 2 ^ e * 10 ^ Z.of_nat f
  end.

(** [m * 2^e >= 10^21]. *)
Definition at_least_1e21 (m : positive) (e : Z) : bool :=
  match e with
  | Zneg p => 10 ^ 21 * 2 ^ Zpos p <=? Zpos m
  | _ => 10 ^ 21 <=? Zpos m * 2 ^ e
  end.

(** [x.toFixed(f)]: the sign is set aside and the magnitude is rounded to
    [f] decimals; minus zero prints as zero. *)
Definition toFixed (x : number) (f : nat) : text :=
  match x with
  | S754_nan => Text "NaN"
  | S754_infinity s => Text (if s then "-Infinity" else "Infinity")
  | S754_zero _ => Text (string_of_list_ascii (fixed_digits 0 f))
  | S754_finite s m e =>
      if at_least_1e21 m e then ExpNotation x
      else
        let body := fixed_digits (nearest_scaled m e f) f in
        Text (string_of_list_ascii (if s then minus_char :: body else body))
  end.

(** *** parseUnits *)

Definition is_digit (c : ascii) : bool :=
  let n := nat_of_ascii c in (Nat.leb 48 n && Nat.leb n 57)%bool.

(** [BigInt] of a run of decimal digits (leading zeros allowed, the empty
    run is 0). *)
Fixpoint digits_value (acc : Z) (l : list ascii) : Z :=
  match l with
  | [] => acc
  | c :: l' => digits_value (10 * acc + (Z.of_nat (nat_of_ascii c) - 48)) l'
  end.

(** The text up to the first point, and the text after it when there is one. *)
Fixpoint split_dot (l : list ascii) : list ascii * option (list ascii) :=
  match l with
  | [] => ([], None)
  | c :: l' =>
      if Ascii.eqb c dot_char then ([], Some l')
      else let '(a, b) := split_dot l' in (c :: a, b)
  end.

(** Removes the zeros at the front of a list; on a reversed text, the
    trailing zeros. *)
Fixpoint drop_zeros (l : list ascii) : list ascii :=
  match l with
  | c :: l' => if Ascii.eqb c zero_char then drop_zeros l' else l
  | [] => []
  end.

Definition trim_trailing_zeros (l : list ascii) : list ascii :=
  rev (drop_zeros (rev l)).

Definition pad_end (l : list ascii) (n : nat) : list ascii :=
  l ++ repeat zero_char (n - List.length l).

(** [parseUnits(value, decimals)] for [decimals > 0], [None] when it
    throws.  Its test of the text against the pattern of a decimal number
    (an optional minus sign, digits, an optional point, digits) is the check
    that the sign-free integer part and the fraction are runs of digits.
    The trailing zeros of the fraction are trimmed and it is padded back to
    [decimals] digits.  A longer fraction is rounded half up on its first
    dropped digit; [main] never passes one, since every text it parses
    comes from [toFixed] at the same number of decimals. *)
Definition parseUnits_chars (value : list ascii) (decimals : nat) : option Z :=
  let '(integer, fraction) := split_dot value in
  let '(negative, integer) :=
    match integer with
    | c :: rest => if Ascii.eqb c minus_char then (true, rest) else (false, integer)
    | [] => (false, integer)
    end in
  let fraction_text := match fraction with Some fr => fr | None => [] end in
  if negb (forallb is_digit integer && forallb is_digit fraction_text) then None
  else
    let fraction := match fraction with Some fr => fr | None => [zero_char] end in
    let fraction := trim_trailing_zeros fraction in
    let magnitude :=
      if Nat.ltb decimals (List.length fraction) then
        let kept := digits_value 0 (integer ++ firstn decimals fraction) in
        let dropped := nth decimals fraction zero_char in
        if Nat.leb 53 (nat_of_ascii dropped) then kept + 1 else kept
      else digits_value 0 (integer ++ pad_end fraction decimals) in
    Some (if negative then - magnitude else magnitude).

(** The exponent notation has a letter in it, which the pattern refuses. *)
Definition parseUnits (value : text) (decimals : nat) : option Z :=
  match value with
  | Text s => parseUnits_chars (list_ascii_of_string s) decimals
  | ExpNotation _ => None
  end.

(** [parseEther] is [parseUnits] at 18 decimals. *)
Definition parseEther (value : text) : option Z := parseUnits value 18.

End JSText.

Import JSText.

(** ** The quote: lines 61 to 65 of [main] *)

(** [const size = 0.0001]: the binary64 value nearest to the literal,
    0x1.a36e2eb1c432dp-14. *)
Definition size : number := S754_finite false 7378697629483821 (-66).

(** [const slippagePercentage = 5]. *)
Definition slippagePercentage : number := of_Z 5.

Definition outTokenDecimals : nat := 18.

(** [(output * (100 - slippagePercentage)) / 100], with the slippage
    percentage as a parameter; [Number(...)] of a number is the number. *)
Definition clipped_value_at (slippage output : number) : number :=
  div (mul output (sub (of_Z 100) slippage)) (of_Z 100).

(** [Number(...).toFixed(outTokenDecimals)]. *)
Definition clippedOutput_at (slippage output : number) : text :=
  toFixed (clipped_value_at slippage output) outTokenDecimals.

(** [parseUnits(clippedOutput.toString(), outTokenDecimals)]. *)
Definition minTokenOutAmount_at (slippage output : number) : option Z :=
  parseUnits (clippedOutput_at slippage output) outTokenDecimals.

Definition clippedOutput : number -> text := clippedOutput_at slippagePercentage.
Definition minTokenOutAmount : number -> option Z := minTokenOutAmount_at slippagePercentage.

(** [parseUnits(size.toFixed(18), outTokenDecimals)]. *)
Definition amountInWei : option Z := parseUnits (toFixed size 18) outTokenDecimals.

(** A raw output that a route can have: a well-formed, finite,
    non-negative number. *)
Definition well_formed_output (r : number) : Prop :=
  valid r = true /\ is_finite r = true /\ SFleb (of_Z 0) r = true.

(** A slippage percentage: a well-formed number between 0 and 100. *)
Definition well_formed_slippage (s : number) : Prop :=
  valid s = true /\ is_finite s = true /\
  SFleb (of_Z 0) s = true /\ SFleb s (of_Z 100) = true.

(** *** The quote in the words of the specification

    [floor(rawOutput * (100 - s) / 100)] over the exact value m * 2^e of the
    raw output, in the smallest unit of an 18-decimal token and truncated. *)
Definition spec_minOutput (s : Z) (r : number) : Z :=
  match r with
  | S754_finite false m e =>
      (Zpos m * 2 ^ Z.max 0 e * (100 - s) * 10 ^ 18) / (100 * 2 ^ Z.max 0 (- e))
  | _ => 0
  end.

(** The other reading: the floor in whole tokens, then the shift. *)
Definition spec_minOutput_whole (s : Z) (r : number) : Z :=
  match r with
  | S754_finite false m e =>
      (Zpos m * 2 ^ Z.max 0 e * (100 - s)) / (100 * 2 ^ Z.max 0 (- e)) * 10 ^ 18
  | _ => 0
  end.

(** ** The data of the pipeline *)

Local Open Scope string_scope.
Local Open Scope list_scope.
Local Open Scope Z_scope.

Definition Address := string.
Definition Hex := string.

Definition zeroAddress : Address := "0x0000000000000000000000000000000000000000".
Definition USDC : Address := "0x9a29e9bab1f0b599d1c6c39b60a79596b3875f56".
Definition WIF : Address := "0xd9d972d687Bc511D833fe2550C456fEC1a857D2C".

(** What the routing oracle returns; only the fields [main] reads. *)
Record Pool := { orderbook : Address }.

Record Route := {
  path : list Pool;
  route_tokenIn : Address;
  route_tokenOut : Address
}.

Record RouteOutput := {
  route : Route;
  isBuy : list bool;
  nativeSend : list bool;
  output : number
}.

(** [encodeFunctionData] keeps the function and its arguments; an address
    read from a missing environment variable is [None]. *)
Inductive Calldata :=
| anyToAnySwap (venues : list Address) (buys natives : list bool)
    (tokenIn tokenOut : Address) (amountIn minAmountOut : Z)
| approve (spender : option Address) (amount : Z).

Record Call := {
  to : option Address;
  value : Z;
  data : Calldata
}.

Record UserOperation := {
  callData : list Call;
  maxPriorityFeePerGas : option Z;
  maxFeePerGas : option Z
}.

Record SignedUserOperation := {
  signed_operation : UserOperation;
  signature : Hex
}.

(** The argument of [kernelClient.sendUserOperation]: the fields of an
    operation to build and sign, or an operation signed beforehand. *)
Inductive SendRequest :=
| Unsigned (op : UserOperation)
| Presigned (op : SignedUserOperation).

(** A fee estimate, had [userOpFees] been one. *)
Record Fees := {
  fees_maxPriorityFeePerGas : option Z;
  fees_maxFeePerGas : option Z
}.

(** [process.env]. *)
Record Env := {
  KURU_API : option string;
  KURU_ROUTER : option Address;
  RPC_URL : option string;
  BUNDLER_URL : option string;
  PRIVATE_KEY : option Hex
}.

(** ** External interactions *)

Inductive outcome (A : Type) :=
| Returns (a : A)
| Throws (reason : string).
Arguments Returns {A} a.
Arguments Throws {A} reason.

(** The answers of the outside world: the viem and ethers clients, the
    routing service, the chain and the bundler.  [w_encodeFunctionData]
    answers for the checks of the encoder on the addresses that the
    resolver supplied in the route: their shape and their checksum. *)
Record World := {
  w_createPublicClient : option string -> outcome unit;
  w_getAllPools : option string -> Address -> Address -> outcome (list Pool);
  w_findBestPath : Address -> Address -> number -> list Pool -> outcome RouteOutput;
  w_privateKeyToAccount : Hex -> outcome Hex;
  w_signerToEcdsaValidator : Hex -> outcome unit;
  w_createKernelAccount : outcome Address;
  w_createKernelAccountClient : option string -> outcome unit;
  w_encodeFunctionData : Calldata -> outcome unit;
  w_allowance : Address -> Address -> option Address -> outcome Z;
  w_signUserOperation : UserOperation -> outcome Hex;
  w_sendUserOperation : SendRequest -> outcome Hex;
  w_waitForUserOperationReceipt : Hex -> outcome Hex
}.

Inductive Event :=
| GetAllPools (api : option string) (tokenIn tokenOut : Address)
| FindBestPath (tokenIn tokenOut : Address) (amount : number) (pools : list Pool)
| ConsoleLog (line : list string)
| CreateKernelAccount (signer : Hex)
| ReadAllowance (token owner : Address) (spender : option Address)
| SignUserOperation (op : UserOperation)
| SendUserOperation (request : SendRequest)
| WaitForUserOperationReceipt (hash : Hex)
| ProcessExit (code : Z).

(** How the process ends: [process.exit(code)], or an error that nothing
    handles: the rejection of the promise of [main], or a throw while the
    module is loaded. *)
Inductive Halt :=
| Exited (code : Z)
| Rejected (reason : string).

(** A computation appends to the trace of events and either yields a value
    or halts the process. *)
Definition M (A : Type) : Type := list Event -> (A + Halt) * list Event.

Definition ret {A} (a : A) : M A := fun t => (inl a, t).

Definition bind {A B} (m : M A) (k : A -> M B) : M B :=
  fun t =>
    match m t with
    | (inl a, t') => k a t'
    | (inr h, t') => (inr h, t')
    end.

Definition emit (e : Event) : M unit := fun t => (inl tt, t ++ [e]).

Definition throw {A} (reason : string) : M A := fun t => (inr (Rejected reason), t).

(** [await] of an external answer. *)
Definition await {A} (o : outcome A) : M A :=
  match o with
  | Returns a => ret a
  | Throws reason => throw reason
  end.

(** A bigint that a throwing conversion was to produce. *)
Definition parsed (o : option Z) : M Z :=
  match o with
  | Some z => ret z
  | None => throw "InvalidDecimalNumberError"
  end.

Definition process_exit {A} (code : Z) : M A :=
  fun t => (inr (Exited code), t ++ [ProcessExit code]).

Definition console_log (line : list string) : M unit := emit (ConsoleLog line).

Notation "x <- m ;; k" := (bind m (fun x => k))
  (at level 61, m at next level, right associativity).
Notation "m ;;; k" := (bind m (fun _ => k))
  (at level 61, right associativity).

Definition run {A} (m : M A) : (A + Halt) * list Event := m [].

(** ** The orchestrator *)

Definition gasIncreaser : Z := 15.

(** [fee ? (BigInt(gasIncreaser) * fee) / BigInt(10) : undefined], where
    [fee] is a field read through [userOpFees?.]: a missing estimate, a
    missing field and the falsy [0n] all give [undefined]; the division
    of bigints truncates. *)
Definition escalated (fee : option Z) : option Z :=
  match fee with
  | Some v => if v =? 0 then None else Some (Z.quot (gasIncreaser * v) 10)
  | None => None
  end.

Definition optional_field {A} (o : option Fees) (field : Fees -> option A) : option A :=
  match o with
  | Some fees => field fees
  | None => None
  end.

Section Pipeline.

(** Lines 46 and 47 bind [tokenIn] and [tokenOut], line 144 binds
    [userOpFees]; [main] below is the pipeline at the values of the file. *)
Variables tokenIn tokenOut : Address.
Variable userOpFees : option Fees.
Variable env : Env.
Variable w : World.

Definition routerAddress : option Address := KURU_ROUTER env.

(** Lines 68 to 76. *)
Definition swap_args (routeOutput : RouteOutput) (amountIn minOut : Z) : Calldata :=
  anyToAnySwap
    (map orderbook (path (route routeOutput)))
    (isBuy routeOutput)
    (nativeSend routeOutput)
    (route_tokenIn (route routeOutput))
    (route_tokenOut (route routeOutput))
    amountIn
    minOut.

(** Line 83: [routeOutput.nativeSend[0] ? parseEther(size.toFixed(18)) : BigInt(0)]. *)
Definition swap_value (routeOutput : RouteOutput) : option Z :=
  match nativeSend routeOutput with
  | true :: _ => parseEther (toFixed size 18)
  | _ => Some 0
  end.

(** [uint256]: the range that the encoder of an amount accepts. *)
Definition in_uint256 (z : Z) : bool := (0 <=? z) && (z <? 2 ^ 256).

(** Line 45: the constructor of [PoolFetcher] reads the characters of the
    base URL; a missing one is a TypeError. *)
Definition newPoolFetcher (api : option string) : M unit :=
  match api with
  | Some _ => ret tt
  | None => throw "TypeError"
  end.

(** viem's [encodeFunctionData] (lines 84 to 88 and 127 to 131) encodes the
    arguments in their order and throws on the first it refuses: an address
    that is missing or malformed, an amount outside [uint256].  The spender
    of an approval is the router, which the read of the allowance has
    encoded before. *)
Definition encodeFunctionData (d : Calldata) : M unit :=
  match d with
  | anyToAnySwap _ _ _ _ _ amountIn minAmountOut =>
      await (w_encodeFunctionData w d) ;;;
      if in_uint256 amountIn && in_uint256 minAmountOut then ret tt
      else throw "IntegerOutOfRangeError"
  | approve None _ => throw "InvalidAddressError"
  | approve (Some _) amount =>
      if in_uint256 amount then ret tt else throw "IntegerOutOfRangeError"
  end.

(** [kernelClient.account.encodeCalls] (lines 123 and 148) joins the target,
    the value and the data of the call; a missing target is a TypeError. *)
Definition encodeCalls (calls : list Call) : M unit :=
  if forallb (fun c => match to c with Some _ => true | None => false end) calls
  then ret tt
  else throw "TypeError".

(** Lines 107 to 113: the client of the bundler, at [BUNDLER_URL]. *)
Definition createKernelAccountClient : M unit :=
  await (w_createKernelAccountClient w (BUNDLER_URL env)).

(** Lines 35 to 38: viem's [http] transport needs a URL, from its argument
    or from the chain, and both are [rpcUrl]. *)
Definition createPublicClient : M unit :=
  match RPC_URL env with
  | Some _ => await (w_createPublicClient w (RPC_URL env))
  | None => throw "UrlRequiredError"
  end.

(** Lines 147 to 161. *)
Definition build_userOperation (swapValue : Z) (swapData : Calldata) : UserOperation :=
  {| callData := [ {| to := routerAddress; value := swapValue; data := swapData |} ];
     maxPriorityFeePerGas := escalated (optional_field userOpFees fees_maxPriorityFeePerGas);
     maxFeePerGas := escalated (optional_field userOpFees fees_maxFeePerGas) |}.

(** Lines 122 to 134: the operation that approves the router. *)
Definition approval_operation (amountIn : Z) : UserOperation :=
  {| callData := [ {| to := Some tokenIn; value := 0; data := approve routerAddress amountIn |} ];
     maxPriorityFeePerGas := None;
     maxFeePerGas := None |}.

(** Lines 173 to 177.  The read encodes its arguments before it reaches the
    chain: a missing spender is an error and nothing is read. *)
Definition getAllowance (contractAddress owner : Address) (spender : option Address) : M Z :=
  match spender with
  | Some _ =>
      emit (ReadAllowance contractAddress owner spender) ;;;
      await (w_allowance w contractAddress owner spender)
  | None => throw "InvalidAddressError"
  end.

Definition sendUserOperation (request : SendRequest) : M Hex :=
  emit (SendUserOperation request) ;;;
  await (w_sendUserOperation w request).

Definition waitForUserOperationReceipt (hash : Hex) : M Hex :=
  emit (WaitForUserOperationReceipt hash) ;;;
  await (w_waitForUserOperationReceipt w hash).

Definition signUserOperation (op : UserOperation) : M SignedUserOperation :=
  emit (SignUserOperation op) ;;;
  sig <- await (w_signUserOperation w op) ;;
  ret {| signed_operation := op; signature := sig |}.

(** viem's [privateKeyToAccount] reads the characters of the key: a
    missing key is a TypeError. *)
Definition privateKeyToAccount (key : option Hex) : M Hex :=
  match key with
  | Some k => await (w_privateKeyToAccount w k)
  | None => throw "TypeError"
  end.

(** Lines 119 to 142. *)
Definition allowance_guard (userAccountAddress : Address) (amountIn : Z) : M unit :=
  if negb (String.eqb zeroAddress tokenIn) then
    currentAllowance <- getAllowance tokenIn userAccountAddress routerAddress ;;
    if currentAllowance <? amountIn then
      encodeFunctionData (approve routerAddress amountIn) ;;;
      encodeCalls (callData (approval_operation amountIn)) ;;;
      userOpHash1 <- sendUserOperation (Unsigned (approval_operation amountIn)) ;;
      tx <- waitForUserOperationReceipt userOpHash1 ;;
      console_log ["approval tx: "; tx]
    else ret tt
  else ret tt.

Definition main_at : M unit :=
  (* lines 45 to 59 *)
  newPoolFetcher (KURU_API env) ;;;
  emit (GetAllPools (KURU_API env) tokenIn tokenOut) ;;;
  pools <- await (w_getAllPools w (KURU_API env) tokenIn tokenOut) ;;
  emit (FindBestPath tokenIn tokenOut size pools) ;;;
  routeOutput <- await (w_findBestPath w tokenIn tokenOut size pools) ;;
  (* lines 61 to 76 *)
  minOut <- parsed (minTokenOutAmount (output routeOutput)) ;;
  amountIn <- parsed amountInWei ;;
  let args := swap_args routeOutput amountIn minOut in
  (* lines 78 to 81 *)
  (if strict_eq (output routeOutput) (of_Z 0)
   then console_log ["No route found"] ;;; process_exit 0
   else ret tt) ;;;
  (* lines 83 to 88 *)
  swapValue <- parsed (swap_value routeOutput) ;;
  encodeFunctionData args ;;;
  let swapData := args in
  (* lines 90 to 117 *)
  signer <- privateKeyToAccount (PRIVATE_KEY env) ;;
  await (w_signerToEcdsaValidator w signer) ;;;
  emit (CreateKernelAccount signer) ;;;
  userAccountAddress <- await (w_createKernelAccount w) ;;
  createKernelAccountClient ;;;
  console_log ["smart wallet address:"; userAccountAddress] ;;;
  (* lines 119 to 142 *)
  allowance_guard userAccountAddress amountIn ;;;
  (* lines 144 to 170 *)
  let userOperation := build_userOperation swapValue swapData in
  encodeCalls (callData userOperation) ;;;
  signedUserOperation <- signUserOperation userOperation ;;
  userOpHash <- sendUserOperation (Presigned signedUserOperation) ;;
  txHash <- waitForUserOperationReceipt userOpHash ;;
  console_log ["op tx hash:"; txHash] ;;;
  process_exit 0.

(** The module: the clients of lines 35 to 39, then [void main()]. *)
Definition program_at : M unit :=
  createPublicClient ;;;
  main_at.

End Pipeline.

(** [main] with the constants of the file: USDC in, WIF out, no fee estimate. *)
Definition main : Env -> World -> M unit := main_at USDC WIF None.
Definition program : Env -> World -> M unit := program_at USDC WIF None.

(** *** A sample world *)

Definition sample_env : Env :=
  {| KURU_API := Some "https://api.kuru.io";
     KURU_ROUTER := Some "0xc816865f172d640d93712C68a7E1F83F3fA63235";
     RPC_URL := Some "https://rpc";
     BUNDLER_URL := Some "https://bundler";
     PRIVATE_KEY := Some "0x01" |}.

Definition sample_pool : Pool := {| orderbook := "0x05e6f736b5dedd60693fa806ce353156a1b73cf3" |}.

Definition sample_route (out : number) (natives : list bool) : RouteOutput :=
  {| route := {| path := [sample_pool]; route_tokenIn := USDC; route_tokenOut := WIF |};
     isBuy := [false];
     nativeSend := natives;
     output := out |}.

Definition sample_world (out : number) (allowance : Z) : World :=
  {| w_createPublicClient := fun _ => Returns tt;
     w_getAllPools := fun _ _ _ => Returns [sample_pool];
     w_findBestPath := fun _ _ _ _ => Returns (sample_route out [false]);
     w_privateKeyToAccount := fun k => Returns k;
     w_signerToEcdsaValidator := fun _ => Returns tt;
     w_createKernelAccount := Returns "0x7e5f4552091a69125d5dfcb7b8c2659029395bdf";
     w_createKernelAccountClient := fun _ => Returns tt;
     w_encodeFunctionData := fun _ => Returns tt;
     w_allowance := fun _ _ _ => Returns allowance;
     w_signUserOperation := fun _ => Returns "0xsig";
     w_sendUserOperation := fun r => Returns match r with Unsigned _ => "0xop1" | Presigned _ => "0xop2" end;
     w_waitForUserOperationReceipt := fun h => Returns (h ++ "tx")%string |}.

(** ** Reading traces *)

Definition request_operation (r : SendRequest) : UserOperation :=
  match r with
  | Unsigned op => op
  | Presigned s => signed_operation s
  end.

Definition is_approve_call (c : Call) : bool :=
  match data c with approve _ _ => true | _ => false end.

Definition is_swap_call (c : Call) : bool :=
  match data c with anyToAnySwap _ _ _ _ _ _ _ => true | _ => false end.

Definition is_approval_submission (e : Event) : bool :=
  match e with
  | SendUserOperation r => existsb is_approve_call (callData (request_operation r))
  | _ => false
  end.

Definition is_swap_submission (e : Event) : bool :=
  match e with
  | SendUserOperation r => existsb is_swap_call (callData (request_operation r))
  | _ => false
  end.

Definition is_allowance_read (e : Event) : bool :=
  match e with ReadAllowance _ _ _ => true | _ => false end.

(** The interactions with the chain and the bundler. *)
Definition is_on_chain (e : Event) : bool :=
  match e with
  | ReadAllowance _ _ _ | SignUserOperation _ | SendUserOperation _
  | WaitForUserOperationReceipt _ | CreateKernelAccount _ => true
  | _ => false
  end.

Definition count (p : Event -> bool) (t : list Event) : nat :=
  List.length (filter p t).

Definition trace_of {A} (r : (A + Halt) * list Event) : list Event := snd r.

(** The operation that the swap signs and submits. *)
Definition swap_operation_of (e : Event) : option UserOperation :=
  match e with
  | SignUserOperation op => Some op
  | SendUserOperation (Presigned s) => Some (signed_operation s)
  | _ => None
  end.

(** Every submission of the swap comes after the submission of the approval
    of [amount] and after the wait for its receipt, which both returned. *)
Definition confirmed_approval_before_swap (tokenIn : Address) (env : Env) (w : World)
    (amount : Z) (t : list Event) : Prop :=
  forall j e, nth_error t j = Some e -> is_swap_submission e = true ->
  exists i h tx,
    (S i < j)%nat /\
    nth_error t i = Some (SendUserOperation (Unsigned (approval_operation tokenIn env amount))) /\
    nth_error t (S i) = Some (WaitForUserOperationReceipt h) /\
    w_sendUserOperation w (Unsigned (approval_operation tokenIn env amount)) = Returns h /\
    w_waitForUserOperationReceipt w h = Returns tx.

(** The sample environment without its signing key. *)
Definition env_without_key : Env :=
  {| KURU_API := KURU_API sample_env;
     KURU_ROUTER := KURU_ROUTER sample_env;
     RPC_URL := RPC_URL sample_env;
     BUNDLER_URL := BUNDLER_URL sample_env;
     PRIVATE_KEY := None |}.

(** A route of two hops whose first hop sends the native currency. *)
Definition two_hop_route : RouteOutput :=
  {| route := {| path := [ {| orderbook := "0x277bf4a0aac16f19d7bf592feffc8d2d9a890508" |}; {| orderbook := "0xd3af145f1aa1a471b5f0f62c52cf8fcdc9ab55d3" |} ];
                 route_tokenIn := USDC; route_tokenOut := WIF |};
     isBuy := [true; false];
     nativeSend := [true; false];
     output := of_Z 100 |}.

(** The sample world whose resolver answers with the route of two hops and
    whose allowance already covers the input amount. *)
Definition two_hop_world : World :=
  {| w_createPublicClient := w_createPublicClient (sample_world (of_Z 100) 0);
     w_getAllPools := w_getAllPools (sample_world (of_Z 100) 0);
     w_findBestPath := fun _ _ _ _ => Returns two_hop_route;
     w_privateKeyToAccount := w_privateKeyToAccount (sample_world (of_Z 100) 0);
     w_signerToEcdsaValidator := w_signerToEcdsaValidator (sample_world (of_Z 100) 0);
     w_createKernelAccount := w_createKernelAccount (sample_world (of_Z 100) 0);
     w_createKernelAccountClient :=
       w_createKernelAccountClient (sample_world (of_Z 100) 0);
     w_encodeFunctionData := w_encodeFunctionData (sample_world (of_Z 100) 0);
     w_allowance := fun _ _ _ => Returns (10 ^ 14);
     w_signUserOperation := w_signUserOperation (sample_world (of_Z 100) 0);
     w_sendUserOperation := w_sendUserOperation (sample_world (of_Z 100) 0);
     w_waitForUserOperationReceipt :=
       w_waitForUserOperationReceipt (sample_world (of_Z 100) 0) |}.

(** Fee estimates with a positive priority fee. *)
Definition sample_fees : Fees :=
  {| fees_maxPriorityFeePerGas := Some 7; fees_maxFeePerGas := Some 101 |}.

(** Fee estimates whose priority fee is 0. *)
Definition zero_priority_fees : Fees :=
  {| fees_maxPriorityFeePerGas := Some 0; fees_maxFeePerGas := Some 101 |}.

(** The run gets as far as the account: the routing service is set and
    answers with a route of non-zero output, the quote is accepted and the
    arguments of the swap are encoded, the signing key is set and gives a
    signer, and the account of address [wallet] is created. *)
Definition reaches_account (tokenIn tokenOut : Address) (env : Env) (w : World)
    (pools : list Pool) (ro : RouteOutput) (minOut : Z) (signer : Hex)
    (wallet : Address) : Prop :=
  (exists api, KURU_API env = Some api) /\
  w_getAllPools w (KURU_API env) tokenIn tokenOut = Returns pools /\
  w_findBestPath w tokenIn tokenOut size pools = Returns ro /\
  strict_eq (output ro) (of_Z 0) = false /\
  minTokenOutAmount (output ro) = Some minOut /\
  in_uint256 minOut = true /\
  w_encodeFunctionData w (swap_args ro 100000000000000 minOut) = Returns tt /\
  (exists key,
     PRIVATE_KEY env = Some key /\ w_privateKeyToAccount w key = Returns signer) /\
  w_signerToEcdsaValidator w signer = Returns tt /\
  w_createKernelAccount w = Returns wallet.

(** The sample environment without its router address. *)
Definition env_without_router : Env :=
  {| KURU_API := KURU_API sample_env;
     KURU_ROUTER := None;
     RPC_URL := RPC_URL sample_env;
     BUNDLER_URL := BUNDLER_URL sample_env;
     PRIVATE_KEY := PRIVATE_KEY sample_env |}.

(** *** Further readings of traces *)

Definition is_signature (e : Event) : bool :=
  match e with SignUserOperation _ => true | _ => false end.

Definition is_submission (e : Event) : bool :=
  match e with SendUserOperation _ => true | _ => false end.

Definition is_exit (e : Event) : bool :=
  match e with ProcessExit _ => true | _ => false end.

(** *** Raw outputs at the edges of the quote *)

(** The greatest raw output whose minimum output is 0, about 5.26e-19, and
    the number that follows it. *)
Definition dust_output : number := S754_finite false 5465575640562975 (-113).
Definition above_dust_output : number := S754_finite false 5465575640562976 (-113).

(** The greatest raw output whose quote [parseUnits] accepts, about
    1.0526e21, and the number that follows it. *)
Definition greatest_quoted_output : number := S754_finite false 8030941611842105 17.
Definition least_refused_output : number := S754_finite false 8030941611842106 17.

(** ** Correctly rounded arithmetic on integers

    The value of a non-negative number is counted in units of 2^-1074, the
    least positive binary64 value, so that every well-formed number is an
    integer and every exact product or quotient is a fraction [A / D]. *)

(** The integer nearest to [N / D], ties to even. *)
Definition rne (N D : Z) : Z :=
  let q := N / D in
  let r := N mod D in
  if 2 * r <? D then q
  else if D <? 2 * r then q + 1
  else if Z.even q then q else q + 1.

(** The number of low bits that a 53-bit significand drops from [A / D]. *)
Definition b64_exp (A D : Z) : Z := Z.max (Zdigits2 (A / D) - 53) 0.

(** [A / D] rounded to 53 significant bits, ties to even. *)
Definition b64_round (A D : Z) : Z :=
  rne A (D * 2 ^ b64_exp A D) * 2 ^ b64_exp A D.

(** The round and sticky bits of the truncation of [N / D]. *)
Definition round_bit (N D : Z) : bool := D <=? 2 * (N mod D).
Definition sticky_bit (N D : Z) : bool :=
  negb (N mod D =? 0) && negb (2 * (N mod D) =? D).

(** The record that [shr] keeps of the truncation of [N / D]. *)
Definition rec_of (N D : Z) : shr_record :=
  Build_shr_record (N / D) (round_bit N D) (sticky_bit N D).

(** 2^1024 in units of 2^-1074: the value that stands for +Infinity. *)
Definition INF : Z := 2 ^ 2098.

(** The value of a number in units of 2^-1074. *)
Definition ulps (x : number) : Z :=
  match x with
  | S754_zero _ => 0
  | S754_finite _ m e => Zpos m * 2 ^ (e + 1074)
  | S754_infinity _ => INF
  | S754_nan => 0
  end.

(** Zero, a positive number below 2^1024 whose exponent is at least -1074,
    or +Infinity. *)
Definition nonneg_num (x : number) : bool :=
  match x with
  | S754_zero _ => true
  | S754_finite false m e => (-1074 <=? e) && (Zpos m * 2 ^ (e + 1074) <? INF)
  | S754_infinity false => true
  | _ => false
  end.

(** The rational [(N / D) * 2^e] in units of 2^-1074, as a fraction. *)
Definition ulps_num (N e : Z) : Z := N * 2 ^ Z.max 0 (e + 1074).
Definition ulps_den (D e : Z) : Z := D * 2 ^ Z.max 0 (- (e + 1074)).

(** The steps of the quote on values in units of 2^-1074: the factor
    [100 - s], the product by the factor, the quotient by 100, and the text
    at 18 decimals read back as an integer. *)
Definition factor_ulps (S : Z) : Z := b64_round (100 * 2 ^ 1074 - S) 1.
Definition stage_mul (C U : Z) : Z := Z.min INF (b64_round (U * C) (2 ^ 1074)).
Definition stage_div (U : Z) : Z :=
  if INF <=? U then INF else Z.min INF (b64_round U 100).
Definition quote_ulps (S U : Z) : Z := stage_div (stage_mul (factor_ulps S) U).

Definition fixed_of_ulps (U : Z) : option Z :=
  if 10 ^ 21 * 2 ^ 1074 <=? U then None
  else Some ((2 * U * 10 ^ 18 + 2 ^ 1074) / 2 ^ 1075).

(** ** Tactics *)

(** Reduction of the monad of [main], leaving the quote, the addresses and
    the answers of the world as they are. *)
Ltac run_red :=
  cbv beta iota zeta fix delta
    [run program_at main_at program main allowance_guard getAllowance
     sendUserOperation waitForUserOperationReceipt signUserOperation
     privateKeyToAccount newPoolFetcher encodeFunctionData encodeCalls
     createKernelAccountClient createPublicClient routerAddress
     console_log process_exit bind emit ret throw await
     parsed trace_of app fst snd];
  cbn [swap_args forallb callData to build_userOperation approval_operation
       routerAddress andb].

(** The test on which a partly evaluated run waits: the scrutinee at the
    head of the term. *)
Ltac waiting_on t :=
  lazymatch t with
  | match ?o with Returns _ => _ | Throws _ => _ end => waiting_on_or o
  | match ?o with Some _ => _ | None => _ end => waiting_on_or o
  | match ?o with inl _ => _ | inr _ => _ end => waiting_on o
  | let (_, _) := ?o in _ => waiting_on o
  | if ?b then _ else _ => waiting_on_or b
  | andb ?b _ => waiting_on_or b
  | ?f _ => waiting_on f
  end
with waiting_on_or o :=
  match o with
  | _ => waiting_on o
  | _ => o
  end.

(** One step of a symbolic run: case analysis on the next answer of the world. *)
Ltac world_step :=
  match goal with
  | |- context [let (_, _) := ?r in _] =>
      let o := waiting_on r in destruct o eqn:?
  end; run_red.

(** One step of a run whose next answer is known. *)
Ltac known H := rewrite H; run_red.

(** Puts the variables of the environment back where a case analysis has
    replaced them by their values. *)
Ltac env_back :=
  repeat match goal with
  | H : KURU_ROUTER ?e = Some ?x |- context [Some ?x] => rewrite <- H
  | H : KURU_API ?e = Some ?x |- context [Some ?x] => rewrite <- H
  end.

(** Membership in an explicit trace, one event at a time. *)
Ltac split_in H :=
  cbn [In] in H;
  repeat match type of H with
  | _ \/ _ => destruct H as [H | H]; [try discriminate H |]
  | False => contradiction
  end.

(** ** The text of a fixed-point number reads back as its integer *)

Module TextFacts.

Lemma digit_char_value (d : Z) :
  0 <= d < 10 ->
  Z.of_nat (nat_of_ascii (digit_char d)) - 48 = d /\ is_digit (digit_char d) = true /\
  Ascii.eqb (digit_char d) dot_char = false /\ Ascii.eqb (digit_char d) minus_char = false.
Proof.
  intros Hd.
  assert (Hc : d = 0 \/ d = 1 \/ d = 2 \/ d = 3 \/ d = 4 \/ d = 5 \/ d = 6 \/ d = 7 \/
               d = 8 \/ d = 9) by lia.
  repeat (destruct Hc as [-> | Hc]); try subst d; repeat split; reflexivity.
Qed.

Lemma digits_value_app (l1 l2 : list ascii) (a : Z) :
  digits_value a (l1 ++ l2) = digits_value (digits_value a l1) l2.
Proof.
  revert a. induction l1 as [| c l1 IH]; intros a; cbn; [reflexivity | apply IH].
Qed.

Lemma decimal_digits_aux_spec (fuel : nat) :
  forall n acc, 0 <= n < 2 ^ Z.of_nat fuel -> (0 < fuel)%nat ->
  exists l,
    decimal_digits_aux fuel n acc = l ++ acc /\
    l <> [] /\
    forallb is_digit l = true /\
    forall a, digits_value a l = a * 10 ^ Z.of_nat (List.length l) + n.
Proof.
  induction fuel as [| fuel IH]; intros n acc Hn Hfuel; [lia |].
  cbn [decimal_digits_aux].
  assert (Hmod : 0 <= n mod 10 < 10) by (apply Z.mod_pos_bound; lia).
  destruct (digit_char_value _ Hmod) as (Hval & Hdig & _).
  destruct (Z.eqb_spec (n / 10) 0) as [Hq | Hq].
  - exists [digit_char (n mod 10)]. repeat split.
    + discriminate.
    + cbn [forallb]. now rewrite Hdig.
    + intros a. cbn [digits_value List.length]. rewrite Hval.
      pose proof (Z.div_mod n 10 ltac:(lia)). lia.
  - assert (Hdiv : 0 <= n / 10 < 2 ^ Z.of_nat fuel).
    { split; [apply Z.div_pos; lia |].
      apply Z.div_lt_upper_bound; [lia |].
      rewrite Nat2Z.inj_succ, Z.pow_succ_r in Hn by lia. lia. }
    assert (Hpos : (0 < fuel)%nat).
    { destruct fuel; [| lia]. cbn in Hdiv. lia. }
    destruct (IH (n / 10) (digit_char (n mod 10) :: acc) Hdiv Hpos)
      as (l & Heq & Hne & Hall & Hv).
    exists (l ++ [digit_char (n mod 10)]). repeat split.
    + rewrite Heq, <- app_assoc. reflexivity.
    + destruct l; discriminate.
    + rewrite forallb_app, Hall. cbn [forallb andb]. now rewrite Hdig.
    + intros a. rewrite digits_value_app, Hv. cbn [digits_value].
      rewrite Hval, length_app. cbn [List.length].
      rewrite Nat2Z.inj_add, Z.pow_add_r by lia.
      pose proof (Z.div_mod n 10 ltac:(lia)).
      change (Z.of_nat 1) with 1. rewrite Z.pow_1_r. lia.
Qed.

Lemma decimal_digits_spec (n : Z) :
  0 <= n ->
  decimal_digits n <> [] /\
  forallb is_digit (decimal_digits n) = true /\
  forall a, digits_value a (decimal_digits n) =
            a * 10 ^ Z.of_nat (List.length (decimal_digits n)) + n.
Proof.
  intros Hn. unfold decimal_digits.
  destruct (decimal_digits_aux_spec (S (Z.to_nat (Z.log2 n))) n []) as (l & Heq & Hne & Hall & Hv).
  - split; [lia |].
    rewrite Nat2Z.inj_succ, Z2Nat.id by apply Z.log2_nonneg.
    destruct (Z.eq_dec n 0) as [-> | Hn0]; [cbn; lia |].
    apply Z.log2_spec. lia.
  - lia.
  - rewrite Heq, app_nil_r. auto.
Qed.

Lemma is_digit_not_mark (c : ascii) :
  is_digit c = true -> Ascii.eqb c dot_char = false /\ Ascii.eqb c minus_char = false.
Proof.
  intros Hc. split.
  - destruct (Ascii.eqb_spec c dot_char) as [-> | _]; [discriminate Hc | reflexivity].
  - destruct (Ascii.eqb_spec c minus_char) as [-> | _]; [discriminate Hc | reflexivity].
Qed.

Lemma split_dot_digits (a b : list ascii) :
  forallb is_digit a = true ->
  split_dot (a ++ dot_char :: b) = (a, Some b).
Proof.
  induction a as [| c a IH]; cbn [forallb app split_dot]; intros Ha.
  - reflexivity.
  - apply andb_prop in Ha as [Hc Ha].
    destruct (is_digit_not_mark c Hc) as [-> _]. now rewrite IH.
Qed.

Lemma digits_value_zeros (j : nat) (a : Z) :
  digits_value a (repeat zero_char j) = a * 10 ^ Z.of_nat j.
Proof.
  revert a. induction j as [| j IH]; intros a.
  - cbn. lia.
  - cbn [repeat digits_value]. rewrite IH, Nat2Z.inj_succ, Z.pow_succ_r by lia.
    change (Z.of_nat (nat_of_ascii zero_char)) with 48. lia.
Qed.

Lemma forallb_repeat_zero (j : nat) : forallb is_digit (repeat zero_char j) = true.
Proof. induction j; [reflexivity | cbn [repeat forallb]; now rewrite IHj]. Qed.

Lemma drop_zeros_spec (l : list ascii) :
  l = repeat zero_char (List.length l - List.length (drop_zeros l)) ++ drop_zeros l /\
  (List.length (drop_zeros l) <= List.length l)%nat.
Proof.
  induction l as [| c l [IH Hlen]]; [split; reflexivity |].
  cbn [drop_zeros]. destruct (Ascii.eqb_spec c zero_char) as [-> | Hc].
  - split; [| cbn [List.length]; lia].
    cbn [List.length].
    replace (S (List.length l) - List.length (drop_zeros l))%nat
      with (S (List.length l - List.length (drop_zeros l))) by lia.
    cbn [repeat app]. now rewrite <- IH.
  - split; [| lia]. now rewrite Nat.sub_diag.
Qed.

Lemma rev_repeat_zero (j : nat) : rev (repeat zero_char j) = repeat zero_char j.
Proof.
  induction j as [| j IH]; [reflexivity |].
  cbn [repeat rev]. rewrite IH. symmetry. apply repeat_cons.
Qed.

Lemma pad_trim (l : list ascii) :
  pad_end (trim_trailing_zeros l) (List.length l) = l /\
  (List.length (trim_trailing_zeros l) <= List.length l)%nat.
Proof.
  unfold pad_end, trim_trailing_zeros.
  destruct (drop_zeros_spec (rev l)) as [Heq Hlen].
  rewrite length_rev in *. split; [| exact Hlen].
  apply (f_equal (@rev ascii)) in Heq.
  rewrite rev_involutive, rev_app_distr, rev_repeat_zero in Heq.
  symmetry. exact Heq.
Qed.

Lemma fixed_digits_shape (n : Z) (f : nat) :
  0 <= n -> (0 < f)%nat ->
  exists a b,
    fixed_digits n f = a ++ dot_char :: b /\
    List.length b = f /\
    forallb is_digit a = true /\
    forallb is_digit b = true /\
    digits_value 0 (a ++ b) = n.
Proof.
  intros Hn Hf. destruct (decimal_digits_spec n Hn) as (Hne & Hall & Hval).
  unfold fixed_digits.
  set (m0 := decimal_digits n) in *.
  set (m := if Nat.leb (List.length m0) f
            then repeat zero_char (f + 1 - List.length m0) ++ m0 else m0).
  assert (Hm : (f < List.length m)%nat /\ forallb is_digit m = true /\ digits_value 0 m = n).
  { subst m. destruct (Nat.leb_spec (List.length m0) f) as [Hle | Hgt].
    - rewrite length_app, repeat_length, forallb_app, forallb_repeat_zero, Hall.
      rewrite digits_value_app, digits_value_zeros, Hval.
      repeat split; lia.
    - rewrite Hval. repeat split; auto. }
  destruct Hm as (Hlen & Hdig & Hv).
  destruct f as [| f']; [lia |].
  exists (firstn (List.length m - S f') m), (skipn (List.length m - S f') m).
  rewrite <- (firstn_skipn (List.length m - S f') m) in Hdig.
  rewrite forallb_app in Hdig. apply andb_prop in Hdig as [Ha Hb].
  repeat split; auto.
  - rewrite length_skipn. lia.
  - now rewrite firstn_skipn.
Qed.

Lemma parseUnits_fixed_digits (n : Z) (f : nat) :
  0 <= n -> (0 < f)%nat ->
  parseUnits_chars (fixed_digits n f) f = Some n /\
  parseUnits_chars (minus_char :: fixed_digits n f) f = Some (- n).
Proof.
  intros Hn Hf.
  destruct (fixed_digits_shape n f Hn Hf) as (a & b & -> & Hlen & Ha & Hb & Hv).
  destruct (pad_trim b) as [Hpad Htrim]. rewrite Hlen in Hpad, Htrim.
  assert (Hlt : Nat.ltb f (List.length (trim_trailing_zeros b)) = false)
    by (apply Nat.ltb_ge; exact Htrim).
  split.
  - unfold parseUnits_chars. rewrite (split_dot_digits a b Ha).
    assert (Hsign :
      match a with
      | c :: rest => if Ascii.eqb c minus_char then (true, rest) else (false, a)
      | [] => (false, a)
      end = (false, a)).
    { destruct a as [| c rest]; [reflexivity |].
      cbn [forallb] in Ha. apply andb_prop in Ha as [Hc _].
      now destruct (is_digit_not_mark c Hc) as [_ ->]. }
    rewrite Hsign, Ha, Hb. cbn [andb negb]. rewrite Hlt, Hpad, Hv. reflexivity.
  - unfold parseUnits_chars.
    change (minus_char :: a ++ dot_char :: b) with ((minus_char :: a) ++ dot_char :: b).
    assert (Hsplit : split_dot ((minus_char :: a) ++ dot_char :: b) = (minus_char :: a, Some b)).
    { cbn [app split_dot]. change (Ascii.eqb minus_char dot_char) with false.
      cbv iota. now rewrite (split_dot_digits a b Ha). }
    rewrite Hsplit. change (Ascii.eqb minus_char minus_char) with true. cbv iota.
    rewrite Ha, Hb. cbn [andb negb]. rewrite Hlt, Hpad, Hv. reflexivity.
Qed.

End TextFacts.

Import TextFacts.

(** ** Binary digits *)

Lemma digits2_pos_size (p : positive) : digits2_pos p = Pos.size p.
Proof. induction p; cbn; congruence. Qed.

Lemma Zdigits2_log2 (m : Z) : 0 < m -> Zdigits2 m = Z.log2 m + 1.
Proof.
  destruct m as [| p | p]; try lia. intros _.
  cbn [Zdigits2]. rewrite digits2_pos_size.
  destruct p; cbn [Pos.size Z.log2]; lia.
Qed.

Lemma Zdigits2_nonneg (m : Z) : 0 <= Zdigits2 m.
Proof. destruct m; cbn; lia. Qed.

Lemma Zdigits2_bounds (m : Z) :
  0 < m -> 2 ^ (Zdigits2 m - 1) <= m < 2 ^ Zdigits2 m.
Proof.
  intros Hm. rewrite Zdigits2_log2 by exact Hm.
  replace (Z.log2 m + 1 - 1) with (Z.log2 m) by lia.
  apply Z.log2_spec. exact Hm.
Qed.

Lemma Zdigits2_upper (m : Z) : 0 <= m -> m < 2 ^ Zdigits2 m.
Proof.
  intros Hm. destruct (Z.eq_dec m 0) as [-> | Hne]; [cbn; lia |].
  apply Zdigits2_bounds. lia.
Qed.

Lemma Zdigits2_unique (m d : Z) :
  2 ^ (d - 1) <= m < 2 ^ d -> 0 < m -> Zdigits2 m = d.
Proof.
  intros Hb Hm. rewrite Zdigits2_log2 by exact Hm.
  assert (0 < d).
  { destruct (Z.le_gt_cases d 0) as [Hd | Hd]; [| exact Hd].
    assert (2 ^ d <= 2 ^ 0) by (apply Z.pow_le_mono_r; lia).
    change (2 ^ 0) with 1 in *. lia. }
  assert (Z.log2 m = d - 1) by (apply Z.log2_unique; [lia |]; replace (Z.succ (d - 1)) with d by lia; exact Hb).
  lia.
Qed.

Lemma Zdigits2_mono (a b : Z) : 0 <= a <= b -> Zdigits2 a <= Zdigits2 b.
Proof.
  intros [Ha Hab]. destruct (Z.eq_dec a 0) as [-> | Hne].
  - apply Zdigits2_nonneg.
  - rewrite !Zdigits2_log2 by lia.
    pose proof (Z.log2_le_mono a b Hab). lia.
Qed.

Lemma Zdigits2_le (m d : Z) : 0 <= m -> 0 <= d -> m < 2 ^ d -> Zdigits2 m <= d.
Proof.
  intros Hm Hd Hlt. destruct (Z.eq_dec m 0) as [-> | Hne]; [cbn; lia |].
  destruct (Z.le_gt_cases (Zdigits2 m) d) as [H | H]; [exact H |].
  pose proof (Zdigits2_bounds m ltac:(lia)) as [Hlo _].
  assert (2 ^ d <= 2 ^ (Zdigits2 m - 1)) by (apply Z.pow_le_mono_r; lia).
  lia.
Qed.

Lemma Zdigits2_ge (m d : Z) : 0 <= d -> 2 ^ d <= m -> d + 1 <= Zdigits2 m.
Proof.
  intros Hd Hle.
  assert (Hm : 0 < m) by (pose proof (Z.pow_pos_nonneg 2 d); lia).
  destruct (Z.le_gt_cases (d + 1) (Zdigits2 m)) as [Hc | Hc]; [exact Hc |].
  pose proof (Zdigits2_bounds m ltac:(lia)) as [_ Hhi].
  pose proof (Zdigits2_nonneg m).
  assert (2 ^ Zdigits2 m <= 2 ^ d) by (apply Z.pow_le_mono_r; lia).
  lia.
Qed.

Lemma pow2_pos (t : Z) : 0 <= t -> 0 < 2 ^ t.
Proof. intros. apply Z.pow_pos_nonneg; lia. Qed.

Lemma pow2_le (a b : Z) : 0 <= a <= b -> 2 ^ a <= 2 ^ b.
Proof. intros. apply Z.pow_le_mono_r; lia. Qed.

Lemma pow2_split (a b : Z) : 0 <= a -> 0 <= b -> 2 ^ (a + b) = 2 ^ a * 2 ^ b.
Proof. intros. apply Z.pow_add_r; lia. Qed.

(** ** Nearest integer, ties to even *)

Lemma rne_spec (N D : Z) :
  0 < D ->
  (2 * N - D < 2 * D * rne N D < 2 * N + D) \/
  ((2 * D * rne N D = 2 * N - D \/ 2 * D * rne N D = 2 * N + D) /\ Z.even (rne N D) = true).
Proof.
  intros HD. unfold rne. cbv zeta.
  pose proof (Z.div_mod N D ltac:(lia)) as Hdm.
  pose proof (Z.mod_pos_bound N D HD) as Hr.
  set (q := N / D) in *. set (r := N mod D) in *.
  assert (Hq1 : 2 * D * (q + 1) = 2 * (D * q) + 2 * D) by ring.
  assert (Hq0 : 2 * D * q = 2 * (D * q)) by ring.
  destruct (Z.ltb_spec (2 * r) D) as [H1 | H1]; [left; lia |].
  destruct (Z.ltb_spec D (2 * r)) as [H2 | H2]; [left; lia |].
  right. destruct (Z.even q) eqn:He.
  - split; [left; lia | exact He].
  - split; [right; lia |]. rewrite Z.even_add, He. reflexivity.
Qed.

Lemma rne_bounds (N D : Z) :
  0 < D -> 2 * N - D <= 2 * D * rne N D <= 2 * N + D.
Proof. intros HD. destruct (rne_spec N D HD) as [H | [[H | H] _]]; lia. Qed.

Lemma rne_mono (N1 D1 N2 D2 : Z) :
  0 < D1 -> 0 < D2 -> N1 * D2 <= N2 * D1 -> rne N1 D1 <= rne N2 D2.
Proof.
  intros H1 H2 Hle.
  destruct (Z.le_gt_cases (rne N1 D1) (rne N2 D2)) as [H | Hgt]; [exact H | exfalso].
  set (k1 := rne N1 D1) in *. set (k2 := rne N2 D2) in *.
  pose proof (rne_bounds N1 D1 H1) as B1. pose proof (rne_bounds N2 D2 H2) as B2.
  pose proof (rne_spec N1 D1 H1) as S1. pose proof (rne_spec N2 D2 H2) as S2.
  fold k1 in B1, S1. fold k2 in B2, S2. clearbody k1 k2.
  assert (Ha : (2 * D1 * k1 - D1) * D2 <= 2 * N1 * D2)
    by (apply Z.mul_le_mono_nonneg_r; lia).
  assert (Hb : 2 * N2 * D1 <= (2 * D2 * k2 + D2) * D1)
    by (apply Z.mul_le_mono_nonneg_r; lia).
  assert (HP : 0 < D1 * D2) by (apply Z.mul_pos_pos; lia).
  assert (Hk : k1 = k2 + 1).
  { assert (Hc : (D1 * D2) * (2 * k1 - 1) <= (D1 * D2) * (2 * k2 + 1)).
    { replace ((D1 * D2) * (2 * k1 - 1)) with ((2 * D1 * k1 - D1) * D2) by ring.
      replace ((D1 * D2) * (2 * k2 + 1)) with ((2 * D2 * k2 + D2) * D1) by ring.
      lia. }
    apply Z.mul_le_mono_pos_l in Hc; lia. }
  assert (E1 : 2 * D1 * k1 = 2 * N1 + D1).
  { assert (Hc : (2 * D1 * k1 - D1) * D2 = 2 * N1 * D2).
    { assert ((2 * D2 * k2 + D2) * D1 = (2 * D1 * k1 - D1) * D2) by (rewrite Hk; ring).
      lia. }
    apply Z.mul_cancel_r in Hc; lia. }
  assert (E2 : 2 * D2 * k2 = 2 * N2 - D2).
  { assert (Hc : (2 * D2 * k2 + D2) * D1 = 2 * N2 * D1).
    { assert ((2 * D2 * k2 + D2) * D1 = (2 * D1 * k1 - D1) * D2) by (rewrite Hk; ring).
      lia. }
    apply Z.mul_cancel_r in Hc; lia. }
  destruct S1 as [S1 | [_ P1]]; [lia |].
  destruct S2 as [S2 | [_ P2]]; [lia |].
  rewrite Hk, Z.even_add, P2 in P1. discriminate P1.
Qed.

Lemma rne_exact (k D : Z) : 0 < D -> rne (k * D) D = k.
Proof.
  intros HD. unfold rne. cbv zeta. rewrite Z.div_mul, Z.mod_mul by lia.
  destruct (Z.ltb_spec (2 * 0) D); [reflexivity | lia].
Qed.

Lemma rne_ge (J N D : Z) : 0 < D -> J * D <= N -> J <= rne N D.
Proof.
  intros HD H. rewrite <- (rne_exact J D HD). apply rne_mono; try lia. nia.
Qed.

Lemma rne_le (J N D : Z) : 0 < D -> N <= J * D -> rne N D <= J.
Proof.
  intros HD H. rewrite <- (rne_exact J D HD). apply rne_mono; try lia. nia.
Qed.

Lemma rne_same (N D N' D' : Z) :
  0 < D -> 0 < D' -> N * D' = N' * D -> rne N D = rne N' D'.
Proof.
  intros H1 H2 He. apply Z.le_antisymm; apply rne_mono; lia.
Qed.

Lemma rne_nonneg (N D : Z) : 0 <= N -> 0 < D -> 0 <= rne N D.
Proof. intros HN HD. apply rne_ge; lia. Qed.

Lemma div_le_cross (A1 D1 A2 D2 : Z) :
  0 < D1 -> 0 < D2 -> A1 * D2 <= A2 * D1 -> A1 / D1 <= A2 / D2.
Proof.
  intros H1 H2 Hle.
  apply Z.div_le_lower_bound; [lia |].
  pose proof (Z.mul_div_le A1 D1 H1).
  assert (D1 * ((A1 / D1) * D2) <= D1 * A2) by nia.
  nia.
Qed.

(** ** Rounding to 53 significant bits *)

Lemma b64_exp_nonneg (A D : Z) : 0 <= b64_exp A D.
Proof. unfold b64_exp. lia. Qed.

Lemma b64_exp_mono (A1 D1 A2 D2 : Z) :
  0 <= A1 -> 0 < D1 -> 0 < D2 -> A1 * D2 <= A2 * D1 ->
  b64_exp A1 D1 <= b64_exp A2 D2.
Proof.
  intros HA H1 H2 Hle. unfold b64_exp.
  assert (Zdigits2 (A1 / D1) <= Zdigits2 (A2 / D2)).
  { apply Zdigits2_mono. split; [apply Z.div_pos; lia | now apply div_le_cross]. }
  lia.
Qed.

Lemma b64_round_upper (A D : Z) :
  0 <= A -> 0 < D ->
  rne A (D * 2 ^ b64_exp A D) <= 2 ^ 53.
Proof.
  intros HA HD. pose proof (b64_exp_nonneg A D) as HT.
  set (T := b64_exp A D) in *.
  pose proof (pow2_pos T HT) as HpT.
  apply rne_le; [nia |].
  assert (Hq : 0 <= A / D) by (apply Z.div_pos; lia).
  pose proof (Zdigits2_upper (A / D) Hq) as Hup.
  pose proof (Zdigits2_nonneg (A / D)) as Hd.
  assert (HL : Zdigits2 (A / D) <= T + 53) by (unfold T, b64_exp; lia).
  assert (Hpow : 2 ^ Zdigits2 (A / D) <= 2 ^ (T + 53)) by (apply Z.pow_le_mono_r; lia).
  rewrite Z.pow_add_r in Hpow by lia.
  assert (HAD : A < (A / D + 1) * D).
  { pose proof (Z.div_mod A D ltac:(lia)). pose proof (Z.mod_pos_bound A D HD). nia. }
  assert (A / D + 1 <= 2 ^ T * 2 ^ 53) by lia.
  assert ((A / D + 1) * D <= 2 ^ T * 2 ^ 53 * D) by (apply Z.mul_le_mono_nonneg_r; lia).
  replace (2 ^ 53 * (D * 2 ^ T)) with (2 ^ T * 2 ^ 53 * D) by ring.
  lia.
Qed.

Lemma b64_round_lower (A D : Z) :
  0 <= A -> 0 < D -> 0 < b64_exp A D ->
  2 ^ 52 <= rne A (D * 2 ^ b64_exp A D).
Proof.
  intros HA HD HT. set (T := b64_exp A D) in *.
  pose proof (pow2_pos T ltac:(lia)) as HpT.
  apply rne_ge; [nia |].
  assert (HL : Zdigits2 (A / D) = T + 53) by (unfold T, b64_exp in *; lia).
  assert (Hq : 0 < A / D).
  { destruct (Z.eq_dec (A / D) 0) as [E | E]; [rewrite E in HL; cbn in HL; lia |].
    pose proof (Z.div_pos A D HA HD). lia. }
  pose proof (Zdigits2_bounds (A / D) Hq) as [Hlo _].
  rewrite HL in Hlo. replace (T + 53 - 1) with (T + 52) in Hlo by lia.
  rewrite Z.pow_add_r in Hlo by lia.
  pose proof (Z.mul_div_le A D HD).
  assert (2 ^ T * 2 ^ 52 * D <= A / D * D) by (apply Z.mul_le_mono_nonneg_r; lia).
  replace (2 ^ 52 * (D * 2 ^ T)) with (2 ^ T * 2 ^ 52 * D) by ring.
  lia.
Qed.

Theorem b64_round_mono (A1 D1 A2 D2 : Z) :
  0 <= A1 -> 0 < D1 -> 0 < D2 -> A1 * D2 <= A2 * D1 ->
  b64_round A1 D1 <= b64_round A2 D2.
Proof.
  intros HA H1 H2 Hle.
  assert (HA2 : 0 <= A2) by nia.
  pose proof (b64_exp_mono A1 D1 A2 D2 HA H1 H2 Hle) as HT.
  pose proof (b64_exp_nonneg A1 D1) as HT1.
  unfold b64_round.
  set (T1 := b64_exp A1 D1) in *. set (T2 := b64_exp A2 D2) in *.
  pose proof (pow2_pos T1 HT1) as Hp1. pose proof (pow2_pos T2 ltac:(lia)) as Hp2.
  destruct (Z.eq_dec T1 T2) as [E | E].
  - rewrite <- E. apply Z.mul_le_mono_nonneg_r; [lia |].
    apply rne_mono; [nia | nia |].
    replace (A1 * (D2 * 2 ^ T1)) with (A1 * D2 * 2 ^ T1) by ring.
    replace (A2 * (D1 * 2 ^ T1)) with (A2 * D1 * 2 ^ T1) by ring.
    apply Z.mul_le_mono_nonneg_r; lia.
  - pose proof (b64_round_upper A1 D1 HA H1) as Hup.
    pose proof (b64_round_lower A2 D2 HA2 H2 ltac:(unfold T2 in *; lia)) as Hlo.
    fold T1 in Hup. fold T2 in Hlo.
    assert (Hpow : 2 ^ (T1 + 1) <= 2 ^ T2) by (apply Z.pow_le_mono_r; lia).
    rewrite Z.pow_add_r in Hpow by lia. change (2 ^ 1) with 2 in Hpow.
    assert (rne A1 (D1 * 2 ^ T1) * 2 ^ T1 <= 2 ^ 53 * 2 ^ T1)
      by (apply Z.mul_le_mono_nonneg_r; lia).
    assert (2 ^ 52 * 2 ^ T2 <= rne A2 (D2 * 2 ^ T2) * 2 ^ T2)
      by (apply Z.mul_le_mono_nonneg_r; lia).
    change (2 ^ 53) with (2 ^ 52 * 2) in *. nia.
Qed.

(** A value of at most 53 significant bits rounds to itself. *)
Lemma b64_round_exact (m t D : Z) :
  0 <= m < 2 ^ 53 -> 0 <= t -> 0 < D ->
  b64_round (m * 2 ^ t * D) D = m * 2 ^ t.
Proof.
  intros Hm Ht HD. unfold b64_round, b64_exp.
  rewrite Z.div_mul by lia.
  pose proof (pow2_pos t Ht) as Hpt.
  set (T := Z.max (Zdigits2 (m * 2 ^ t) - 53) 0).
  assert (HT : 0 <= T <= t).
  { unfold T. destruct (Z.eq_dec m 0) as [-> | Hne]; [cbn; lia |].
    assert (Zdigits2 (m * 2 ^ t) <= 53 + t).
    { apply Zdigits2_le; [nia | lia |].
      rewrite Z.pow_add_r by lia. apply Z.mul_lt_mono_pos_r; lia. }
    lia. }
  pose proof (pow2_pos T ltac:(lia)) as HpT.
  replace (m * 2 ^ t * D) with ((m * 2 ^ (t - T)) * (D * 2 ^ T)).
  - rewrite rne_exact by nia.
    rewrite <- Z.mul_assoc, <- Z.pow_add_r by lia.
    replace (t - T + T) with t by lia. reflexivity.
  - replace (2 ^ t) with (2 ^ (t - T) * 2 ^ T); [ring |].
    rewrite <- Z.pow_add_r by lia. replace (t - T + T) with t by lia. reflexivity.
Qed.

Lemma b64_round_same (A D A' D' : Z) :
  0 <= A -> 0 < D -> 0 < D' -> A * D' = A' * D ->
  b64_round A D = b64_round A' D'.
Proof.
  intros HA HD HD' He.
  assert (0 <= A') by nia.
  apply Z.le_antisymm; apply b64_round_mono; lia.
Qed.

Lemma b64_round_zero (D : Z) : 0 < D -> b64_round 0 D = 0.
Proof.
  intros HD. unfold b64_round, b64_exp. rewrite Z.div_0_l by lia. cbn [Zdigits2].
  change (Z.max (0 - 53) 0) with 0. change (2 ^ 0) with 1.
  rewrite !Z.mul_1_r. unfold rne. cbv zeta. rewrite Z.div_0_l, Z.mod_0_l by lia.
  destruct (Z.ltb_spec (2 * 0) D); [reflexivity | lia].
Qed.

Lemma b64_round_nonneg (A D : Z) : 0 <= A -> 0 < D -> 0 <= b64_round A D.
Proof.
  intros HA HD. unfold b64_round.
  pose proof (pow2_pos _ (b64_exp_nonneg A D)).
  apply Z.mul_nonneg_nonneg; [apply rne_nonneg; nia | lia].
Qed.

Lemma b64_round_rel (A : Z) :
  0 <= A -> 2 ^ 53 * b64_round A 1 <= (2 ^ 53 + 1) * A.
Proof.
  intros HA. unfold b64_round.
  pose proof (b64_exp_nonneg A 1) as HT.
  assert (Hdig : b64_exp A 1 = Z.max (Zdigits2 A - 53) 0)
    by (unfold b64_exp; now rewrite Z.div_1_r).
  set (T := b64_exp A 1) in *.
  pose proof (pow2_pos T HT) as HpT.
  pose proof (rne_bounds A (1 * 2 ^ T) ltac:(lia)) as [_ Hup].
  set (k := rne A (1 * 2 ^ T)) in *. clearbody k.
  destruct (Z.eq_dec T 0) as [HT0 | HT0].
  - rewrite HT0 in *. change (2 ^ 0) with 1 in *. lia.
  - assert (HdA : Zdigits2 A = T + 53) by lia.
    assert (HA0 : 0 < A).
    { destruct (Z.eq_dec A 0) as [-> | Hne]; [cbn in HdA; lia | lia]. }
    pose proof (Zdigits2_bounds A HA0) as [Hlo _].
    rewrite HdA in Hlo. replace (T + 53 - 1) with (T + 52) in Hlo by lia.
    rewrite pow2_split in Hlo by lia.
    clear Hdig HdA. clearbody T.
    change (2 ^ 53) with (2 ^ 52 * 2).
    set (P := 2 ^ T) in *. clearbody P.
    change (2 ^ 52) with 4503599627370496 in *. nia.
Qed.
(** ** The shifts and the location bits of [binary_round_aux] *)

Lemma shr_1_nonneg (m : Z) (r s : bool) :
  0 <= m ->
  shr_1 (Build_shr_record m r s) = Build_shr_record (m / 2) (Z.odd m) (r || s).
Proof.
  intros Hm. rewrite <- Z.div2_div.
  destruct m as [| p | p]; [reflexivity | | lia].
  destruct p; reflexivity.
Qed.

Section Truncation.

(** The numerator of the fraction that is truncated. *)
Variable N : Z.
Hypothesis HN : 0 <= N.

Lemma shr_1_rec_of (D : Z) :
  0 < D -> shr_1 (rec_of N D) = rec_of N (2 * D).
Proof.
  intros HD. unfold rec_of.
  rewrite shr_1_nonneg by (apply Z.div_pos; lia).
  pose proof (Z.mod_pos_bound N D HD) as Hr.
  assert (Hmod : N mod (2 * D) = N mod D + D * ((N / D) mod 2))
    by (rewrite (Z.mul_comm 2 D); apply Z.rem_mul_r; lia).
  rewrite Zmod_odd in Hmod.
  f_equal.
  - rewrite Z.div_div by lia. f_equal. lia.
  - unfold round_bit. rewrite Hmod.
    destruct (Z.odd (N / D)); symmetry; [apply Z.leb_le | apply Z.leb_gt]; lia.
  - unfold round_bit, sticky_bit. rewrite Hmod.
    destruct (Z.odd (N / D));
      destruct (Z.leb_spec D (2 * (N mod D)));
      destruct (Z.eqb_spec (N mod D) 0);
      destruct (Z.eqb_spec (2 * (N mod D)) D);
      cbn [negb andb orb]; symmetry;
      repeat match goal with
      | |- (_ && _)%bool = true => apply andb_true_intro; split
      | |- negb _ = true => apply negb_true_iff
      | |- (_ =? _) = false => apply Z.eqb_neq
      | |- (_ && _)%bool = false => apply andb_false_iff
      end; try lia.
    all: try (left; apply negb_false_iff, Z.eqb_eq; lia).
    all: try (right; apply negb_false_iff, Z.eqb_eq; lia).
Qed.

Lemma iter_pos_shr_1 (p : positive) :
  forall D, 0 < D ->
  iter_pos shr_1 p (rec_of N D) = rec_of N (D * 2 ^ Zpos p).
Proof.
  induction p as [p IH | p IH |]; intros D HD; cbn [iter_pos].
  - rewrite shr_1_rec_of by lia.
    pose proof (pow2_pos (Zpos p) ltac:(lia)).
    rewrite IH by lia. rewrite IH by nia.
    f_equal.
    assert (E : 2 ^ Zpos p~1 = 2 * (2 ^ Zpos p * 2 ^ Zpos p)).
    { rewrite <- Z.pow_twice_r, <- Z.pow_succ_r by lia. f_equal. }
    rewrite E. ring.
  - pose proof (pow2_pos (Zpos p) ltac:(lia)).
    rewrite IH by lia. rewrite IH by nia.
    f_equal.
    assert (E : 2 ^ Zpos p~0 = 2 ^ Zpos p * 2 ^ Zpos p).
    { rewrite <- Z.pow_twice_r. f_equal. }
    rewrite E. ring.
  - rewrite shr_1_rec_of by lia. f_equal. change (2 ^ 1) with 2. ring.
Qed.

Lemma shr_rec_of (D e n : Z) :
  0 < D ->
  shr (rec_of N D) e n = (rec_of N (D * 2 ^ Z.max 0 n), e + Z.max 0 n).
Proof.
  intros HD. destruct n as [| p | p]; cbn [shr].
  - change (Z.max 0 0) with 0. now rewrite Z.mul_1_r, Z.add_0_r.
  - rewrite iter_pos_shr_1 by lia. replace (Z.max 0 (Zpos p)) with (Zpos p) by lia.
    reflexivity.
  - replace (Z.max 0 (Zneg p)) with 0 by lia. now rewrite Z.mul_1_r, Z.add_0_r.
Qed.

End Truncation.

Lemma rec_of_exact (m : Z) : shr_record_of_loc m loc_Exact = rec_of m 1.
Proof.
  unfold rec_of, round_bit, sticky_bit. rewrite Z.div_1_r, Z.mod_1_r. reflexivity.
Qed.

Lemma rec_of_new_location (q r D : Z) :
  0 < D -> 0 <= r < D ->
  shr_record_of_loc q (new_location D r) = rec_of (q * D + r) D.
Proof.
  intros HD Hr. unfold rec_of, round_bit, sticky_bit.
  rewrite Z.div_add_l, Z.div_small, Z.add_0_r by lia.
  rewrite Z.add_comm, Z.mod_add, Z.mod_small by lia.
  unfold new_location.
  destruct (Z.even D) eqn:Hev; unfold new_location_even, new_location_odd.
  - destruct (Z.eqb_spec r 0) as [Hr0 | Hr0].
    + cbn [shr_record_of_loc negb andb]. f_equal. symmetry. apply Z.leb_gt. lia.
    + cbn [negb andb].
      destruct (Z.compare_spec (2 * r) D) as [E | E | E]; cbn [shr_record_of_loc];
        f_equal; symmetry;
        try (apply Z.leb_le; lia); try (apply Z.leb_gt; lia);
        try (apply negb_true_iff, Z.eqb_neq; lia);
        try (apply negb_false_iff, Z.eqb_eq; lia).
  - assert (Hodd : 2 * r <> D).
    { intros E. rewrite <- E, Z.even_mul in Hev. discriminate Hev. }
    destruct (Z.eqb_spec r 0) as [Hr0 | Hr0].
    + cbn [shr_record_of_loc negb andb]. f_equal. symmetry. apply Z.leb_gt. lia.
    + cbn [negb andb].
      destruct (Z.compare_spec (2 * r + 1) D) as [E | E | E]; cbn [shr_record_of_loc];
        f_equal; symmetry;
        try (apply Z.leb_le; lia); try (apply Z.leb_gt; lia);
        try (apply negb_true_iff, Z.eqb_neq; lia).
Qed.

Lemma round_rec_of (N D : Z) :
  0 < D ->
  round_nearest_even (shr_m (rec_of N D)) (loc_of_shr_record (rec_of N D)) = rne N D.
Proof.
  intros HD. unfold rec_of, round_bit, sticky_bit, rne. cbv zeta.
  cbn [shr_m loc_of_shr_record].
  pose proof (Z.mod_pos_bound N D HD) as Hr.
  destruct (Z.leb_spec D (2 * (N mod D))) as [H1 | H1];
    destruct (Z.eqb_spec (N mod D) 0) as [H2 | H2];
    destruct (Z.eqb_spec (2 * (N mod D)) D) as [H3 | H3];
    destruct (Z.ltb_spec (2 * (N mod D)) D) as [H4 | H4];
    destruct (Z.ltb_spec D (2 * (N mod D))) as [H5 | H5];
    cbn [negb andb round_nearest_even]; try lia; reflexivity.
Qed.

(** ** [binary_round_aux] at precision 53 *)

Lemma nonneg_num_finite (m : positive) (e : Z) :
  -1074 <= e -> Zpos m * 2 ^ (e + 1074) < INF ->
  nonneg_num (S754_finite false m e) = true.
Proof.
  intros He Hlt. cbn [nonneg_num]. apply andb_true_intro. split.
  - apply Z.leb_le. exact He.
  - apply Z.ltb_lt. exact Hlt.
Qed.

Lemma fexp_eq (e : Z) : fexp 53 1024 e = Z.max (e - 53) (-1074).
Proof. reflexivity. Qed.

Lemma shr_m_of_loc (m : Z) (l : location) : shr_m (shr_record_of_loc m l) = m.
Proof. destruct l as [| []]; reflexivity. Qed.

Lemma bra_unfold (sx : bool) (N D e m : Z) (l : location) :
  0 <= N -> 0 < D -> shr_record_of_loc m l = rec_of N D ->
  binary_round_aux 53 1024 sx m e l =
    let n := Z.max 0 (fexp 53 1024 (Zdigits2 (N / D) + e) - e) in
    let E := e + n in
    let k := rne N (D * 2 ^ n) in
    let n2 := Z.max 0 (fexp 53 1024 (Zdigits2 k + E) - E) in
    match k / 2 ^ n2 with
    | Z0 => S754_zero sx
    | Zpos m' => if E + n2 <=? 1024 - 53 then S754_finite sx m' (E + n2)
                 else S754_infinity sx
    | Zneg _ => S754_nan
    end.
Proof.
  intros HN HD Hrec.
  assert (Hm : m = N / D).
  { rewrite <- (shr_m_of_loc m l), Hrec. reflexivity. }
  unfold binary_round_aux, shr_fexp. rewrite Hrec, Hm.
  rewrite shr_rec_of by lia. cbv zeta iota beta.
  set (n := Z.max 0 (fexp 53 1024 (Zdigits2 (N / D) + e) - e)).
  assert (Hn : 0 <= n) by (unfold n; lia).
  pose proof (pow2_pos n Hn) as Hpn.
  rewrite round_rec_of by nia.
  set (k := rne N (D * 2 ^ n)).
  assert (Hk : 0 <= k) by (apply rne_nonneg; nia).
  rewrite rec_of_exact, shr_rec_of by lia.
  cbn [shr_m rec_of]. rewrite Z.mul_1_l. reflexivity.
Qed.

(** A finite number whose exponent is the one of its digits is well formed. *)
Lemma valid_of_digits (m : positive) (e : Z) :
  fexp 53 1024 (Zdigits2 (Zpos m) + e) = e -> e <= 971 ->
  valid_binary 53 1024 (S754_finite false m e) = true.
Proof.
  intros Hc He. cbn [valid_binary]. unfold bounded, canonical_mantissa.
  change (Zpos (digits2_pos m)) with (Zdigits2 (Zpos m)).
  rewrite Hc, Z.eqb_refl. apply Z.leb_le. lia.
Qed.

Theorem bra_value (N D e m : Z) (l : location) :
  0 <= N -> 0 < D -> shr_record_of_loc m l = rec_of N D ->
  e <= fexp 53 1024 (Zdigits2 (N / D) + e) ->
  let E := fexp 53 1024 (Zdigits2 (N / D) + e) in
  let k := rne N (D * 2 ^ (E - e)) in
  let R := binary_round_aux 53 1024 false m e l in
  valid_binary 53 1024 R = true /\ nonneg_num R = true /\
  ulps R = Z.min INF (k * 2 ^ (E + 1074)).
Proof.
  intros HN HD Hrec HP E k R.
  unfold R. rewrite (bra_unfold false N D e m l HN HD Hrec). cbv zeta.
  fold E. replace (Z.max 0 (E - e)) with (E - e) by lia.
  replace (e + (E - e)) with E by lia. fold k.
  set (q0 := N / D) in *. set (d := Zdigits2 q0) in *.
  assert (Hq0 : 0 <= q0) by (apply Z.div_pos; lia).
  assert (Hd : 0 <= d) by apply Zdigits2_nonneg.
  assert (HE : E = Z.max (d + e - 53) (-1074)) by reflexivity.
  change (e <= E) in HP.
  clearbody E.
  assert (Hup : q0 < 2 ^ d) by (apply Zdigits2_upper; exact Hq0).
  assert (Hlow : 0 < q0 -> 2 ^ (d - 1) <= q0) by (intros Hp; apply Zdigits2_bounds; exact Hp).
  assert (Hd0 : q0 = 0 -> d = 0) by (intros Hz; unfold d; rewrite Hz; reflexivity).
  assert (Hn : 0 <= E - e) by lia.
  pose proof (pow2_pos (E - e) Hn) as Hpn.
  assert (HDn : 0 < D * 2 ^ (E - e)) by nia.
  assert (Hk0 : 0 <= k) by (apply rne_nonneg; lia).
  assert (HNlt : N < (q0 + 1) * D).
  { unfold q0. pose proof (Z.div_mod N D ltac:(lia)).
    pose proof (Z.mod_pos_bound N D HD). nia. }
  assert (HNge : q0 * D <= N) by (unfold q0; pose proof (Z.mul_div_le N D HD); lia).
  assert (Hk53 : k <= 2 ^ 53).
  { apply rne_le; [exact HDn |].
    pose proof (pow2_le d (53 + (E - e)) ltac:(lia)) as Hp.
    rewrite pow2_split in Hp by lia.
    assert ((q0 + 1) * D <= 2 ^ 53 * 2 ^ (E - e) * D)
      by (apply Z.mul_le_mono_nonneg_r; lia).
    replace (2 ^ 53 * (D * 2 ^ (E - e))) with (2 ^ 53 * 2 ^ (E - e) * D) by ring.
    lia. }
  assert (Hk52 : -1074 < E -> 2 ^ 52 <= k).
  { intros HEn. apply rne_ge; [exact HDn |].
    assert (Hdd : d = 53 + (E - e)) by lia.
    assert (Hq0p : 0 < q0).
    { destruct (Z.eq_dec q0 0) as [Hz | Hz]; [| lia]. specialize (Hd0 Hz). lia. }
    pose proof (Hlow Hq0p) as Hlo.
    rewrite Hdd in Hlo. replace (53 + (E - e) - 1) with (52 + (E - e)) in Hlo by lia.
    rewrite pow2_split in Hlo by lia.
    assert (2 ^ 52 * 2 ^ (E - e) * D <= q0 * D)
      by (apply Z.mul_le_mono_nonneg_r; lia).
    replace (2 ^ 52 * (D * 2 ^ (E - e))) with (2 ^ 52 * 2 ^ (E - e) * D) by ring.
    lia. }
  clearbody k.
  assert (HE74 : 0 <= E + 1074) by lia.
  pose proof (pow2_pos (E + 1074) HE74) as HpE.
  destruct (Z.eq_dec k (2 ^ 53)) as [Hk | Hk].
  - (* the rounding carried into the next binade *)
    subst k. change (Zdigits2 (2 ^ 53)) with 54.
    replace (Z.max 0 (fexp 53 1024 (54 + E) - E)) with 1
      by (rewrite fexp_eq; lia).
    change (2 ^ 53 / 2 ^ 1) with (Zpos (2 ^ 52)).
    destruct (Z.leb_spec (E + 1) (1024 - 53)) as [Hfin | Hinf].
    + assert (Hval : Zpos (2 ^ 52) * 2 ^ (E + 1 + 1074) = 2 ^ 53 * 2 ^ (E + 1074)).
      { replace (E + 1 + 1074) with (1 + (E + 1074)) by lia.
        rewrite (pow2_split 1 (E + 1074)) by lia.
        change (Zpos (2 ^ 52)) with (2 ^ 52). change (2 ^ 53) with (2 ^ 52 * 2 ^ 1). ring. }
      assert (Hlt : 2 ^ 53 * 2 ^ (E + 1074) < INF).
      { pose proof (pow2_le (53 + (E + 1074)) 2097 ltac:(lia)) as Hp.
        rewrite pow2_split in Hp by lia.
        assert (2 ^ 2097 < INF) by reflexivity. lia. }
      split; [apply valid_of_digits; [| lia];
              change (Zdigits2 (Zpos (2 ^ 52))) with 53; rewrite fexp_eq; lia |].
      split; [apply nonneg_num_finite; lia |].
      cbn [ulps]. lia.
    + split; [reflexivity |]. split; [reflexivity |]. cbn [ulps].
      pose proof (pow2_le 2098 (53 + (E + 1074)) ltac:(lia)) as Hp.
      rewrite pow2_split in Hp by lia. fold INF in Hp. lia.
  - assert (Hdk : Zdigits2 k <= 53) by (apply Zdigits2_le; lia).
    pose proof (Zdigits2_nonneg k).
    replace (Z.max 0 (fexp 53 1024 (Zdigits2 k + E) - E)) with 0
      by (rewrite fexp_eq; lia).
    change (2 ^ 0) with 1. rewrite Z.div_1_r, Z.add_0_r.
    destruct k as [| pk | pk]; [| | lia].
    + split; [reflexivity |]. split; [reflexivity |]. cbn [ulps]. unfold INF. lia.
    + destruct (Z.leb_spec E (1024 - 53)) as [Hfin | Hinf].
      * pose proof (pow2_le (53 + (E + 1074)) 2098 ltac:(lia)) as Hp.
        rewrite pow2_split in Hp by lia. fold INF in Hp.
        assert (Zpos pk * 2 ^ (E + 1074) < 2 ^ 53 * 2 ^ (E + 1074))
          by (apply Z.mul_lt_mono_pos_r; lia).
        split.
        { apply valid_of_digits; [| lia]. rewrite fexp_eq.
          destruct (Z.eq_dec E (-1074)) as [HEq | HEq]; [lia |].
          specialize (Hk52 ltac:(lia)).
          assert (53 <= Zdigits2 (Zpos pk))
            by (change 53 with (52 + 1); apply Zdigits2_ge; lia).
          lia. }
        split; [apply nonneg_num_finite; lia |].
        cbn [ulps]. lia.
      * split; [reflexivity |]. split; [reflexivity |]. cbn [ulps].
        specialize (Hk52 ltac:(lia)).
        pose proof (pow2_le 2098 (52 + (E + 1074)) ltac:(lia)) as Hp.
        rewrite pow2_split in Hp by lia. fold INF in Hp.
        assert (2 ^ 52 * 2 ^ (E + 1074) <= Zpos pk * 2 ^ (E + 1074))
          by (apply Z.mul_le_mono_nonneg_r; lia).
        lia.
Qed.

Lemma b64_exp_of_fexp (N D e : Z) :
  0 <= N -> 0 < D ->
  e <= fexp 53 1024 (Zdigits2 (N / D) + e) ->
  b64_exp (ulps_num N e) (ulps_den D e) = fexp 53 1024 (Zdigits2 (N / D) + e) + 1074.
Proof.
  intros HN HD HP. rewrite fexp_eq in *.
  unfold b64_exp, ulps_num, ulps_den.
  set (q0 := N / D) in *. set (d := Zdigits2 q0) in *.
  assert (Hq0 : 0 <= q0) by (apply Z.div_pos; lia).
  assert (Hd : 0 <= d) by apply Zdigits2_nonneg.
  assert (Hup : q0 < 2 ^ d) by (apply Zdigits2_upper; exact Hq0).
  assert (Hlow : 0 < q0 -> 2 ^ (d - 1) <= q0) by (intros Hp; apply Zdigits2_bounds; exact Hp).
  assert (Hd0 : q0 = 0 -> d = 0) by (intros Hz; unfold d; rewrite Hz; reflexivity).
  assert (HNlt : N < (q0 + 1) * D).
  { unfold q0. pose proof (Z.div_mod N D ltac:(lia)).
    pose proof (Z.mod_pos_bound N D HD). nia. }
  assert (HNge : q0 * D <= N) by (unfold q0; pose proof (Z.mul_div_le N D HD); lia).
  clearbody d q0.
  set (j := e + 1074) in *.
  set (X := (N * 2 ^ Z.max 0 j) / (D * 2 ^ Z.max 0 (- j))).
  pose proof (pow2_pos (Z.max 0 j) ltac:(lia)) as Hpj.
  pose proof (pow2_pos (Z.max 0 (- j)) ltac:(lia)) as Hpnj.
  assert (HDen : 0 < D * 2 ^ Z.max 0 (- j)) by nia.
  assert (HX0 : 0 <= X) by (apply Z.div_pos; nia).
  (* the truncation has at most max (d + j) 0 bits *)
  assert (Hupper : X < 2 ^ Z.max (d + j) 0).
  { apply Z.div_lt_upper_bound; [exact HDen |].
    assert (Hlt : N < 2 ^ d * D).
    { assert ((q0 + 1) * D <= 2 ^ d * D) by (apply Z.mul_le_mono_nonneg_r; lia). lia. }
    destruct (Z.le_gt_cases 0 j) as [Hj | Hj].
    - replace (Z.max 0 (- j)) with 0 by lia. replace (Z.max 0 j) with j by lia.
      replace (Z.max (d + j) 0) with (d + j) by lia.
      rewrite pow2_split by lia. change (2 ^ 0) with 1.
      assert (N * 2 ^ j < 2 ^ d * D * 2 ^ j) by (apply Z.mul_lt_mono_pos_r; lia).
      replace (D * 1 * (2 ^ d * 2 ^ j)) with (2 ^ d * D * 2 ^ j) by ring. lia.
    - replace (Z.max 0 (- j)) with (- j) by lia. replace (Z.max 0 j) with 0 by lia.
      change (2 ^ 0) with 1. rewrite Z.mul_1_r.
      destruct (Z.le_gt_cases 0 (d + j)) as [Hdj | Hdj].
      + replace (Z.max (d + j) 0) with (d + j) by lia.
        replace (D * 2 ^ (- j) * 2 ^ (d + j)) with (2 ^ (d + j) * 2 ^ (- j) * D) by ring.
        rewrite <- pow2_split by lia. replace (d + j + - j) with d by lia. exact Hlt.
      + replace (Z.max (d + j) 0) with 0 by lia. change (2 ^ 0) with 1.
        pose proof (pow2_le d (- j) ltac:(lia)).
        assert (2 ^ d * D <= 2 ^ (- j) * D) by (apply Z.mul_le_mono_nonneg_r; lia).
        lia. }
  assert (Hdig_le : Zdigits2 X <= Z.max (d + j) 0) by (apply Zdigits2_le; lia).
  (* and, in the normal range, exactly d + j bits *)
  assert (Hdig_ge : 54 <= d + j -> d + j <= Zdigits2 X).
  { intros Hbig.
    assert (Hq0p : 0 < q0).
    { destruct (Z.eq_dec q0 0) as [Hz | Hz]; [| lia]. specialize (Hd0 Hz). lia. }
    specialize (Hlow Hq0p).
    replace (d + j) with (d + j - 1 + 1) by lia.
    apply Zdigits2_ge; [lia |].
    apply Z.div_le_lower_bound; [exact HDen |].
    assert (Hge : 2 ^ (d - 1) * D <= N).
    { assert (2 ^ (d - 1) * D <= q0 * D) by (apply Z.mul_le_mono_nonneg_r; lia). lia. }
    destruct (Z.le_gt_cases 0 j) as [Hj | Hj].
    - replace (Z.max 0 (- j)) with 0 by lia. replace (Z.max 0 j) with j by lia.
      change (2 ^ 0) with 1.
      replace (d + j - 1) with (d - 1 + j) by lia. rewrite pow2_split by lia.
      assert (2 ^ (d - 1) * D * 2 ^ j <= N * 2 ^ j) by (apply Z.mul_le_mono_nonneg_r; lia).
      replace (D * 1 * (2 ^ (d - 1) * 2 ^ j)) with (2 ^ (d - 1) * D * 2 ^ j) by ring. lia.
    - replace (Z.max 0 (- j)) with (- j) by lia. replace (Z.max 0 j) with 0 by lia.
      change (2 ^ 0) with 1. rewrite Z.mul_1_r.
      replace (D * 2 ^ (- j) * 2 ^ (d + j - 1)) with (2 ^ (d + j - 1) * 2 ^ (- j) * D) by ring.
      rewrite <- pow2_split by lia. replace (d + j - 1 + - j) with (d - 1) by lia.
      exact Hge. }
  fold X. unfold j in *. lia.
Qed.

Theorem bra_b64 (N D e m : Z) (l : location) :
  0 <= N -> 0 < D -> shr_record_of_loc m l = rec_of N D ->
  e <= fexp 53 1024 (Zdigits2 (N / D) + e) ->
  let R := binary_round_aux 53 1024 false m e l in
  valid_binary 53 1024 R = true /\ nonneg_num R = true /\
  ulps R = Z.min INF (b64_round (ulps_num N e) (ulps_den D e)).
Proof.
  intros HN HD Hrec HP R.
  destruct (bra_value N D e m l HN HD Hrec HP) as (Hwf & Hnn & Hval).
  split; [exact Hwf |]. split; [exact Hnn |]. unfold R. rewrite Hval. f_equal.
  unfold b64_round. rewrite (b64_exp_of_fexp N D e HN HD HP).
  set (E := fexp 53 1024 (Zdigits2 (N / D) + e)) in *.
  assert (HE : -1074 <= E) by (unfold E; rewrite fexp_eq; lia).
  f_equal. unfold ulps_num, ulps_den.
  set (j := e + 1074).
  pose proof (pow2_pos (Z.max 0 j) ltac:(lia)).
  pose proof (pow2_pos (Z.max 0 (- j)) ltac:(lia)).
  pose proof (pow2_pos (E - e) ltac:(lia)).
  pose proof (pow2_pos (E + 1074) ltac:(lia)).
  apply rne_same; [nia | nia |].
  assert (Hpow : 2 ^ Z.max 0 (- j) * 2 ^ (E + 1074) = 2 ^ Z.max 0 j * 2 ^ (E - e)).
  { rewrite <- !pow2_split by lia. f_equal. unfold j. lia. }
  replace (N * (D * 2 ^ Z.max 0 (- j) * 2 ^ (E + 1074)))
    with (N * D * (2 ^ Z.max 0 (- j) * 2 ^ (E + 1074))) by ring.
  rewrite Hpow. ring.
Qed.

(** ** Multiplication and division of non-negative numbers *)

Lemma valid_finite (m : positive) (e : Z) :
  valid_binary 53 1024 (S754_finite false m e) = true ->
  -1074 <= e <= 971 /\ Zpos m < 2 ^ 53 /\
  (e = -1074 \/ 2 ^ 52 <= Zpos m).
Proof.
  cbn [valid_binary]. unfold bounded, canonical_mantissa. intros H.
  apply andb_prop in H as [Hc Hb]. apply Z.eqb_eq in Hc. apply Z.leb_le in Hb.
  rewrite fexp_eq in Hc. change (1024 - 53) with 971 in Hb.
  change (Z.pos (digits2_pos m)) with (Zdigits2 (Zpos m)) in Hc.
  pose proof (Zdigits2_bounds (Zpos m) ltac:(lia)) as [Hlo Hhi].
  pose proof (Zdigits2_nonneg (Zpos m)) as Hd0.
  set (d := Zdigits2 (Zpos m)) in *. clearbody d.
  assert (d <= 53) by lia.
  split; [lia |]. split.
  - pose proof (pow2_le d 53 ltac:(lia)). lia.
  - destruct (Z.eq_dec e (-1074)) as [He | He]; [left; exact He | right].
    assert (d = 53) by lia. subst d. exact Hlo.
Qed.

Theorem mul_b64 (mx : positive) (ex : Z) (mc : positive) (ec : Z) :
  valid_binary 53 1024 (S754_finite false mx ex) = true -> ec <= 0 ->
  let R := SFmul 53 1024 (S754_finite false mx ex) (S754_finite false mc ec) in
  nonneg_num R = true /\
  ulps R = Z.min INF (b64_round (Zpos mx * 2 ^ (ex + 1074) * Zpos mc) (2 ^ (- ec))).
Proof.
  intros Hv Hec R. destruct (valid_finite mx ex Hv) as (Hex & Hm53 & Hnorm).
  unfold R. cbn [SFmul xorb].
  set (N := Zpos (mx * mc)). set (e := ex + ec).
  assert (HN : N = Zpos mx * Zpos mc) by reflexivity.
  assert (HN0 : 0 <= N) by lia.
  assert (HP : e <= fexp 53 1024 (Zdigits2 (N / 1) + e)).
  { rewrite Z.div_1_r, fexp_eq. destruct Hnorm as [He | Hbig]; [unfold e; lia |].
    assert (53 <= Zdigits2 N).
    { change 53 with (52 + 1). apply Zdigits2_ge; [lia |]. nia. }
    lia. }
  destruct (bra_b64 N 1 e N loc_Exact HN0 ltac:(lia) (rec_of_exact N) HP) as (_ & Hnn & Hval).
  split; [exact Hnn |]. rewrite Hval. f_equal.
  unfold ulps_num, ulps_den. set (j := e + 1074).
  pose proof (pow2_pos (Z.max 0 j) ltac:(lia)).
  pose proof (pow2_pos (Z.max 0 (- j)) ltac:(lia)).
  pose proof (pow2_pos (- ec) ltac:(lia)).
  pose proof (pow2_pos (ex + 1074) ltac:(lia)).
  apply b64_round_same; [nia | nia | lia |].
  assert (Hpow : 2 ^ Z.max 0 j * 2 ^ (- ec) = 2 ^ (ex + 1074) * 2 ^ Z.max 0 (- j)).
  { rewrite <- !pow2_split by lia. f_equal. unfold j, e. lia. }
  rewrite HN.
  replace (Zpos mx * Zpos mc * 2 ^ Z.max 0 j * 2 ^ (- ec))
    with (Zpos mx * Zpos mc * (2 ^ Z.max 0 j * 2 ^ (- ec))) by ring.
  rewrite Hpow. ring.
Qed.

Lemma div_eucl_div_mod (a b : Z) : Z.div_eucl a b = (a / b, a mod b).
Proof. unfold Z.div, Z.modulo. now destruct (Z.div_eucl a b). Qed.

Theorem div_b64 (mp : positive) (ep : Z) (md : positive) (ed : Z) :
  -1074 <= ep -> ed <= 0 ->
  let R := SFdiv 53 1024 (S754_finite false mp ep) (S754_finite false md ed) in
  nonneg_num R = true /\
  ulps R = Z.min INF (b64_round (Zpos mp * 2 ^ (ep + 1074) * 2 ^ (- ed)) (Zpos md)).
Proof.
  intros Hep Hed R. unfold R. cbn [SFdiv xorb]. unfold SFdiv_core_binary. cbv zeta.
  set (d1 := Zdigits2 (Zpos mp)). set (d2 := Zdigits2 (Zpos md)).
  set (e' := Z.min (fexp 53 1024 (d1 + ep - (d2 + ed))) (ep - ed)).
  set (s := ep - ed - e').
  assert (Hs : 0 <= s) by (unfold s, e'; lia).
  pose proof (pow2_pos s Hs) as Hps.
  set (m' := match s with
             | 0 => Zpos mp
             | Zpos _ => Z.shiftl (Zpos mp) s
             | Zneg _ => 0
             end).
  assert (Hm' : m' = Zpos mp * 2 ^ s).
  { unfold m'. destruct s as [| ps | ps]; [change (2 ^ 0) with 1; lia | | lia].
    apply Z.shiftl_mul_pow2. lia. }
  clearbody m'. rewrite div_eucl_div_mod.
  assert (Hm0 : 0 <= m') by nia.
  pose proof (Z.mod_pos_bound m' (Zpos md) ltac:(lia)) as Hr.
  assert (Hrec : shr_record_of_loc (m' / Zpos md) (new_location (Zpos md) (m' mod Zpos md))
                 = rec_of m' (Zpos md)).
  { rewrite rec_of_new_location by lia. f_equal.
    pose proof (Z.div_mod m' (Zpos md) ltac:(lia)). lia. }
  assert (Hd1 : 2 ^ (d1 - 1) <= Zpos mp < 2 ^ d1) by (apply Zdigits2_bounds; lia).
  assert (Hd2 : 2 ^ (d2 - 1) <= Zpos md < 2 ^ d2) by (apply Zdigits2_bounds; lia).
  assert (Hd1p : 1 <= d1) by (unfold d1; cbn; lia).
  assert (Hd2p : 1 <= d2) by (unfold d2; cbn; lia).
  assert (HE' : e' = Z.min (Z.max (d1 + ep - (d2 + ed) - 53) (-1074)) (ep - ed))
    by reflexivity.
  clearbody e' d1 d2.
  assert (HP : e' <= fexp 53 1024 (Zdigits2 (m' / Zpos md) + e')).
  { rewrite fexp_eq. destruct (Z.le_gt_cases e' (-1074)) as [Hlow | Hhigh]; [lia |].
    assert (Hsbig : 53 + d2 <= d1 + s) by (unfold s; lia).
    assert (53 <= Zdigits2 (m' / Zpos md)); [| lia].
    change 53 with (52 + 1). apply Zdigits2_ge; [lia |].
    apply Z.div_le_lower_bound; [lia |].
    pose proof (pow2_le (d2 + 52) (d1 - 1 + s) ltac:(lia)) as Hp.
    rewrite !pow2_split in Hp by lia.
    assert (Zpos md * 2 ^ 52 <= 2 ^ d2 * 2 ^ 52) by (apply Z.mul_le_mono_nonneg_r; lia).
    assert (2 ^ (d1 - 1) * 2 ^ s <= Zpos mp * 2 ^ s) by (apply Z.mul_le_mono_nonneg_r; lia).
    lia. }
  destruct (bra_b64 m' (Zpos md) e' _ _ Hm0 ltac:(lia) Hrec HP) as (_ & Hnn & Hval).
  split; [exact Hnn |]. rewrite Hval. f_equal.
  unfold ulps_num, ulps_den. set (j := e' + 1074).
  pose proof (pow2_pos (Z.max 0 j) ltac:(lia)).
  pose proof (pow2_pos (Z.max 0 (- j)) ltac:(lia)).
  pose proof (pow2_pos (- ed) ltac:(lia)).
  pose proof (pow2_pos (ep + 1074) ltac:(lia)).
  apply b64_round_same; [nia | nia | lia |].
  assert (Hpow : 2 ^ s * 2 ^ Z.max 0 j = 2 ^ (ep + 1074) * 2 ^ (- ed) * 2 ^ Z.max 0 (- j)).
  { rewrite <- !pow2_split by lia. f_equal. unfold j, s. lia. }
  rewrite Hm'.
  replace (Zpos mp * 2 ^ s * 2 ^ Z.max 0 j * Zpos md)
    with (Zpos mp * (2 ^ s * 2 ^ Z.max 0 j) * Zpos md) by ring.
  rewrite Hpow. ring.
Qed.

(** ** The quote on values in units of 2^-1074 *)

Lemma at_least_1e21_ulps (m : positive) (e : Z) :
  -1074 <= e ->
  at_least_1e21 m e = (10 ^ 21 * 2 ^ 1074 <=? Zpos m * 2 ^ (e + 1074)).
Proof.
  intros He. unfold at_least_1e21.
  destruct e as [| p | p].
  - change (2 ^ 0) with 1. rewrite Z.mul_1_r. change (0 + 1074) with 1074.
    apply eq_true_iff_eq. rewrite !Z.leb_le.
    pose proof (pow2_pos 1074 ltac:(lia)). nia.
  - rewrite pow2_split by lia.
    apply eq_true_iff_eq. rewrite !Z.leb_le.
    pose proof (pow2_pos 1074 ltac:(lia)). pose proof (pow2_pos (Zpos p) ltac:(lia)). nia.
  - assert (Hs : 2 ^ 1074 = 2 ^ Zpos p * 2 ^ (Zneg p + 1074)).
    { rewrite <- pow2_split by lia. f_equal. lia. }
    apply eq_true_iff_eq. rewrite !Z.leb_le. rewrite Hs.
    pose proof (pow2_pos (Zneg p + 1074) ltac:(lia)). pose proof (pow2_pos (Zpos p) ltac:(lia)).
    nia.
Qed.

Lemma nearest_scaled_ulps (m : positive) (e : Z) :
  -1074 <= e ->
  nearest_scaled m e 18 = (2 * (Zpos m * 2 ^ (e + 1074)) * 10 ^ 18 + 2 ^ 1074) / 2 ^ 1075.
Proof.
  intros He. unfold nearest_scaled. change (Z.of_nat 18) with 18.
  assert (H75 : 2 ^ 1075 = 2 * 2 ^ 1074) by reflexivity.
  destruct e as [| p | p].
  - change (0 + 1074) with 1074. change (2 ^ 0) with 1. rewrite Z.mul_1_r.
    set (M := Zpos m * 10 ^ 18).
    replace (2 * (Zpos m * 2 ^ 1074) * 10 ^ 18 + 2 ^ 1074) with ((2 * M + 1) * 2 ^ 1074)
      by (unfold M; ring).
    rewrite H75, Z.div_mul_cancel_r by (try apply Z.pow_nonzero; lia).
    apply Z.div_unique with (r := 1); lia.
  - rewrite pow2_split by lia.
    set (M := Zpos m * 2 ^ Zpos p * 10 ^ 18).
    replace (2 * (Zpos m * (2 ^ Zpos p * 2 ^ 1074)) * 10 ^ 18 + 2 ^ 1074)
      with ((2 * M + 1) * 2 ^ 1074) by (unfold M; ring).
    rewrite H75, Z.div_mul_cancel_r by (try apply Z.pow_nonzero; lia).
    apply Z.div_unique with (r := 1); lia.
  - set (t := Zneg p + 1074). assert (Ht : 0 <= t) by (unfold t; lia).
    assert (H1 : 2 ^ 1074 = 2 ^ Zpos p * 2 ^ t).
    { rewrite <- pow2_split by lia. f_equal. unfold t. lia. }
    assert (H2 : 2 ^ 1075 = 2 ^ (Zpos p + 1) * 2 ^ t).
    { rewrite <- pow2_split by lia. f_equal. unfold t. lia. }
    rewrite H2, H1.
    replace (2 * (Zpos m * 2 ^ t) * 10 ^ 18 + 2 ^ Zpos p * 2 ^ t)
      with ((2 * Zpos m * 10 ^ 18 + 2 ^ Zpos p) * 2 ^ t) by ring.
    rewrite Z.div_mul_cancel_r; [reflexivity | |];
      apply Z.pow_nonzero; lia.
Qed.

Theorem parse_toFixed_ulps (q : number) :
  nonneg_num q = true ->
  parseUnits (toFixed q 18) 18 = fixed_of_ulps (ulps q).
Proof.
  destruct q as [s | [] | | [] m e]; try discriminate; intros Hq.
  - destruct s; vm_compute; reflexivity.
  - vm_compute. reflexivity.
  - cbn [nonneg_num] in Hq. apply andb_prop in Hq as [Hq _]. apply Z.leb_le in Hq.
    cbn [toFixed ulps]. unfold fixed_of_ulps.
    rewrite at_least_1e21_ulps by exact Hq.
    destruct (Z.leb_spec (10 ^ 21 * 2 ^ 1074) (Zpos m * 2 ^ (e + 1074))) as [Hbig | Hsmall];
      [reflexivity |].
    cbn [parseUnits]. rewrite list_ascii_of_string_of_list_ascii.
    rewrite nearest_scaled_ulps by exact Hq.
    apply parseUnits_fixed_digits; [| lia].
    apply Z.div_pos; [| reflexivity].
    pose proof (pow2_pos (e + 1074) ltac:(lia)). nia.
Qed.

Lemma stage_mul_zero (C : Z) : stage_mul C 0 = 0.
Proof.
  unfold stage_mul. rewrite Z.mul_0_l, b64_round_zero by (apply pow2_pos; lia).
  reflexivity.
Qed.

Lemma stage_mul_by_zero (U : Z) : stage_mul 0 U = 0.
Proof.
  unfold stage_mul. rewrite Z.mul_0_r, b64_round_zero by (apply pow2_pos; lia).
  reflexivity.
Qed.

Lemma stage_div_zero : stage_div 0 = 0.
Proof. unfold stage_div. rewrite b64_round_zero by lia. reflexivity. Qed.

Lemma div_by_100 (p : number) :
  nonneg_num p = true ->
  nonneg_num (div p (of_Z 100)) = true /\
  ulps (div p (of_Z 100)) = stage_div (ulps p).
Proof.
  change (of_Z 100) with (S754_finite false 7036874417766400 (-46)).
  destruct p as [s | [] | | [] mp ep]; try discriminate; intros Hp.
  - split; [reflexivity |]. cbn [ulps]. now rewrite stage_div_zero.
  - split; reflexivity.
  - cbn [nonneg_num] in Hp. apply andb_prop in Hp as [He Hlt].
    apply Z.leb_le in He. apply Z.ltb_lt in Hlt.
    destruct (div_b64 mp ep 7036874417766400 (-46) He ltac:(lia)) as [Hnn Hval].
    split; [exact Hnn |]. unfold div, prec, emax. rewrite Hval.
    cbn [ulps]. unfold stage_div.
    destruct (Z.leb_spec INF (Zpos mp * 2 ^ (ep + 1074))) as [Hc | _]; [lia |].
    f_equal. pose proof (pow2_pos (ep + 1074) ltac:(lia)).
    apply b64_round_same; [| lia | lia |].
    + change (- -46) with 46. nia.
    + change (Zpos 7036874417766400) with (100 * 2 ^ 46). change (- -46) with 46. ring.
Qed.

(** ** Order *)

Lemma INF_pos : 0 < INF.
Proof. reflexivity. Qed.

Lemma stage_mul_nonneg (C U : Z) : 0 <= C -> 0 <= U -> 0 <= stage_mul C U.
Proof.
  intros HC HU. unfold stage_mul. pose proof INF_pos.
  pose proof (b64_round_nonneg (U * C) (2 ^ 1074) ltac:(nia) (pow2_pos 1074 ltac:(lia))).
  lia.
Qed.

Lemma stage_mul_mono (C1 C2 U1 U2 : Z) :
  0 <= C1 <= C2 -> 0 <= U1 <= U2 -> stage_mul C1 U1 <= stage_mul C2 U2.
Proof.
  intros HC HU. unfold stage_mul.
  pose proof (pow2_pos 1074 ltac:(lia)) as HP.
  assert (b64_round (U1 * C1) (2 ^ 1074) <= b64_round (U2 * C2) (2 ^ 1074)).
  { apply b64_round_mono; [nia | exact HP | exact HP |].
    apply Z.mul_le_mono_nonneg_r; [lia | nia]. }
  lia.
Qed.

Lemma stage_div_nonneg (U : Z) : 0 <= U -> 0 <= stage_div U.
Proof.
  intros HU. unfold stage_div. pose proof INF_pos.
  pose proof (b64_round_nonneg U 100 HU ltac:(lia)).
  destruct (INF <=? U); lia.
Qed.

Lemma stage_div_mono (U1 U2 : Z) : 0 <= U1 <= U2 -> stage_div U1 <= stage_div U2.
Proof.
  intros HU. unfold stage_div.
  destruct (Z.leb_spec INF U1), (Z.leb_spec INF U2); try lia.
  apply Z.min_le_compat_l, b64_round_mono; lia.
Qed.

Lemma ulps_100 : ulps (of_Z 100) = 100 * 2 ^ 1074.
Proof. vm_compute. reflexivity. Qed.

Lemma factor_ulps_le (S : Z) : 0 <= S <= 100 * 2 ^ 1074 -> 0 <= factor_ulps S <= 100 * 2 ^ 1074.
Proof.
  intros HS. unfold factor_ulps. split.
  - apply b64_round_nonneg; lia.
  - rewrite <- (b64_round_exact 100 1074 1) at 2 by lia.
    apply b64_round_mono; lia.
Qed.

Lemma stage_mul_whole (c U : Z) :
  0 <= c -> 0 <= U -> stage_mul (c * 2 ^ 1074) U = Z.min INF (b64_round (U * c) 1).
Proof.
  intros Hc HU. unfold stage_mul. f_equal.
  pose proof (pow2_pos 1074 ltac:(lia)) as HP.
  apply b64_round_same; [nia | exact HP | lia | ring].
Qed.

Lemma factor_ulps_mono (S1 S2 : Z) :
  S1 <= S2 <= 100 * 2 ^ 1074 -> factor_ulps S2 <= factor_ulps S1.
Proof. intros HS. unfold factor_ulps. apply b64_round_mono; lia. Qed.

Lemma factor_ulps_whole (k : Z) :
  0 <= k <= 100 -> factor_ulps (k * 2 ^ 1074) = (100 - k) * 2 ^ 1074.
Proof.
  intros Hk. unfold factor_ulps.
  replace (100 * 2 ^ 1074 - k * 2 ^ 1074) with ((100 - k) * 2 ^ 1074 * 1) by ring.
  apply b64_round_exact; lia.
Qed.

Lemma quote_ulps_mono (S1 S2 U1 U2 : Z) :
  0 <= S2 <= S1 -> S1 <= 100 * 2 ^ 1074 -> 0 <= U1 <= U2 ->
  quote_ulps S1 U1 <= quote_ulps S2 U2.
Proof.
  intros HS HS1 HU. unfold quote_ulps.
  pose proof (factor_ulps_le S1 ltac:(lia)).
  pose proof (factor_ulps_mono S2 S1 ltac:(lia)).
  apply stage_div_mono. split.
  - apply stage_mul_nonneg; lia.
  - apply stage_mul_mono; lia.
Qed.

Lemma quote_ulps_nonneg (S U : Z) :
  0 <= S <= 100 * 2 ^ 1074 -> 0 <= U -> 0 <= quote_ulps S U.
Proof.
  intros HS HU. unfold quote_ulps. pose proof (factor_ulps_le S HS).
  apply stage_div_nonneg, stage_mul_nonneg; lia.
Qed.

Lemma quote_ulps_full (U : Z) : quote_ulps (100 * 2 ^ 1074) U = 0.
Proof.
  unfold quote_ulps. rewrite factor_ulps_whole by lia.
  change ((100 - 100) * 2 ^ 1074) with 0.
  now rewrite stage_mul_by_zero, stage_div_zero.
Qed.

Lemma fixed_of_ulps_mono (U1 U2 n2 : Z) :
  0 <= U1 <= U2 -> fixed_of_ulps U2 = Some n2 ->
  exists n1, fixed_of_ulps U1 = Some n1 /\ 0 <= n1 <= n2.
Proof.
  unfold fixed_of_ulps. intros HU H2.
  destruct (Z.leb_spec (10 ^ 21 * 2 ^ 1074) U2) as [| Hlt2]; [discriminate H2 |].
  injection H2 as <-.
  destruct (Z.leb_spec (10 ^ 21 * 2 ^ 1074) U1) as [| Hlt1]; [lia |].
  eexists. split; [reflexivity |]. split.
  - apply Z.div_pos; [| reflexivity].
    apply Z.add_nonneg_nonneg; [| vm_compute; discriminate].
    apply Z.mul_nonneg_nonneg; [lia | vm_compute; discriminate].
  - apply Z.div_le_mono; [reflexivity |].
    apply Z.add_le_mono_r.
    apply (Z.mul_le_mono_nonneg_r (2 * U1) (2 * U2) (10 ^ 18)); [vm_compute; discriminate | lia].
Qed.

(** [x <= y] on well-formed non-negative numbers is the order of their values. *)
Lemma SFleb_ulps (x y : number) :
  valid x = true -> valid y = true ->
  is_finite x = true -> is_finite y = true ->
  SFleb (of_Z 0) x = true -> SFleb x y = true ->
  0 <= ulps x <= ulps y /\ SFleb (of_Z 0) y = true.
Proof.
  intros Hvx Hvy Hfx Hfy H0 Hle.
  destruct x as [sx | sx | | sx mx ex]; try discriminate Hfx;
    destruct y as [sy | sy | | sy my ey]; try discriminate Hfy.
  - split; [cbn; lia | reflexivity].
  - destruct sy; [discriminate Hle |]. split; [| reflexivity].
    destruct (valid_finite my ey Hvy) as (He & _).
    cbn [ulps]. pose proof (pow2_pos (ey + 1074) ltac:(lia)). nia.
  - destruct sx; discriminate.
  - destruct sx; [discriminate H0 |]. destruct sy; [discriminate Hle |].
    split; [| reflexivity].
    destruct (valid_finite mx ex Hvx) as (Hex & Hmx & Hnx).
    destruct (valid_finite my ey Hvy) as (Hey & Hmy & Hny).
    cbn [ulps].
    pose proof (pow2_pos (ex + 1074) ltac:(lia)) as Hpx.
    pose proof (pow2_pos (ey + 1074) ltac:(lia)) as Hpy.
    split; [nia |].
    unfold SFleb in Hle. cbn [SFcompare] in Hle.
    destruct (Z.compare_spec ex ey) as [Heq | Hlt | Hgt]; try discriminate Hle.
    + subst ey. apply Z.mul_le_mono_nonneg_r; [lia |].
      rewrite Pos.compare_cont_spec in Hle. cbn [Pos.switch_Eq] in Hle.
      destruct (Pos.compare_spec mx my); try discriminate Hle; lia.
    + destruct Hny as [Hc | Hbig]; [lia |].
      pose proof (pow2_le (53 + (ex + 1074)) (52 + (ey + 1074)) ltac:(lia)) as Hp.
      rewrite (pow2_split 53), (pow2_split 52) in Hp by lia.
      assert (Zpos mx * 2 ^ (ex + 1074) <= 2 ^ 53 * 2 ^ (ex + 1074))
        by (apply Z.mul_le_mono_nonneg_r; lia).
      assert (2 ^ 52 * 2 ^ (ey + 1074) <= Zpos my * 2 ^ (ey + 1074))
        by (apply Z.mul_le_mono_nonneg_r; lia).
      lia.
Qed.

Lemma valid_nonneg_num (r : number) :
  valid r = true -> is_finite r = true -> SFleb (of_Z 0) r = true ->
  nonneg_num r = true /\
  exists m t, 0 <= m < 2 ^ 53 /\ 0 <= t /\ ulps r = m * 2 ^ t.
Proof.
  intros Hv Hf H0. destruct r as [s | s | | s m e]; try discriminate Hf.
  - split; [reflexivity |]. exists 0, 0. cbn. lia.
  - destruct s; [discriminate H0 |].
    destruct (valid_finite m e Hv) as (He & Hm & _).
    split.
    + apply nonneg_num_finite; [lia |].
      pose proof (pow2_le (53 + (e + 1074)) 2098 ltac:(lia)) as Hp.
      rewrite pow2_split in Hp by lia. fold INF in Hp.
      pose proof (pow2_pos (e + 1074) ltac:(lia)).
      assert (Zpos m * 2 ^ (e + 1074) < 2 ^ 53 * 2 ^ (e + 1074))
        by (apply Z.mul_lt_mono_pos_r; lia).
      lia.
    + exists (Zpos m), (e + 1074). cbn [ulps]. lia.
Qed.

Lemma stage_mul_bound (C U : Z) :
  0 <= C <= 99 * 2 ^ 1074 -> 0 <= U -> stage_mul C U <= 100 * U.
Proof.
  intros HC HU.
  pose proof (stage_mul_mono C (99 * 2 ^ 1074) U U HC ltac:(lia)) as Hm.
  rewrite stage_mul_whole in Hm by lia.
  pose proof (b64_round_rel (U * 99) ltac:(lia)) as Hrel.
  set (b := b64_round (U * 99) 1) in *. clearbody b.
  change (2 ^ 53) with 9007199254740992 in Hrel.
  assert (b <= 100 * U) by lia. lia.
Qed.

Lemma quote_ulps_bound (S m t : Z) :
  2 ^ 1074 <= S <= 100 * 2 ^ 1074 -> 0 <= m < 2 ^ 53 -> 0 <= t ->
  m * 2 ^ t < 10 ^ 21 * 2 ^ 1074 ->
  quote_ulps S (m * 2 ^ t) <= m * 2 ^ t.
Proof.
  intros HS Hm Ht Hsmall. unfold quote_ulps.
  pose proof (pow2_pos t Ht) as Hpt.
  set (U := m * 2 ^ t) in *.
  assert (HU : 0 <= U) by (unfold U; nia).
  assert (HC : 0 <= factor_ulps S <= 99 * 2 ^ 1074).
  { split; [apply factor_ulps_le; lia |].
    replace (99 * 2 ^ 1074) with (factor_ulps (1 * 2 ^ 1074))
      by (rewrite factor_ulps_whole by lia; reflexivity).
    apply factor_ulps_mono. lia. }
  pose proof (stage_mul_bound _ U HC HU) as Hb.
  pose proof (stage_mul_nonneg (factor_ulps S) U ltac:(lia) HU) as Hnn.
  set (P := stage_mul (factor_ulps S) U) in *. clearbody P.
  unfold stage_div.
  assert (Hinf : 100 * (10 ^ 21 * 2 ^ 1074) < INF) by reflexivity.
  destruct (Z.leb_spec INF P) as [Hc' | _]; [lia |].
  assert (Hle : b64_round P 100 <= b64_round (U * 100) 100)
    by (apply b64_round_mono; lia).
  unfold U in Hle at 1. rewrite b64_round_exact in Hle by lia.
  fold U in Hle. lia.
Qed.
(** ** The factor [100 - s] *)

(** Doubling a significand [d] times. *)
Lemma iter_xO (d m : positive) : Zpos (Pos.iter xO m d) = Zpos m * 2 ^ Zpos d.
Proof.
  induction d as [| d IH] using Pos.peano_ind.
  - cbn [Pos.iter]. rewrite Pos2Z.inj_xO. change (2 ^ 1) with 2. ring.
  - rewrite Pos.iter_succ, Pos2Z.inj_xO, IH, Pos2Z.inj_succ, Z.pow_succ_r by lia. ring.
Qed.

(** The alignment of a significand on a lower exponent keeps the value. *)
Lemma shl_align_value (m : positive) (e e' : Z) :
  e' <= e ->
  exists m', shl_align m e e' = (m', e') /\ Zpos m' = Zpos m * 2 ^ (e - e').
Proof.
  intros Hle. unfold shl_align.
  destruct (e' - e) as [| p | p] eqn:Hd.
  - exists m. assert (e = e') by lia. subst e'. split; [reflexivity |].
    rewrite Z.sub_diag. change (2 ^ 0) with 1. ring.
  - lia.
  - exists (Pos.iter xO m p). split; [reflexivity |].
    rewrite iter_xO. f_equal. f_equal. lia.
Qed.

Lemma Zdigits2_shift (m : positive) (n : Z) :
  0 <= n -> Zdigits2 (Zpos m * 2 ^ n) = Zdigits2 (Zpos m) + n.
Proof.
  intros Hn. pose proof (Zdigits2_bounds (Zpos m) ltac:(lia)) as [Hlo Hhi].
  pose proof (pow2_pos n Hn) as Hp.
  assert (Hd : 1 <= Zdigits2 (Zpos m)).
  { change 1 with (0 + 1). apply Zdigits2_ge; [lia |]. change (2 ^ 0) with 1. lia. }
  apply Zdigits2_unique; [| nia].
  replace (Zdigits2 (Zpos m) + n - 1) with ((Zdigits2 (Zpos m) - 1) + n) by lia.
  rewrite !pow2_split by lia. split.
  - apply Z.mul_le_mono_nonneg_r; lia.
  - apply Z.mul_lt_mono_pos_r; lia.
Qed.

(** [binary_round] on a positive integer multiple of 2^-1074. *)
Theorem binary_round_b64 (m : positive) (e : Z) :
  -1074 <= e ->
  let R := binary_round 53 1024 false m e in
  valid_binary 53 1024 R = true /\ nonneg_num R = true /\
  ulps R = Z.min INF (b64_round (Zpos m * 2 ^ (e + 1074)) 1).
Proof.
  intros He R. unfold R, binary_round.
  set (f := fexp 53 1024 (Zpos (digits2_pos m) + e)).
  assert (Hf : f = fexp 53 1024 (Zdigits2 (Zpos m) + e)) by reflexivity.
  assert (Hf74 : -1074 <= f) by (rewrite Hf, fexp_eq; lia).
  assert (Hmain : forall mz ez, -1074 <= ez ->
            ez <= fexp 53 1024 (Zdigits2 (Zpos mz) + ez) ->
            Zpos mz * 2 ^ (ez + 1074) = Zpos m * 2 ^ (e + 1074) ->
            valid_binary 53 1024 (binary_round_aux 53 1024 false (Zpos mz) ez loc_Exact) = true /\
            nonneg_num (binary_round_aux 53 1024 false (Zpos mz) ez loc_Exact) = true /\
            ulps (binary_round_aux 53 1024 false (Zpos mz) ez loc_Exact) =
              Z.min INF (b64_round (Zpos m * 2 ^ (e + 1074)) 1)).
  { intros mz ez Hez HP Hval.
    assert (HP' : ez <= fexp 53 1024 (Zdigits2 (Zpos mz / 1) + ez))
      by (rewrite Z.div_1_r; exact HP).
    destruct (bra_b64 (Zpos mz) 1 ez (Zpos mz) loc_Exact ltac:(lia) ltac:(lia)
                (rec_of_exact _) HP') as (Hwf & Hnn & Hu).
    split; [exact Hwf |]. split; [exact Hnn |]. rewrite Hu. unfold ulps_num, ulps_den.
    replace (Z.max 0 (ez + 1074)) with (ez + 1074) by lia.
    replace (Z.max 0 (- (ez + 1074))) with 0 by lia.
    change (1 * 2 ^ 0) with 1. now rewrite Hval. }
  destruct (Z.le_gt_cases f e) as [Hfe | Hfe].
  - destruct (shl_align_value m e f Hfe) as (mz & Hsh & Hmz).
    rewrite Hsh. apply Hmain; [lia | |].
    + rewrite Hmz, Zdigits2_shift by lia.
      replace (Zdigits2 (Zpos m) + (e - f) + f) with (Zdigits2 (Zpos m) + e) by lia.
      rewrite <- Hf. lia.
    + rewrite Hmz. replace (e + 1074) with ((e - f) + (f + 1074)) by lia.
      rewrite (pow2_split (e - f)) by lia. ring.
  - assert (Hsh : shl_align m e f = (m, e)).
    { unfold shl_align. destruct (f - e) eqn:Hd; try reflexivity. lia. }
    rewrite Hsh. apply Hmain; [lia | rewrite <- Hf; lia | reflexivity].
Qed.

(** The factor [100 - s] of a slippage percentage is the exact difference,
    rounded once. *)
Theorem sub_b64 (s : number) :
  well_formed_slippage s ->
  let c := sub (of_Z 100) s in
  valid c = true /\ nonneg_num c = true /\ ulps c = factor_ulps (ulps s).
Proof.
  intros (Hv & Hf & H0 & H100) c.
  destruct (SFleb_ulps s (of_Z 100) Hv eq_refl Hf eq_refl H0 H100) as [HU _].
  rewrite ulps_100 in HU.
  pose proof (factor_ulps_le (ulps s) HU) as HF.
  assert (Hinf : 100 * 2 ^ 1074 < INF) by reflexivity.
  destruct s as [b | b | | b ms es]; try discriminate Hf.
  - assert (Hc : c = of_Z 100) by (destruct b; reflexivity).
    rewrite Hc. split; [reflexivity |]. split; [reflexivity |].
    rewrite ulps_100. cbn [ulps]. unfold factor_ulps. rewrite Z.sub_0_r.
    symmetry. replace (100 * 2 ^ 1074) with (100 * 2 ^ 1074 * 1) at 1 by ring.
    apply b64_round_exact; lia.
  - destruct b; [discriminate H0 |].
    destruct (valid_finite ms es Hv) as (Hes & _).
    cbn [ulps] in *.
    unfold c, sub, prec, emax.
    change (of_Z 100) with (S754_finite false 7036874417766400 (-46)).
    cbn [SFsub cond_Zopp].
    set (ez := Z.min (-46) es).
    destruct (shl_align_value 7036874417766400 (-46) ez ltac:(lia)) as (a & Ha & Hav).
    destruct (shl_align_value ms es ez ltac:(lia)) as (b & Hb & Hbv).
    rewrite Ha, Hb. cbn [fst].
    assert (Hez : -1074 <= ez) by lia.
    assert (Hd : (Zpos a - Zpos b) * 2 ^ (ez + 1074) = 100 * 2 ^ 1074 - Zpos ms * 2 ^ (es + 1074)).
    { rewrite Z.mul_sub_distr_r, Hav, Hbv.
      rewrite <- !Z.mul_assoc, <- !pow2_split by lia.
      replace (-46 - ez + (ez + 1074)) with 1028 by lia.
      replace (es - ez + (ez + 1074)) with (es + 1074) by lia.
      reflexivity. }
    pose proof (pow2_pos (ez + 1074) ltac:(lia)) as Hp.
    unfold factor_ulps in *. rewrite <- Hd in *.
    destruct (Zpos a - Zpos b) as [| d | d]; [| | nia].
    + cbn [binary_normalize]. split; [reflexivity |]. split; [reflexivity |].
      cbn [ulps]. rewrite Z.mul_0_l, b64_round_zero by lia. reflexivity.
    + cbn [binary_normalize].
      destruct (binary_round_b64 d ez Hez) as (Hval & Hnn & Hu).
      split; [exact Hval |]. split; [exact Hnn |]. rewrite Hu. lia.
Qed.

(** A well-formed factor of at most 100 has no positive exponent. *)
Lemma factor_exponent (c : number) (mc : positive) (ec : Z) :
  valid c = true -> c = S754_finite false mc ec ->
  ulps c <= 100 * 2 ^ 1074 -> ec <= 0.
Proof.
  intros Hv -> Hu. cbn [ulps] in Hu.
  destruct (valid_finite mc ec Hv) as (Hec & _ & [He | Hm]); [lia |].
  destruct (Z.le_gt_cases ec 0) as [Hle | Hgt]; [exact Hle | exfalso].
  pose proof (pow2_le 1075 (ec + 1074) ltac:(lia)) as Hp.
  assert (2 ^ 52 * 2 ^ 1075 <= Zpos mc * 2 ^ (ec + 1074)).
  { apply Z.mul_le_mono_nonneg; lia. }
  assert (100 * 2 ^ 1074 < 2 ^ 52 * 2 ^ 1075) by reflexivity.
  lia.
Qed.

Lemma slippage_ulps (s : number) :
  well_formed_slippage s -> 0 <= ulps s <= 100 * 2 ^ 1074.
Proof.
  intros (Hvs & Hfs & H0s & H100s).
  destruct (SFleb_ulps s (of_Z 100) Hvs eq_refl Hfs eq_refl H0s H100s) as [HU _].
  now rewrite ulps_100 in HU.
Qed.

(** The quote of the code, step by step on values in units of 2^-1074. *)
Theorem quote_in_ulps (s r : number) :
  well_formed_slippage s -> valid r = true -> is_finite r = true ->
  SFleb (of_Z 0) r = true ->
  minTokenOutAmount_at s r = fixed_of_ulps (quote_ulps (ulps s) (ulps r)).
Proof.
  intros Hs Hv Hfin Hpos.
  destruct (sub_b64 s Hs) as (Hvc & Hnc & Huc). cbv zeta in Hvc, Hnc, Huc.
  destruct Hs as (Hvs & Hfs & H0s & H100s).
  destruct (SFleb_ulps s (of_Z 100) Hvs eq_refl Hfs eq_refl H0s H100s) as [HU _].
  rewrite ulps_100 in HU. pose proof (factor_ulps_le (ulps s) HU) as HF.
  unfold minTokenOutAmount_at, clippedOutput_at, clipped_value_at, outTokenDecimals, quote_ulps.
  rewrite <- Huc in *.
  set (c := sub (of_Z 100) s) in *.
  assert (Hp : nonneg_num (mul r c) = true /\ ulps (mul r c) = stage_mul (ulps c) (ulps r)).
  { destruct c as [sc | sc | | sc mc ec] eqn:Hc.
    - cbn [ulps]. rewrite stage_mul_by_zero.
      destruct r as [sr | sr | | sr m e]; try discriminate Hfin; split; reflexivity.
    - destruct sc; [discriminate Hnc |]. cbn [ulps] in HF.
      assert (100 * 2 ^ 1074 < INF) by reflexivity. lia.
    - discriminate Hnc.
    - destruct sc; [discriminate Hnc |].
      pose proof (factor_exponent _ mc ec Hvc eq_refl ltac:(lia)) as Hec.
      destruct (valid_finite mc ec Hvc) as (Hec' & _).
      destruct r as [sr | sr | | sr m e]; try discriminate Hfin.
      + cbn [ulps]. rewrite stage_mul_zero. split; reflexivity.
      + destruct sr; [discriminate Hpos |].
        destruct (mul_b64 m e mc ec Hv Hec) as [Hnn Hval].
        split; [exact Hnn |]. unfold mul, prec, emax. rewrite Hval.
        cbn [ulps]. unfold stage_mul. f_equal.
        destruct (valid_finite m e Hv) as (He & _).
        pose proof (pow2_pos (e + 1074) ltac:(lia)).
        pose proof (pow2_pos (- ec) ltac:(lia)).
        pose proof (pow2_pos (ec + 1074) ltac:(lia)).
        pose proof (pow2_pos 1074 ltac:(lia)).
        apply b64_round_same; [nia | lia | lia |].
        replace (2 ^ 1074) with (2 ^ (ec + 1074) * 2 ^ (- ec))
          by (rewrite <- pow2_split by lia; f_equal; lia).
        ring. }
  destruct Hp as [Hnn Hval].
  destruct (div_by_100 (mul r c) Hnn) as [Hnn' Hval'].
  rewrite parse_toFixed_ulps by exact Hnn'.
  now rewrite Hval', Hval.
Qed.

(** ** The quote *)

Example size_literal : size = div (of_Z 1) (of_Z 10000).
Proof. reflexivity. Qed.

Example slippage_factor : sub (of_Z 100) slippagePercentage = of_Z 95.
Proof. reflexivity. Qed.

Example clipped_100 : clippedOutput (of_Z 100) = Text "95.000000000000000000".
Proof. vm_compute. reflexivity. Qed.

Example size_text : toFixed size 18 = Text "0.000100000000000000".
Proof. vm_compute. reflexivity. Qed.

Example amountInWei_value : amountInWei = Some (10 ^ 14).
Proof. vm_compute. reflexivity. Qed.

Example amount_at_six_decimals : parseUnits (toFixed size 18) 6 = Some 100.
Proof. vm_compute. reflexivity. Qed.

Example min_nan : minTokenOutAmount S754_nan = None.
Proof. vm_compute. reflexivity. Qed.

Example min_huge : minTokenOutAmount (of_Z (10 ^ 30)) = None.
Proof. vm_compute. reflexivity. Qed.

Example clipped_negative_tiny :
  clippedOutput (S754_finite true 4503599627370496 (-152)) = Text "-0.000000000000000000".
Proof. vm_compute. reflexivity. Qed.

(** [toFixed] picks the nearest integer, and the larger one of two. *)
Lemma nearest_scaled_spec (m : positive) (e : Z) (f : nat) :
  let n := nearest_scaled m e f in
  0 <= n /\
  (2 * n - 1) * 2 ^ Z.max 0 (- e)
    <= 2 * Zpos m * 10 ^ Z.of_nat f * 2 ^ Z.max 0 e
    < (2 * n + 1) * 2 ^ Z.max 0 (- e).
Proof.
  unfold nearest_scaled.
  assert (H10 : 0 < 10 ^ Z.of_nat f) by (apply Z.pow_pos_nonneg; lia).
  set (T := 10 ^ Z.of_nat f) in *. clearbody T.
  destruct e as [| p | p]; cbv zeta.
  - change (Z.max 0 (- 0)) with 0. change (Z.max 0 0) with 0. change (2 ^ 0) with 1.
    nia.
  - replace (Z.max 0 (- Zpos p)) with 0 by lia.
    replace (Z.max 0 (Zpos p)) with (Zpos p) by lia. change (2 ^ 0) with 1.
    pose proof (pow2_pos (Zpos p) ltac:(lia)). nia.
  - replace (Z.max 0 (- Zneg p)) with (Zpos p) by lia.
    replace (Z.max 0 (Zneg p)) with 0 by lia. change (2 ^ 0) with 1.
    pose proof (pow2_pos (Zpos p) ltac:(lia)) as HP.
    assert (H2 : 2 ^ (Zpos p + 1) = 2 * 2 ^ Zpos p)
      by (rewrite pow2_split by lia; change (2 ^ 1) with 2; ring).
    rewrite H2. set (P := 2 ^ Zpos p) in *. clearbody P.
    set (X := 2 * Zpos m * T).
    assert (HX : 0 <= X) by (unfold X; nia).
    pose proof (Z.div_mod (X + P) (2 * P) ltac:(lia)) as Hdm.
    pose proof (Z.mod_pos_bound (X + P) (2 * P) ltac:(lia)) as Hr.
    assert (Hq : 0 <= (X + P) / (2 * P)) by (apply Z.div_pos; lia).
    set (n := (X + P) / (2 * P)) in *. clearbody n. clearbody X.
    split; [exact Hq |]. nia.
Qed.

(** C1, counterexample: at the raw output 0.375 the code returns
    356250000000000011, above the exact 0.35625 * 10^18 that a truncation
    gives; the floor in whole tokens would give 0. *)
Lemma quote_rounds_up_at_three_eighths :
  let r := S754_finite false 6755399441055744 (-54) in
  well_formed_output r /\
  8 * 6755399441055744 = 3 * 2 ^ 54 /\
  minTokenOutAmount r = Some 356250000000000011 /\
  spec_minOutput 5 r = 356250000000000000 /\
  spec_minOutput_whole 5 r = 0 /\
  minTokenOutAmount r <> Some (spec_minOutput 5 r) /\
  minTokenOutAmount r <> Some (spec_minOutput_whole 5 r).
Proof.
  cbv zeta. repeat split; try (vm_compute; reflexivity); vm_compute; discriminate.
Qed.

(** C1, as amended: for every raw output r, with q the binary64 number
    [(r * 95) / 100]: when q is NaN, infinite or at least 10^21 in magnitude
    [parseUnits] throws; otherwise the minimum output is the integer nearest
    to |q| * 10^18, the larger one of two, with the sign of q.  The 18
    decimals are reached by rounding to nearest, not by truncation, and
    through binary64 arithmetic.  For the raw output 100 the result is
    95 * 10^18. *)
Theorem minTokenOutAmount_nearest (r : number) :
  match clipped_value_at slippagePercentage r with
  | S754_nan | S754_infinity _ => minTokenOutAmount r = None
  | S754_zero _ => minTokenOutAmount r = Some 0
  | S754_finite sg m e =>
      if at_least_1e21 m e then minTokenOutAmount r = None
      else exists n,
        minTokenOutAmount r = Some (if sg then - n else n) /\
        0 <= n /\
        (2 * n - 1) * 2 ^ Z.max 0 (- e)
          <= 2 * Zpos m * 10 ^ 18 * 2 ^ Z.max 0 e
          < (2 * n + 1) * 2 ^ Z.max 0 (- e)
  end /\
  minTokenOutAmount (of_Z 100) = Some (95 * 10 ^ 18).
Proof.
  split; [| vm_compute; reflexivity].
  unfold minTokenOutAmount, minTokenOutAmount_at, clippedOutput_at, outTokenDecimals.
  destruct (clipped_value_at slippagePercentage r) as [s | s | | sg m e].
  - destruct s; vm_compute; reflexivity.
  - destruct s; vm_compute; reflexivity.
  - vm_compute. reflexivity.
  - cbn [toFixed]. destruct (at_least_1e21 m e); [reflexivity |].
    destruct (nearest_scaled_spec m e 18) as [Hn Hnear].
    exists (nearest_scaled m e 18). split; [| split; [exact Hn | exact Hnear]].
    cbn [parseUnits].
    destruct (parseUnits_fixed_digits (nearest_scaled m e 18) 18 Hn ltac:(lia)) as [Hpos Hneg].
    destruct sg; rewrite list_ascii_of_string_of_list_ascii; assumption.
Qed.

(** The error of one rounding to 53 significant bits: half a unit of
    2^-1074 or a relative 2^-53. *)
Lemma b64_round_error (A D : Z) :
  0 <= A -> 0 < D ->
  2 ^ 53 * A <= (2 ^ 53 + 1) * (b64_round A D * D) + 2 ^ 52 * D /\
  (2 ^ 53 - 1) * (b64_round A D * D) <= 2 ^ 53 * A + 2 ^ 52 * D.
Proof.
  intros HA HD. unfold b64_round.
  pose proof (b64_exp_nonneg A D) as HT.
  pose proof (b64_round_lower A D HA HD) as Hlow.
  set (T := b64_exp A D) in *. clearbody T.
  pose proof (pow2_pos T HT) as HpT.
  assert (HX : 0 < D * 2 ^ T) by nia.
  pose proof (rne_bounds A (D * 2 ^ T) HX) as [Hlo Hup].
  pose proof (rne_nonneg A (D * 2 ^ T)) as Hk0.
  set (k := rne A (D * 2 ^ T)) in *.
  replace (k * 2 ^ T * D) with (D * 2 ^ T * k) by ring.
  change (2 ^ 53) with 9007199254740992. change (2 ^ 52) with 4503599627370496 in *.
  destruct (Z.eq_dec T 0) as [-> | HT0].
  - change (2 ^ 0) with 1 in *. rewrite Z.mul_1_r in *.
    specialize (Hk0 ltac:(lia) ltac:(lia)). clearbody k.
    assert (0 <= D * k) by nia. lia.
  - specialize (Hlow ltac:(lia)). clearbody k.
    assert (HDX : D <= D * 2 ^ T) by nia.
    set (X := D * 2 ^ T) in *. clearbody X.
    assert (4503599627370496 * X <= X * k) by nia.
    lia.
Qed.

(** The quote at a slippage of 1 percent on values in units of 2^-1074:
    99 hundredths of the raw output, up to the two roundings. *)
Lemma quote_ulps_one_percent (U : Z) :
  0 <= U < 10 ^ 21 * 2 ^ 1074 ->
  (2 ^ 53 - 1) * (100 * quote_ulps (1 * 2 ^ 1074) U)
    <= (2 ^ 53 + 1) * (99 * U) + 2 ^ 52 * 100.
Proof.
  intros HU. unfold quote_ulps.
  rewrite factor_ulps_whole by lia. change (100 - 1) with 99.
  rewrite stage_mul_whole by lia.
  pose proof (b64_round_rel (U * 99) ltac:(lia)) as HP.
  pose proof (b64_round_nonneg (U * 99) 1 ltac:(lia) ltac:(lia)) as HP0.
  set (P := b64_round (U * 99) 1) in *. clearbody P.
  assert (Hbig : (2 ^ 53 + 1) * (10 ^ 21 * 2 ^ 1074 * 99) < 2 ^ 53 * INF) by reflexivity.
  assert (HPI : P < INF) by nia.
  replace (Z.min INF P) with P by lia.
  unfold stage_div. destruct (Z.leb_spec INF P) as [Hc | _]; [lia |].
  destruct (b64_round_error P 100 HP0 ltac:(lia)) as [_ HQ].
  pose proof (b64_round_nonneg P 100 HP0 ltac:(lia)) as HQ0.
  set (Q := b64_round P 100) in *. clearbody Q.
  assert (Hmin : Z.min INF Q <= Q) by lia.
  set (Q' := Z.min INF Q) in *. clearbody Q'.
  change (2 ^ 53) with 9007199254740992 in *.
  change (2 ^ 52) with 4503599627370496 in *.
  lia.
Qed.

(** The nearest integer [n] to [Q * T / W], for a [Q] that the quote at
    1 percent bounds, is at most [U * T / W] once that is at least 51. *)
Lemma quote_below_output_algebra (W T X Y n : Z) :
  0 < T -> 2 ^ 20 * T <= W -> 0 <= Y ->
  (2 ^ 53 - 1) * (100 * Y) <= (2 ^ 53 + 1) * (99 * X) + 2 ^ 52 * 100 * T ->
  2 * (W * n) <= 2 * Y + W ->
  51 * W <= X ->
  W * n <= X.
Proof.
  change (2 ^ 53) with 9007199254740992. change (2 ^ 52) with 4503599627370496.
  change (2 ^ 20) with 1048576.
  intros HT HTW HY H1 H2 H3.
  set (Z0 := W * n) in *. clearbody Z0. lia.
Qed.

(** C5, counterexample: at slippage 0 and the raw output 0.007 the quote is
    7000000000000001, above the 7 * 10^15 smallest units that 0.007 is; at
    the slippage 5 of the file and the raw output 5465575640562976 * 2^-113
    (about 5.26e-19, below one smallest unit) the quote is 1. *)
Lemma quote_exceeds_raw_output :
  let r := S754_finite false 8070450532247929 (-60) in
  well_formed_output r /\
  minTokenOutAmount_at (of_Z 0) r = Some 7000000000000001 /\
  2 ^ 1074 * 7000000000000001 > ulps r * 10 ^ 18 /\
  well_formed_output above_dust_output /\
  minTokenOutAmount_at (of_Z 5) above_dust_output = Some 1 /\
  2 ^ 1074 * 1 > ulps above_dust_output * 10 ^ 18.
Proof. cbv zeta. repeat split; vm_compute; reflexivity. Qed.

Lemma well_formed_slippage_100 : well_formed_slippage (of_Z 100).
Proof. repeat split; reflexivity. Qed.

Lemma well_formed_slippage_0 : well_formed_slippage (of_Z 0).
Proof. repeat split; reflexivity. Qed.

Example quote_at_half_a_percent :
  let s := S754_finite false 4503599627370496 (-53) in
  well_formed_slippage s /\
  minTokenOutAmount_at s (of_Z 100) = Some 99500000000000000000.
Proof. cbv zeta. repeat split; vm_compute; reflexivity. Qed.

(** C5, as amended: for every slippage percentage s in [0,100] and every
    well-formed raw output r >= 0, with R = r * 10^18 the raw output in
    smallest units ([ulps r * 10^18 / 2^1074]): the quote at 100 is 0; when
    s >= 1 and r < 10^21 the quote n exists, 0 <= n <= R + 1/2, and n <= R
    once R >= 51; and every quote is at most the quote at 0, which is the
    binary64 round trip [(r * 100) / 100] and need not be r. *)
Theorem quote_bounds (s r : number) :
  well_formed_slippage s ->
  well_formed_output r ->
  minTokenOutAmount_at (of_Z 100) r = Some 0 /\
  (SFleb (of_Z 1) s = true -> ulps r < 10 ^ 21 * 2 ^ 1074 ->
     exists n, minTokenOutAmount_at s r = Some n /\ 0 <= n /\
       2 * (2 ^ 1074 * n) <= 2 * (ulps r * 10 ^ 18) + 2 ^ 1074 /\
       (51 * 2 ^ 1074 <= ulps r * 10 ^ 18 -> 2 ^ 1074 * n <= ulps r * 10 ^ 18)) /\
  (forall n0, minTokenOutAmount_at (of_Z 0) r = Some n0 ->
     exists n, minTokenOutAmount_at s r = Some n /\ 0 <= n <= n0).
Proof.
  intros Hs (Hv & Hf & H0).
  pose proof (slippage_ulps s Hs) as HS.
  destruct (valid_nonneg_num r Hv Hf H0) as (Hnn & m & t & Hm & Ht & HU).
  assert (HU0 : 0 <= ulps r) by (rewrite HU; pose proof (pow2_pos t Ht); nia).
  split; [| split].
  - rewrite quote_in_ulps by (auto using well_formed_slippage_100).
    rewrite ulps_100, quote_ulps_full. reflexivity.
  - intros H1 Hsmall.
    rewrite quote_in_ulps by auto.
    destruct Hs as (Hvs & Hfs & _ & _).
    destruct (SFleb_ulps (of_Z 1) s eq_refl Hvs eq_refl Hfs eq_refl H1) as [H1u _].
    change (ulps (of_Z 1)) with (2 ^ 1074) in H1u.
    pose proof (quote_ulps_nonneg (ulps s) (ulps r) HS HU0) as HQ0.
    assert (HQU : quote_ulps (ulps s) (ulps r) <= ulps r).
    { rewrite HU in *. apply quote_ulps_bound; lia. }
    assert (HQ1 : quote_ulps (ulps s) (ulps r) <= quote_ulps (1 * 2 ^ 1074) (ulps r)).
    { apply quote_ulps_mono; lia. }
    pose proof (quote_ulps_one_percent (ulps r) ltac:(lia)) as H99.
    clear HU Hm Ht m t.
    set (Q := quote_ulps (ulps s) (ulps r)) in *. clearbody Q.
    set (Q1 := quote_ulps (1 * 2 ^ 1074) (ulps r)) in *. clearbody Q1.
    set (U := ulps r) in *. clearbody U.
    unfold fixed_of_ulps.
    destruct (Z.leb_spec (10 ^ 21 * 2 ^ 1074) Q) as [Hc | _]; [lia |].
    eexists. split; [reflexivity |].
    assert (HT : 0 < 10 ^ 18) by reflexivity.
    assert (HTW : 2 ^ 20 * 10 ^ 18 <= 2 ^ 1074) by (apply Z.leb_le; vm_compute; reflexivity).
    assert (HW2 : 2 ^ 1075 = 2 * 2 ^ 1074) by (vm_compute; reflexivity).
    rewrite HW2.
    assert (HW : 0 < 2 ^ 1074) by reflexivity.
    set (W := 2 ^ 1074) in *. set (T := 10 ^ 18) in *. clearbody W T.
    assert (HQT : 0 <= Q * T) by nia.
    assert (HQUT : Q * T <= U * T) by nia.
    assert (HQ1T : Q * T <= Q1 * T) by nia.
    pose proof (Z.div_mod (2 * Q * T + W) (2 * W) ltac:(lia)) as Hdm.
    pose proof (Z.mod_pos_bound (2 * Q * T + W) (2 * W) ltac:(lia)) as Hmod.
    assert (Hn0 : 0 <= (2 * Q * T + W) / (2 * W)) by (apply Z.div_pos; lia).
    set (n := (2 * Q * T + W) / (2 * W)) in *. clearbody n.
    assert (Hn : 2 * (W * n) <= 2 * (Q * T) + W) by lia.
    split; [exact Hn0 |]. split; [lia |].
    intros H51.
    apply (Z.mul_le_mono_nonneg_r _ _ T ltac:(lia)) in H99.
    apply (quote_below_output_algebra W T (U * T) (Q1 * T) n);
      [exact HT | exact HTW | lia | | lia | exact H51].
    change (2 ^ 53) with 9007199254740992 in *.
    change (2 ^ 52) with 4503599627370496 in *.
    lia.
  - intros n0 Hn0.
    rewrite quote_in_ulps in Hn0 by (auto using well_formed_slippage_0).
    rewrite quote_in_ulps by auto.
    apply fixed_of_ulps_mono with (U2 := quote_ulps (ulps (of_Z 0)) (ulps r)); [| exact Hn0].
    split; [apply quote_ulps_nonneg; lia |].
    apply quote_ulps_mono; cbn [ulps of_Z binary_normalize]; lia.
Qed.

Lemma quote_bounds_witness :
  minTokenOutAmount_at (of_Z 100) (of_Z 100) = Some 0 /\
  (exists n, minTokenOutAmount_at (of_Z 5) (of_Z 100) = Some n /\ 0 <= n /\
     2 * (2 ^ 1074 * n) <= 2 * (ulps (of_Z 100) * 10 ^ 18) + 2 ^ 1074 /\
     2 ^ 1074 * n <= ulps (of_Z 100) * 10 ^ 18) /\
  (exists n, minTokenOutAmount_at (of_Z 5) (of_Z 100) = Some n /\
     0 <= n <= 100 * 10 ^ 18).
Proof.
  destruct (quote_bounds (of_Z 5) (of_Z 100)) as (Hfull & Hone & Hzero).
  - repeat split; reflexivity.
  - repeat split; reflexivity.
  - split; [exact Hfull | split].
    + destruct (Hone eq_refl eq_refl) as (n & Hn & Hn0 & Hhalf & Hbelow).
      exists n. split; [exact Hn | split; [exact Hn0 | split; [exact Hhalf |]]].
      apply Hbelow. vm_compute. discriminate.
    + apply (Hzero (100 * 10 ^ 18)). vm_compute. reflexivity.
Defined.

(** C6: for slippage percentages in [0,100] and well-formed raw outputs
    r >= 0, the quote is non-decreasing in r at every fixed s (where the
    quote of the larger output exists, so does that of the smaller) and
    non-increasing in s at every fixed r. *)
Theorem quote_monotone :
  (forall s r1 r2 n2,
     well_formed_slippage s ->
     well_formed_output r1 -> valid r2 = true -> is_finite r2 = true ->
     SFleb r1 r2 = true ->
     minTokenOutAmount_at s r2 = Some n2 ->
     exists n1, minTokenOutAmount_at s r1 = Some n1 /\ n1 <= n2) /\
  (forall s1 s2 r n1,
     well_formed_slippage s1 -> well_formed_slippage s2 ->
     SFleb s1 s2 = true ->
     well_formed_output r ->
     minTokenOutAmount_at s1 r = Some n1 ->
     exists n2, minTokenOutAmount_at s2 r = Some n2 /\ n2 <= n1).
Proof.
  split.
  - intros s r1 r2 n2 Hs (Hv1 & Hf1 & H01) Hv2 Hf2 Hle H2.
    pose proof (slippage_ulps s Hs) as HS.
    destruct (SFleb_ulps r1 r2 Hv1 Hv2 Hf1 Hf2 H01 Hle) as [HU H02].
    rewrite quote_in_ulps in H2 by auto.
    rewrite quote_in_ulps by auto.
    destruct (fixed_of_ulps_mono (quote_ulps (ulps s) (ulps r1))
                (quote_ulps (ulps s) (ulps r2)) n2) as (n1 & Hn1 & Hle1); auto.
    + split.
      * apply quote_ulps_nonneg; lia.
      * apply quote_ulps_mono; lia.
    + exists n1. split; [exact Hn1 | lia].
  - intros s1 s2 r n1 Hs1 Hs2 Hle (Hv & Hf & H0) H1.
    pose proof (slippage_ulps s2 Hs2) as HS2.
    destruct (valid_nonneg_num r Hv Hf H0) as (_ & m & t & Hm & Ht & HU).
    assert (HU0 : 0 <= ulps r) by (rewrite HU; pose proof (pow2_pos t Ht); nia).
    rewrite quote_in_ulps in H1 by auto.
    rewrite quote_in_ulps by auto.
    destruct Hs1 as (Hv1 & Hf1 & H01 & _). destruct Hs2 as (Hv2 & Hf2 & _ & _).
    destruct (SFleb_ulps s1 s2 Hv1 Hv2 Hf1 Hf2 H01 Hle) as [HS1 _].
    destruct (fixed_of_ulps_mono (quote_ulps (ulps s2) (ulps r))
                (quote_ulps (ulps s1) (ulps r)) n1) as (n2 & Hn2 & Hle2); auto.
    + split.
      * apply quote_ulps_nonneg; lia.
      * apply quote_ulps_mono; lia.
    + exists n2. split; [exact Hn2 | lia].
Qed.

Lemma quote_monotone_witness :
  (exists n1, minTokenOutAmount_at (of_Z 5) size = Some n1 /\ n1 <= 95 * 10 ^ 18) /\
  (exists n2, minTokenOutAmount_at (of_Z 10) (of_Z 100) = Some n2 /\ n2 <= 95 * 10 ^ 18).
Proof.
  split.
  - apply (proj1 quote_monotone (of_Z 5) size (of_Z 100) (95 * 10 ^ 18)).
    + repeat split; reflexivity.
    + repeat split; reflexivity.
    + reflexivity.
    + reflexivity.
    + reflexivity.
    + vm_compute. reflexivity.
  - apply (proj2 quote_monotone (of_Z 5) (of_Z 10) (of_Z 100) (95 * 10 ^ 18)).
    + repeat split; reflexivity.
    + repeat split; reflexivity.
    + reflexivity.
    + repeat split; reflexivity.
    + vm_compute. reflexivity.
Defined.

(** ** Runs of the orchestrator *)

Lemma strict_eq_zero (x : number) :
  strict_eq x (of_Z 0) = true <-> exists s, x = S754_zero s.
Proof.
  split.
  - destruct x as [s | s | | s m e]; cbn; try discriminate.
    + intros _. now exists s.
    + now destruct s.
    + now destruct s.
  - intros [s ->]. reflexivity.
Qed.

Lemma minTokenOutAmount_zero (s : bool) : minTokenOutAmount (S754_zero s) = Some 0.
Proof. destruct s; vm_compute; reflexivity. Qed.

Lemma swap_value_cases (ro : RouteOutput) :
  swap_value ro = Some (match nativeSend ro with true :: _ => 100000000000000 | _ => 0 end).
Proof.
  unfold swap_value. destruct (nativeSend ro) as [| [] ?]; vm_compute; reflexivity.
Qed.

Lemma amountInWei_unfold : amountInWei = parseUnits (toFixed size 18) outTokenDecimals.
Proof. reflexivity. Qed.

Lemma amountInWei_literal : amountInWei = Some 100000000000000.
Proof. vm_compute. reflexivity. Qed.

Lemma escalated_positive (p : Z) :
  0 < p -> escalated (Some p) = Some (15 * p / 10).
Proof.
  intros Hp. unfold escalated, gasIncreaser.
  destruct (Z.eqb_spec p 0) as [-> | _]; [lia |].
  rewrite Z.quot_div_nonneg by lia. reflexivity.
Qed.

#[global] Opaque minTokenOutAmount amountInWei swap_value.

Ltac fix_amount :=
  repeat match goal with
  | H : amountInWei = Some _ |- _ =>
      rewrite amountInWei_literal in H; injection H as <-
  | H : amountInWei = None |- _ =>
      rewrite amountInWei_literal in H; discriminate H
  end;
  try match goal with
  | H : in_uint256 100000000000000 = false |- _ => vm_compute in H; discriminate H
  end.

Ltac fix_value :=
  repeat match goal with
  | H : swap_value ?ro = Some _ |- _ =>
      rewrite (swap_value_cases ro) in H; injection H as <-
  | H : swap_value ?ro = None |- _ =>
      rewrite (swap_value_cases ro) in H; discriminate H
  end.

(** C2: when the resolver reports the output 0 (either zero), the run is
    the two calls of the resolver, the line "No route found" and
    [process.exit(0)]: no allowance is read, no operation is built, signed
    or submitted.  The resolver is called only when the routing service is
    configured: without it the constructor of the pool fetcher throws and
    the run has no event. *)
Theorem no_route_aborts (tokenIn tokenOut : Address) (fees : option Fees)
    (env : Env) (w : World) (pools : list Pool) (ro : RouteOutput) :
  w_getAllPools w (KURU_API env) tokenIn tokenOut = Returns pools ->
  w_findBestPath w tokenIn tokenOut size pools = Returns ro ->
  strict_eq (output ro) (of_Z 0) = true ->
  (forall api, KURU_API env = Some api ->
     run (main_at tokenIn tokenOut fees env w) =
       (inr (Exited 0),
        [GetAllPools (KURU_API env) tokenIn tokenOut;
         FindBestPath tokenIn tokenOut size pools;
         ConsoleLog ["No route found"];
         ProcessExit 0])) /\
  (KURU_API env = None ->
     run (main_at tokenIn tokenOut fees env w) = (inr (Rejected "TypeError"), [])).
Proof.
  intros Hpools Hroute Hzero.
  apply strict_eq_zero in Hzero as Hz. destruct Hz as [s Hs].
  split.
  - intros api Hapi.
    run_red. rewrite Hapi in *. run_red. rewrite Hpools. run_red. rewrite Hroute. run_red.
    rewrite Hzero. rewrite Hs, minTokenOutAmount_zero, amountInWei_literal.
    reflexivity.
  - intros Hapi. run_red. rewrite Hapi. reflexivity.
Qed.

Lemma no_route_aborts_witness :
  run (main sample_env (sample_world (S754_zero true) 0)) =
    (inr (Exited 0),
     [GetAllPools (KURU_API sample_env) USDC WIF;
      FindBestPath USDC WIF size [sample_pool];
      ConsoleLog ["No route found"];
      ProcessExit 0]).
Proof.
  apply (proj1 (no_route_aborts USDC WIF None sample_env (sample_world (S754_zero true) 0)
                  [sample_pool] (sample_route (S754_zero true) [false])
                  eq_refl eq_refl eq_refl)
           "https://api.kuru.io").
  reflexivity.
Defined.

(** C3: with an input token other than the zero address, in a run that read
    the allowance a: if a is at least the input amount no approval is
    submitted; otherwise exactly one approval is submitted, and a swap is
    submitted only after that approval was submitted and the wait for its
    receipt returned. *)
Theorem approval_only_when_needed (tokenIn tokenOut : Address) (fees : option Fees)
    (env : Env) (w : World) (owner : Address) (a : Z) :
  String.eqb zeroAddress tokenIn = false ->
  let t := trace_of (run (main_at tokenIn tokenOut fees env w)) in
  In (ReadAllowance tokenIn owner (KURU_ROUTER env)) t ->
  w_allowance w tokenIn owner (KURU_ROUTER env) = Returns a ->
  (100000000000000 <= a -> count is_approval_submission t = 0%nat) /\
  (a < 100000000000000 ->
     count is_approval_submission t = 1%nat /\
     confirmed_approval_before_swap tokenIn env w 100000000000000 t).
Proof.
  intros Hnative. run_red. rewrite Hnative. cbv [negb].
  repeat world_step; fix_amount.
  all: intros Hin Ha; split_in Hin.
  all: injection Hin as <-.
  all: unfold routerAddress in *.
  all: match goal with
       | H : w_allowance _ _ _ _ = _ |- _ =>
           rewrite Ha in H; try discriminate H; injection H as <-
       end.
  all: match goal with
       | H : (_ <? _) = true |- _ => apply Z.ltb_lt in H
       | H : (_ <? _) = false |- _ => apply Z.ltb_ge in H
       end.
  all: split; intros Hcmp; try lia.
  all: try reflexivity.
  all: split; [reflexivity |].
  all: intros j e Hj Hswap.
  all: repeat (destruct j as [| j]; cbn in Hj; try discriminate Hj).
  all: try (injection Hj as <-; cbn in Hswap; discriminate Hswap).
  all: injection Hj as <-.
  all: exists 5%nat; do 2 eexists.
  all: repeat split; try reflexivity; try lia; eassumption.
Qed.

Lemma approval_only_when_needed_witness :
  let t := trace_of (run (main sample_env (sample_world (of_Z 100) 7))) in
  (100000000000000 <= 7 -> count is_approval_submission t = 0%nat) /\
  (7 < 100000000000000 ->
     count is_approval_submission t = 1%nat /\
     confirmed_approval_before_swap USDC sample_env (sample_world (of_Z 100) 7)
       100000000000000 t).
Proof.
  apply (approval_only_when_needed USDC WIF None sample_env
           (sample_world (of_Z 100) 7) "0x7e5f4552091a69125d5dfcb7b8c2659029395bdf" 7).
  - reflexivity.
  - vm_compute. auto 10.
  - reflexivity.
Defined.

(** C4: the amount of the swap calldata, the amount the allowance is
    compared with and the amount the approval grants are one value,
    [parseUnits(size.toFixed(18), outTokenDecimals)] with 18 decimals, which
    is 10^14 whatever the input token is; the approval grants exactly it. *)
Theorem input_amount_shared (tokenIn tokenOut : Address) (fees : option Fees)
    (env : Env) (w : World) :
  let t := trace_of (run (main_at tokenIn tokenOut fees env w)) in
  amountInWei = parseUnits (toFixed size 18) outTokenDecimals /\
  outTokenDecimals = 18%nat /\
  amountInWei = Some 100000000000000 /\
  (forall e op, In e t -> swap_operation_of e = Some op ->
     exists c venues buys natives tin tout minOut,
       callData op = [c] /\
       data c = anyToAnySwap venues buys natives tin tout 100000000000000 minOut) /\
  (forall op, In (SendUserOperation (Unsigned op)) t ->
     op = approval_operation tokenIn env 100000000000000 /\
     callData op =
       [ {| to := Some tokenIn; value := 0;
            data := approve (KURU_ROUTER env) 100000000000000 |} ]) /\
  (forall token owner spender a,
     In (ReadAllowance token owner spender) t ->
     w_allowance w token owner spender = Returns a ->
     count is_approval_submission t = if a <? 100000000000000 then 1%nat else 0%nat) /\
  100000000000000 < 2 ^ 256 - 1.
Proof.
  split; [apply amountInWei_unfold |].
  split; [reflexivity |].
  split; [apply amountInWei_literal |].
  split; [| split; [| split; [| reflexivity]]].
  - run_red. repeat world_step; fix_amount.
    all: intros e op Hin Hop; split_in Hin.
    all: try (rewrite <- Hin in Hop; discriminate Hop).
    all: rewrite <- Hin in Hop; injection Hop as <-.
    all: do 7 eexists; split; reflexivity.
  - run_red. repeat world_step; fix_amount.
    all: intros op Hin; split_in Hin.
    all: injection Hin as <-; env_back; split; reflexivity.
  - run_red. repeat world_step; fix_amount.
    all: intros tk ow sp al Hin Ha; split_in Hin.
    all: injection Hin as <- <- <-.
    all: unfold routerAddress in *.
    all: match goal with
         | H : w_allowance _ _ _ _ = _ |- _ =>
             rewrite Ha in H; try discriminate H; injection H as <-
         end.
    all: match goal with
         | H : (_ <? _) = _ |- _ => rewrite H
         end.
    all: reflexivity.
Qed.

Lemma input_amount_shared_witness :
  exists c venues buys natives tin tout minOut,
    callData (build_userOperation None sample_env 0
                (swap_args (sample_route (of_Z 100) [false]) 100000000000000
                   95000000000000000000)) = [c] /\
    data c = anyToAnySwap venues buys natives tin tout 100000000000000 minOut.
Proof.
  apply (proj1 (proj2 (proj2 (proj2
           (input_amount_shared USDC WIF None sample_env (sample_world (of_Z 100) 7)))))
           (SignUserOperation (build_userOperation None sample_env 0
              (swap_args (sample_route (of_Z 100) [false]) 100000000000000
                 95000000000000000000)))).
  - vm_compute. auto 12.
  - reflexivity.
Defined.

(** C7: the operation that the swap signs and submits has one call, to the
    router, whose calldata carries the venues, the buy flags and the native
    flags of every hop of the resolved route and its two tokens; its value is
    not 0 exactly when the first hop is natively funded, and is then
    [parseEther(size.toFixed(18))], 10^14. *)
Theorem swap_operation_follows_route (tokenIn tokenOut : Address) (fees : option Fees)
    (env : Env) (w : World) (pools : list Pool) (ro : RouteOutput)
    (e : Event) (op : UserOperation) :
  w_getAllPools w (KURU_API env) tokenIn tokenOut = Returns pools ->
  w_findBestPath w tokenIn tokenOut size pools = Returns ro ->
  In e (trace_of (run (main_at tokenIn tokenOut fees env w))) ->
  swap_operation_of e = Some op ->
  exists v amountIn minOut,
    callData op =
      [ {| to := KURU_ROUTER env;
           value := v;
           data := anyToAnySwap (map orderbook (path (route ro))) (isBuy ro)
                     (nativeSend ro) (route_tokenIn (route ro))
                     (route_tokenOut (route ro)) amountIn minOut |} ] /\
    (v <> 0 <-> hd_error (nativeSend ro) = Some true) /\
    (hd_error (nativeSend ro) = Some true ->
       parseEther (toFixed size 18) = Some v /\ v = 100000000000000).
Proof.
  intros Hpools Hroute. run_red. rewrite Hpools. run_red. rewrite Hroute. run_red.
  repeat world_step; fix_amount; fix_value.
  all: intros Hin Hop; split_in Hin.
  all: try (rewrite <- Hin in Hop; discriminate Hop).
  all: rewrite <- Hin in Hop; injection Hop as <-.
  all: env_back; do 3 eexists; split; [reflexivity |].
  all: destruct (nativeSend ro) as [| [] ?]; cbn [hd_error].
  all: split; [| intros H; try discriminate H; split; vm_compute; reflexivity].
  all: split; intros H; try discriminate H; try congruence; try reflexivity.
  all: vm_compute; discriminate.
Qed.

Lemma swap_operation_follows_route_witness :
  exists v amountIn minOut,
    callData (build_userOperation None sample_env 100000000000000
                (swap_args two_hop_route 100000000000000 95000000000000000000)) =
      [ {| to := KURU_ROUTER sample_env;
           value := v;
           data := anyToAnySwap ["0x277bf4a0aac16f19d7bf592feffc8d2d9a890508"; "0xd3af145f1aa1a471b5f0f62c52cf8fcdc9ab55d3"] [true; false] [true; false]
                     USDC WIF amountIn minOut |} ] /\
    (v <> 0 <-> hd_error (nativeSend two_hop_route) = Some true) /\
    (hd_error (nativeSend two_hop_route) = Some true ->
       parseEther (toFixed size 18) = Some v /\ v = 100000000000000).
Proof.
  apply (swap_operation_follows_route USDC WIF None sample_env two_hop_world
           [sample_pool] two_hop_route
           (SignUserOperation (build_userOperation None sample_env 100000000000000
              (swap_args two_hop_route 100000000000000 95000000000000000000)))).
  - reflexivity.
  - reflexivity.
  - vm_compute. auto 12.
  - reflexivity.
Defined.

(** C8: with the zero address as input token no allowance is read and no
    approval is submitted in any run; and the line of the smart wallet
    address is followed at once by the signature of the swap operation of
    the resolved route and, when the signature returns, by its submission.
    Only a missing router address stops the run there, before anything is
    signed. *)
Theorem native_input_skips_guard (tokenOut : Address) (fees : option Fees)
    (env : Env) (w : World) :
  let r := run (main_at zeroAddress tokenOut fees env w) in
  let t := trace_of r in
  count is_allowance_read t = 0%nat /\
  count is_approval_submission t = 0%nat /\
  forall i wallet,
    nth_error t i = Some (ConsoleLog ["smart wallet address:"; wallet]) ->
    (KURU_ROUTER env = None ->
       fst r = inr (Rejected "TypeError") /\ nth_error t (S i) = None) /\
    (forall router, KURU_ROUTER env = Some router ->
       exists pools ro minOut v,
         w_getAllPools w (KURU_API env) zeroAddress tokenOut = Returns pools /\
         w_findBestPath w zeroAddress tokenOut size pools = Returns ro /\
         minTokenOutAmount (output ro) = Some minOut /\
         nth_error t (S i) =
           Some (SignUserOperation
                   (build_userOperation fees env v
                      (swap_args ro 100000000000000 minOut))) /\
         forall sig,
           w_signUserOperation w
             (build_userOperation fees env v
                (swap_args ro 100000000000000 minOut)) = Returns sig ->
           nth_error t (S (S i)) =
             Some (SendUserOperation
                     (Presigned
                        {| signed_operation :=
                             build_userOperation fees env v
                               (swap_args ro 100000000000000 minOut);
                           signature := sig |}))).
Proof.
  run_red. change (String.eqb zeroAddress zeroAddress) with true. cbv [negb].
  repeat world_step; fix_amount.
  all: (split; [reflexivity | split; [reflexivity |]]).
  all: intros i wallet Hi.
  all: repeat (destruct i as [| i]; cbn in Hi; try discriminate Hi).
  all: split; [intros Hr; try discriminate Hr; split; reflexivity |].
  all: intros router Hr; try discriminate Hr.
  all: do 4 eexists.
  all: split; [reflexivity |]; split; [eassumption |]; split; [eassumption |].
  all: split; [reflexivity |].
  all: intros sig Hsig.
  all: match goal with
       | H : w_signUserOperation _ _ = _ |- _ =>
           rewrite Hsig in H; first [discriminate H | injection H as <-]
       end.
  all: reflexivity.
Qed.

Lemma native_input_skips_guard_witness :
  exists pools ro minOut v,
    w_getAllPools (sample_world (of_Z 100) 0) (KURU_API sample_env) zeroAddress WIF =
      Returns pools /\
    w_findBestPath (sample_world (of_Z 100) 0) zeroAddress WIF size pools = Returns ro /\
    minTokenOutAmount (output ro) = Some minOut /\
    nth_error (trace_of (run (main_at zeroAddress WIF None sample_env
                                (sample_world (of_Z 100) 0)))) 4 =
      Some (SignUserOperation
              (build_userOperation None sample_env v
                 (swap_args ro 100000000000000 minOut))) /\
    forall sig,
      w_signUserOperation (sample_world (of_Z 100) 0)
        (build_userOperation None sample_env v
           (swap_args ro 100000000000000 minOut)) = Returns sig ->
      nth_error (trace_of (run (main_at zeroAddress WIF None sample_env
                                  (sample_world (of_Z 100) 0)))) 5 =
        Some (SendUserOperation
                (Presigned
                   {| signed_operation :=
                        build_userOperation None sample_env v
                          (swap_args ro 100000000000000 minOut);
                      signature := sig |})).
Proof.
  apply (proj2 (proj2 (proj2 (native_input_skips_guard WIF None sample_env
                                (sample_world (of_Z 100) 0))) 3%nat "0x7e5f4552091a69125d5dfcb7b8c2659029395bdf"
                  ltac:(vm_compute; reflexivity))
           "0xc816865f172d640d93712C68a7E1F83F3fA63235").
  reflexivity.
Defined.

Lemma fee_policy_at (tokenIn tokenOut : Address) (fees : option Fees)
    (env : Env) (w : World) (e : Event) (op : UserOperation) :
  In e (trace_of (run (main_at tokenIn tokenOut fees env w))) ->
  swap_operation_of e = Some op ->
  maxPriorityFeePerGas op = escalated (optional_field fees fees_maxPriorityFeePerGas) /\
  maxFeePerGas op = escalated (optional_field fees fees_maxFeePerGas).
Proof.
  run_red. repeat world_step.
  all: intros Hin Hop; split_in Hin.
  all: try (rewrite <- Hin in Hop; discriminate Hop).
  all: rewrite <- Hin in Hop; injection Hop as <-.
  all: split; reflexivity.
Qed.

(** C9, counterexample: with an estimate whose priority fee is 0 and whose
    maximum fee is 101, the swap operation that the run signs has no
    override of the priority fee, where 15 * 0 / 10 = 0 was claimed, and the
    override 151 of the maximum fee. *)
Lemma zero_fee_component_gives_no_override :
  let op := build_userOperation (Some zero_priority_fees) sample_env 0
              (swap_args (sample_route (of_Z 100) [false]) 100000000000000
                 95000000000000000000) in
  In (SignUserOperation op)
     (trace_of (run (main_at USDC WIF (Some zero_priority_fees) sample_env
                       (sample_world (of_Z 100) 7)))) /\
  fees_maxPriorityFeePerGas zero_priority_fees = Some 0 /\
  maxPriorityFeePerGas op = None /\
  maxPriorityFeePerGas op <> Some (15 * 0 / 10) /\
  maxFeePerGas op = Some 151.
Proof.
  cbv zeta. split; [vm_compute; auto 12 |].
  repeat split; try reflexivity. discriminate.
Qed.

(** C9, as amended: in the swap operation each of the two fee overrides is
    decided on its own by the test [fee ? ... : undefined] on its component
    of the estimate.  A component that is present and not 0 gives the
    override 15 * v / 10 in the truncating division of bigints, which for a
    positive v is the floor; a component that is missing, with or without an
    estimate, or is 0, leaves its override undefined.  The file binds
    [userOpFees] to [undefined], so both overrides of its runs are
    undefined. *)
Theorem fee_escalation_policy (tokenIn tokenOut : Address) (env : Env) (w : World)
    (e : Event) (op : UserOperation) :
  (forall fees,
     In e (trace_of (run (main_at tokenIn tokenOut fees env w))) ->
     swap_operation_of e = Some op ->
     let p := optional_field fees fees_maxPriorityFeePerGas in
     let q := optional_field fees fees_maxFeePerGas in
     (forall v, p = Some v -> v <> 0 ->
        maxPriorityFeePerGas op = Some (Z.quot (15 * v) 10)) /\
     (forall v, p = Some v -> 0 < v ->
        maxPriorityFeePerGas op = Some (15 * v / 10)) /\
     (p = None \/ p = Some 0 -> maxPriorityFeePerGas op = None) /\
     (forall v, q = Some v -> v <> 0 ->
        maxFeePerGas op = Some (Z.quot (15 * v) 10)) /\
     (forall v, q = Some v -> 0 < v ->
        maxFeePerGas op = Some (15 * v / 10)) /\
     (q = None \/ q = Some 0 -> maxFeePerGas op = None)) /\
  (In e (trace_of (run (main env w))) ->
   swap_operation_of e = Some op ->
   maxPriorityFeePerGas op = None /\ maxFeePerGas op = None).
Proof.
  split.
  - intros fees Hin Hop p q.
    destruct (fee_policy_at _ _ _ _ _ _ _ Hin Hop) as [-> ->].
    fold p q. clearbody p q.
    repeat split.
    + intros v -> Hv. unfold escalated, gasIncreaser.
      destruct (Z.eqb_spec v 0); [contradiction | reflexivity].
    + intros v -> Hv. now apply escalated_positive.
    + intros [-> | ->]; reflexivity.
    + intros v -> Hv. unfold escalated, gasIncreaser.
      destruct (Z.eqb_spec v 0); [contradiction | reflexivity].
    + intros v -> Hv. now apply escalated_positive.
    + intros [-> | ->]; reflexivity.
  - intros Hin Hop. exact (fee_policy_at _ _ _ _ _ _ _ Hin Hop).
Qed.

Lemma fee_escalation_policy_witness :
  maxPriorityFeePerGas
    (build_userOperation (Some sample_fees) sample_env 0
       (swap_args (sample_route (of_Z 100) [false]) 100000000000000
          95000000000000000000)) = Some (15 * 7 / 10) /\
  maxFeePerGas
    (build_userOperation (Some sample_fees) sample_env 0
       (swap_args (sample_route (of_Z 100) [false]) 100000000000000
          95000000000000000000)) = Some (15 * 101 / 10).
Proof.
  pose proof (proj1 (fee_escalation_policy USDC WIF sample_env (sample_world (of_Z 100) 7)
           (SignUserOperation (build_userOperation (Some sample_fees) sample_env 0
              (swap_args (sample_route (of_Z 100) [false]) 100000000000000
                 95000000000000000000))) _) (Some sample_fees)
           ltac:(vm_compute; auto 12) eq_refl) as H.
  cbv zeta in H. destruct H as (_ & Hp & _ & _ & Hq & _).
  split; [apply (Hp 7); [reflexivity | lia] | apply (Hq 101); [reflexivity | lia]].
Defined.

(** C10, counterexample: without the signing key and with a route of output
    0 the process logs "No route found" and exits with the code 0. *)
Lemma missing_key_exits_with_success :
  PRIVATE_KEY env_without_key = None /\
  run (program env_without_key (sample_world (of_Z 0) 0)) =
    (inr (Exited 0),
     [GetAllPools (KURU_API sample_env) USDC WIF;
      FindBestPath USDC WIF size [sample_pool];
      ConsoleLog ["No route found"];
      ProcessExit 0]).
Proof. split; [reflexivity | vm_compute; reflexivity]. Qed.

(** C10, as amended: no configuration value is checked by the program
    itself; a missing one is found where a library call first needs it.
    Without the RPC endpoint the creation of the public client throws while
    the module is loaded, and without the routing service the constructor
    of the pool fetcher throws in the first statement of [main]: nothing of
    the flow runs.  The signing key, the router address and the bundler
    endpoint are not needed at startup: the route is resolved first, and a
    route of output 0 ends the process with the code 0.  Otherwise a missing
    key rejects the run after the two resolver calls, with nothing done on
    the chain; a missing router rejects it after the account was created and
    its address logged, with no allowance read and nothing signed or
    submitted; and the bundler endpoint is first read when the client of the
    account is created, after the route was resolved and the account
    created. *)
Theorem missing_configuration_found_on_first_use (tokenIn tokenOut : Address)
    (fees : option Fees) (env : Env) (w : World) :
  let r := run (main_at tokenIn tokenOut fees env w) in
  let t := trace_of r in
  (RPC_URL env = None ->
     run (program_at tokenIn tokenOut fees env w) =
       (inr (Rejected "UrlRequiredError"), [])) /\
  (w_createPublicClient w (RPC_URL env) = Returns tt -> RPC_URL env <> None ->
     run (program_at tokenIn tokenOut fees env w) = r) /\
  (KURU_API env = None -> r = (inr (Rejected "TypeError"), [])) /\
  (forall api pools ro,
     KURU_API env = Some api ->
     w_getAllPools w (KURU_API env) tokenIn tokenOut = Returns pools ->
     w_findBestPath w tokenIn tokenOut size pools = Returns ro ->
     strict_eq (output ro) (of_Z 0) = true ->
     r = (inr (Exited 0),
          [GetAllPools (KURU_API env) tokenIn tokenOut;
           FindBestPath tokenIn tokenOut size pools;
           ConsoleLog ["No route found"];
           ProcessExit 0])) /\
  (PRIVATE_KEY env = None ->
     count is_on_chain t = 0%nat /\
     forall api pools ro,
       KURU_API env = Some api ->
       w_getAllPools w (KURU_API env) tokenIn tokenOut = Returns pools ->
       w_findBestPath w tokenIn tokenOut size pools = Returns ro ->
       strict_eq (output ro) (of_Z 0) = false ->
       exists reason,
         r = (inr (Rejected reason),
              [GetAllPools (KURU_API env) tokenIn tokenOut;
               FindBestPath tokenIn tokenOut size pools])) /\
  (KURU_ROUTER env = None ->
     count is_allowance_read t = 0%nat /\
     count is_signature t = 0%nat /\
     count is_submission t = 0%nat /\
     forall pools ro minOut signer wallet,
       reaches_account tokenIn tokenOut env w pools ro minOut signer wallet ->
       w_createKernelAccountClient w (BUNDLER_URL env) = Returns tt ->
       exists reason,
         r = (inr (Rejected reason),
              [GetAllPools (KURU_API env) tokenIn tokenOut;
               FindBestPath tokenIn tokenOut size pools;
               CreateKernelAccount signer;
               ConsoleLog ["smart wallet address:"; wallet]])) /\
  (BUNDLER_URL env = None ->
     forall pools ro minOut signer wallet,
       reaches_account tokenIn tokenOut env w pools ro minOut signer wallet ->
       exists rest,
         t = [GetAllPools (KURU_API env) tokenIn tokenOut;
              FindBestPath tokenIn tokenOut size pools;
              CreateKernelAccount signer] ++ rest).
Proof.
  cbv zeta. split; [| split; [| split; [| split; [| split; [| split]]]]].
  - intros Hrpc. run_red. rewrite Hrpc. reflexivity.
  - intros Hclient Hrpc. run_red.
    destruct (RPC_URL env) as [rpc |]; [| contradiction].
    run_red. rewrite Hclient. reflexivity.
  - intros Hapi. run_red. rewrite Hapi. reflexivity.
  - intros api pools ro Hapi Hpools Hroute Hzero.
    apply strict_eq_zero in Hzero as Hz. destruct Hz as [s Hs].
    run_red. rewrite Hapi in *. run_red. known Hpools. known Hroute.
    rewrite Hzero. rewrite Hs, minTokenOutAmount_zero, amountInWei_literal.
    reflexivity.
  - intros Hkey. split.
    + run_red. rewrite Hkey. repeat world_step; reflexivity.
    + intros api pools ro Hapi Hpools Hroute Hnz.
      run_red. rewrite Hapi in *. run_red. known Hpools. known Hroute.
      rewrite Hnz, Hkey. repeat world_step; eexists; reflexivity.
  - intros Hrouter.
    assert (Hcounts : count is_allowance_read
                        (trace_of (run (main_at tokenIn tokenOut fees env w))) = 0%nat /\
                      count is_signature
                        (trace_of (run (main_at tokenIn tokenOut fees env w))) = 0%nat /\
                      count is_submission
                        (trace_of (run (main_at tokenIn tokenOut fees env w))) = 0%nat).
    { run_red.
      repeat world_step; try discriminate Hrouter; repeat split; reflexivity. }
    destruct Hcounts as (H1 & H2 & H3).
    split; [exact H1 |]. split; [exact H2 |]. split; [exact H3 |].
    intros pools ro minOut signer wallet
      ((api & Hapi) & Hpools & Hroute & Hnz & Hmin & Hrange & Henc
         & (key & Hkey & Hacc) & Hval & Hwallet) Hclient.
    run_red. rewrite Hapi in *. run_red. known Hpools. known Hroute.
    rewrite Hmin, amountInWei_literal, Hnz, swap_value_cases. run_red.
    known Henc. change (in_uint256 100000000000000) with true. cbn [andb].
    known Hrange. known Hkey. known Hacc. known Hval. known Hwallet. known Hclient.
    destruct (negb (zeroAddress =? tokenIn)%string); run_red; rewrite Hrouter; run_red;
      eexists; reflexivity.
  - intros Hbundler pools ro minOut signer wallet
      ((api & Hapi) & Hpools & Hroute & Hnz & Hmin & Hrange & Henc
         & (key & Hkey & Hacc) & Hval & Hwallet).
    run_red. rewrite Hapi in *. run_red. known Hpools. known Hroute.
    rewrite Hmin, amountInWei_literal, Hnz, swap_value_cases. run_red.
    known Henc. change (in_uint256 100000000000000) with true. cbn [andb].
    known Hrange. known Hkey. known Hacc. known Hval. known Hwallet.
    repeat world_step; eexists; reflexivity.
Qed.

Lemma missing_configuration_found_on_first_use_witness :
  exists reason,
    run (main env_without_router (sample_world (of_Z 100) 0)) =
      (inr (Rejected reason),
       [GetAllPools (KURU_API env_without_router) USDC WIF;
        FindBestPath USDC WIF size [sample_pool];
        CreateKernelAccount "0x01";
        ConsoleLog ["smart wallet address:"; "0x7e5f4552091a69125d5dfcb7b8c2659029395bdf"]]).
Proof.
  apply (proj2 (proj2 (proj2 (proj1 (proj2 (proj2 (proj2 (proj2 (proj2
           (missing_configuration_found_on_first_use USDC WIF None env_without_router
              (sample_world (of_Z 100) 0))))))) eq_refl)))
           [sample_pool] (sample_route (of_Z 100) [false]) 95000000000000000000
           "0x01" "0x7e5f4552091a69125d5dfcb7b8c2659029395bdf").
  - split; [eexists; reflexivity |].
    repeat split; try reflexivity; try (vm_compute; reflexivity).
    eexists. split; reflexivity.
  - reflexivity.
Defined.

(** ** Further properties of the orchestrator *)

Ltac in_trace := cbn [In]; repeat (first [left; reflexivity | right]).

(** X1: an account is created, an allowance read or an operation signed,
    submitted or awaited only in a run whose two resolver calls returned a
    route of non-zero output, whose quote was accepted by [parseUnits] and
    whose signing key is set. *)
Theorem on_chain_needs_route (tokenIn tokenOut : Address) (fees : option Fees)
    (env : Env) (w : World) (e : Event) :
  In e (trace_of (run (main_at tokenIn tokenOut fees env w))) ->
  is_on_chain e = true ->
  exists pools ro minOut key,
    w_getAllPools w (KURU_API env) tokenIn tokenOut = Returns pools /\
    w_findBestPath w tokenIn tokenOut size pools = Returns ro /\
    strict_eq (output ro) (of_Z 0) = false /\
    minTokenOutAmount (output ro) = Some minOut /\
    PRIVATE_KEY env = Some key.
Proof.
  run_red. repeat world_step.
  all: intros Hin Hon; split_in Hin.
  all: try (rewrite <- Hin in Hon; discriminate Hon).
  all: do 4 eexists; repeat split; eassumption.
Qed.

Lemma on_chain_needs_route_witness :
  exists pools ro minOut key,
    w_getAllPools (sample_world (of_Z 100) 7) (KURU_API sample_env) USDC WIF =
      Returns pools /\
    w_findBestPath (sample_world (of_Z 100) 7) USDC WIF size pools = Returns ro /\
    strict_eq (output ro) (of_Z 0) = false /\
    minTokenOutAmount (output ro) = Some minOut /\
    PRIVATE_KEY sample_env = Some key.
Proof.
  apply (on_chain_needs_route USDC WIF None sample_env (sample_world (of_Z 100) 7)
           (ReadAllowance USDC "0x7e5f4552091a69125d5dfcb7b8c2659029395bdf" (KURU_ROUTER sample_env))).
  - vm_compute. auto 12.
  - reflexivity.
Defined.

(** X2: the operation that the swap signs and submits is one call to the
    router whose minimum output is the quote of the output of the resolved
    route and whose input amount is 10^14. *)
Theorem swap_minimum_is_quote (tokenIn tokenOut : Address) (fees : option Fees)
    (env : Env) (w : World) (e : Event) (op : UserOperation) :
  In e (trace_of (run (main_at tokenIn tokenOut fees env w))) ->
  swap_operation_of e = Some op ->
  exists pools ro minOut v,
    w_getAllPools w (KURU_API env) tokenIn tokenOut = Returns pools /\
    w_findBestPath w tokenIn tokenOut size pools = Returns ro /\
    minTokenOutAmount (output ro) = Some minOut /\
    callData op =
      [ {| to := KURU_ROUTER env; value := v;
           data := swap_args ro 100000000000000 minOut |} ].
Proof.
  run_red. repeat world_step; fix_amount.
  all: intros Hin Hop; split_in Hin.
  all: try (rewrite <- Hin in Hop; discriminate Hop).
  all: rewrite <- Hin in Hop; injection Hop as <-.
  all: do 4 eexists; repeat split; try eassumption; env_back; reflexivity.
Qed.

Lemma swap_minimum_is_quote_witness :
  exists pools ro minOut v,
    w_getAllPools (sample_world (of_Z 100) 7) (KURU_API sample_env) USDC WIF =
      Returns pools /\
    w_findBestPath (sample_world (of_Z 100) 7) USDC WIF size pools = Returns ro /\
    minTokenOutAmount (output ro) = Some minOut /\
    callData (build_userOperation None sample_env 0
                (swap_args (sample_route (of_Z 100) [false]) 100000000000000
                   95000000000000000000)) =
      [ {| to := KURU_ROUTER sample_env; value := v;
           data := swap_args ro 100000000000000 minOut |} ].
Proof.
  apply (swap_minimum_is_quote USDC WIF None sample_env (sample_world (of_Z 100) 7)
           (SignUserOperation (build_userOperation None sample_env 0
              (swap_args (sample_route (of_Z 100) [false]) 100000000000000
                 95000000000000000000)))).
  - vm_compute. auto 12.
  - reflexivity.
Defined.

(** X3: a run passes at most one operation to [signUserOperation] and
    submits at most one swap; a submitted swap is the operation signed just
    before it, with the signature that the signing returned. *)
Theorem swap_signed_then_sent (tokenIn tokenOut : Address) (fees : option Fees)
    (env : Env) (w : World) :
  let t := trace_of (run (main_at tokenIn tokenOut fees env w)) in
  (count is_signature t <= 1)%nat /\
  (count is_swap_submission t <= 1)%nat /\
  forall j r,
    nth_error t j = Some (SendUserOperation r) ->
    is_swap_submission (SendUserOperation r) = true ->
    exists i op sig,
      j = S i /\
      nth_error t i = Some (SignUserOperation op) /\
      w_signUserOperation w op = Returns sig /\
      r = Presigned {| signed_operation := op; signature := sig |}.
Proof.
  run_red. repeat world_step.
  all: split; [cbv; lia |]; split; [cbv; lia |].
  all: intros j r Hj Hs.
  all: repeat (destruct j as [| j]; cbn in Hj; try discriminate Hj).
  all: injection Hj as <-; try discriminate Hs.
  all: do 3 eexists; repeat split; try reflexivity; eassumption.
Qed.

(** X4: [main] never returns and never exits with a code other than 0.  It
    exits with 0 either on a route of output 0, with nothing done on the
    chain, or after the one swap it submitted was awaited and its hash
    logged; a rejected run has no [process.exit] and no "op tx hash" line. *)
Theorem exit_code_meaning (tokenIn tokenOut : Address) (fees : option Fees)
    (env : Env) (w : World) :
  let r := run (main_at tokenIn tokenOut fees env w) in
  let t := trace_of r in
  (exists h, fst r = inr h) /\
  (forall c, fst r = inr (Exited c) ->
     c = 0 /\
     ((exists pools ro,
         w_getAllPools w (KURU_API env) tokenIn tokenOut = Returns pools /\
         w_findBestPath w tokenIn tokenOut size pools = Returns ro /\
         strict_eq (output ro) (of_Z 0) = true /\
         count is_on_chain t = 0%nat) \/
      (exists sop h tx,
         In (SendUserOperation (Presigned sop)) t /\
         w_sendUserOperation w (Presigned sop) = Returns h /\
         w_waitForUserOperationReceipt w h = Returns tx /\
         In (ConsoleLog ["op tx hash:"; tx]) t /\
         count is_swap_submission t = 1%nat))) /\
  (forall reason, fst r = inr (Rejected reason) ->
     count is_exit t = 0%nat /\
     forall tx, ~ In (ConsoleLog ["op tx hash:"; tx]) t).
Proof.
  run_red. repeat world_step.
  all: split; [eexists; reflexivity |].
  all: split; [intros c Hc; try discriminate Hc | intros why Hr; try discriminate Hr].
  all: match goal with
       | Hc : _ = inr (Exited _) |- _ =>
           injection Hc as <-; split; [reflexivity |];
           first [ left; do 2 eexists; repeat split; try eassumption; reflexivity
                 | right; do 3 eexists;
                   (split; [in_trace | split; [| split; [| split; [in_trace | reflexivity]]]]);
                   eassumption ]
       | Hr : _ = inr (Rejected _) |- _ =>
           split; [reflexivity |]; intros tx Hin; split_in Hin
       end.
Qed.

(** X5: the allowance is read at most once, only for an input token other
    than the zero address, for the address of the created account as owner
    and the router of the environment as spender; when the read throws, the
    run is rejected with its reason and nothing is signed or submitted. *)
Theorem allowance_read_for_wallet (tokenIn tokenOut : Address) (fees : option Fees)
    (env : Env) (w : World) :
  let r := run (main_at tokenIn tokenOut fees env w) in
  let t := trace_of r in
  (count is_allowance_read t <= 1)%nat /\
  forall token owner spender,
    In (ReadAllowance token owner spender) t ->
    token = tokenIn /\
    String.eqb zeroAddress tokenIn = false /\
    w_createKernelAccount w = Returns owner /\
    spender = KURU_ROUTER env /\
    forall reason,
      w_allowance w token owner spender = Throws reason ->
      fst r = inr (Rejected reason) /\
      count is_signature t = 0%nat /\
      count is_submission t = 0%nat.
Proof.
  run_red. repeat world_step.
  all: split; [cbv; lia |].
  all: intros token owner spender Hin; split_in Hin.
  all: injection Hin as <- <- <-.
  all: match goal with
       | H : negb _ = true |- _ => apply negb_true_iff in H
       end.
  all: split; [reflexivity |]; split; [assumption |].
  all: split; [first [assumption | reflexivity] |].
  all: split; [reflexivity |].
  all: intros why Hw; try discriminate Hw.
  all: try (injection Hw as <-).
  all: try match goal with
       | H : w_allowance _ _ _ _ = _ |- _ =>
           unfold routerAddress in *; rewrite Hw in H;
           first [discriminate H | injection H as <-]
       end.
  all: repeat split; reflexivity.
Qed.

Lemma not_finite_no_quote (x : number) :
  is_finite x = false -> minTokenOutAmount x = None.
Proof.
  destruct x as [s | s | | s m e]; try discriminate; intros _.
  - destruct s; vm_compute; reflexivity.
  - vm_compute. reflexivity.
Qed.

(** X6: a route whose output is NaN or infinite ends the run with a
    rejection right after the two resolver calls: [parseUnits] refuses the
    text of the quote.  (Without the routing service the run is rejected
    before the resolver is called.) *)
Theorem non_finite_output_rejects (tokenIn tokenOut : Address) (fees : option Fees)
    (env : Env) (w : World) (pools : list Pool) (ro : RouteOutput) :
  w_getAllPools w (KURU_API env) tokenIn tokenOut = Returns pools ->
  w_findBestPath w tokenIn tokenOut size pools = Returns ro ->
  is_finite (output ro) = false ->
  (forall api, KURU_API env = Some api ->
     exists reason,
       run (main_at tokenIn tokenOut fees env w) =
         (inr (Rejected reason),
          [GetAllPools (KURU_API env) tokenIn tokenOut;
           FindBestPath tokenIn tokenOut size pools])) /\
  (KURU_API env = None ->
     run (main_at tokenIn tokenOut fees env w) = (inr (Rejected "TypeError"), [])).
Proof.
  intros Hpools Hroute Hnf. split.
  - intros api Hapi.
    run_red. rewrite Hapi in *. run_red. rewrite Hpools. run_red. rewrite Hroute. run_red.
    rewrite (not_finite_no_quote _ Hnf). eexists. reflexivity.
  - intros Hapi. run_red. rewrite Hapi. reflexivity.
Qed.

Lemma non_finite_output_rejects_witness :
  exists reason,
    run (main sample_env (sample_world S754_nan 0)) =
      (inr (Rejected reason),
       [GetAllPools (KURU_API sample_env) USDC WIF;
        FindBestPath USDC WIF size [sample_pool]]).
Proof.
  apply (proj1 (non_finite_output_rejects USDC WIF None sample_env
                  (sample_world S754_nan 0) [sample_pool]
                  (sample_route S754_nan [false]) eq_refl eq_refl eq_refl)
           "https://api.kuru.io").
  reflexivity.
Defined.

(** X7: when the configuration is set, every external call returns, the
    route has a non-zero output whose quote is accepted and lies in
    [uint256], and the input token is not the zero address, the run is the
    resolver calls, the creation of the account, the read of the allowance,
    the approval with its receipt when the allowance is below 10^14, then
    the signature, the submission and the receipt of the swap, and
    [process.exit(0)]. *)
Theorem successful_swap_run (tokenIn tokenOut : Address) (fees : option Fees)
    (env : Env) (w : World) (router : Address) (pools : list Pool)
    (ro : RouteOutput) (minOut : Z) (signer : Hex) (wallet : Address) (a : Z)
    (h1 tx1 sig h2 tx2 : Hex) :
  let v := match nativeSend ro with true :: _ => 100000000000000 | _ => 0 end in
  let op := build_userOperation fees env v (swap_args ro 100000000000000 minOut) in
  let approval := Unsigned (approval_operation tokenIn env 100000000000000) in
  let swap := Presigned {| signed_operation := op; signature := sig |} in
  String.eqb zeroAddress tokenIn = false ->
  reaches_account tokenIn tokenOut env w pools ro minOut signer wallet ->
  w_createKernelAccountClient w (BUNDLER_URL env) = Returns tt ->
  KURU_ROUTER env = Some router ->
  w_allowance w tokenIn wallet (KURU_ROUTER env) = Returns a ->
  (a < 100000000000000 ->
     w_sendUserOperation w approval = Returns h1 /\
     w_waitForUserOperationReceipt w h1 = Returns tx1) ->
  w_signUserOperation w op = Returns sig ->
  w_sendUserOperation w swap = Returns h2 ->
  w_waitForUserOperationReceipt w h2 = Returns tx2 ->
  run (main_at tokenIn tokenOut fees env w) =
    (inr (Exited 0),
     [GetAllPools (KURU_API env) tokenIn tokenOut;
      FindBestPath tokenIn tokenOut size pools;
      CreateKernelAccount signer;
      ConsoleLog ["smart wallet address:"; wallet];
      ReadAllowance tokenIn wallet (KURU_ROUTER env)]
     ++ (if a <? 100000000000000
         then [SendUserOperation approval;
               WaitForUserOperationReceipt h1;
               ConsoleLog ["approval tx: "; tx1]]
         else [])
     ++ [SignUserOperation op;
         SendUserOperation swap;
         WaitForUserOperationReceipt h2;
         ConsoleLog ["op tx hash:"; tx2];
         ProcessExit 0]).
Proof.
  intros v op approval swap Hin
    ((api & Hapi) & Hpools & Hroute & Hnz & Hmin & Hrange & Henc
       & (key & Hkey & Hacc) & Hval & Hwallet)
    Hclient Hrouter Hall Happ Hsig Hsend Hwait.
  assert (Hop : op = build_userOperation fees env v (swap_args ro 100000000000000 minOut))
    by reflexivity.
  assert (Happroval : approval = Unsigned (approval_operation tokenIn env 100000000000000))
    by reflexivity.
  clearbody op approval. subst swap.
  run_red. rewrite Hapi in *. run_red. known Hpools. known Hroute.
  rewrite Hmin, amountInWei_literal, Hnz, swap_value_cases. run_red.
  known Henc. change (in_uint256 100000000000000) with true. cbn [andb].
  known Hrange. known Hkey. known Hacc. known Hval. known Hwallet. known Hclient.
  rewrite Hin. cbv [negb]. run_red. rewrite Hrouter in *. run_red. known Hall.
  fold v. rewrite <- Hrouter.
  destruct (Z.ltb_spec a 100000000000000) as [Hlt | Hge].
  - destruct (Happ Hlt) as [Hs1 Hw1].
    change (in_uint256 100000000000000) with true. run_red.
    rewrite <- Happroval. known Hs1. known Hw1.
    rewrite Hrouter. run_red. rewrite <- Hrouter. fold v. rewrite <- Hop.
    known Hsig. known Hsend. rewrite Hwait. reflexivity.
  - run_red. rewrite Hrouter. run_red. rewrite <- Hrouter. fold v. rewrite <- Hop.
    known Hsig. known Hsend. rewrite Hwait. reflexivity.
Qed.

Lemma successful_swap_run_witness :
  run (main sample_env (sample_world (of_Z 100) 7)) =
    (inr (Exited 0),
     [GetAllPools (KURU_API sample_env) USDC WIF;
      FindBestPath USDC WIF size [sample_pool];
      CreateKernelAccount "0x01";
      ConsoleLog ["smart wallet address:"; "0x7e5f4552091a69125d5dfcb7b8c2659029395bdf"];
      ReadAllowance USDC "0x7e5f4552091a69125d5dfcb7b8c2659029395bdf" (KURU_ROUTER sample_env);
      SendUserOperation (Unsigned (approval_operation USDC sample_env 100000000000000));
      WaitForUserOperationReceipt "0xop1";
      ConsoleLog ["approval tx: "; "0xop1tx"];
      SignUserOperation
        (build_userOperation None sample_env 0
           (swap_args (sample_route (of_Z 100) [false]) 100000000000000
              95000000000000000000));
      SendUserOperation
        (Presigned
           {| signed_operation :=
                build_userOperation None sample_env 0
                  (swap_args (sample_route (of_Z 100) [false]) 100000000000000
                     95000000000000000000);
              signature := "0xsig" |});
      WaitForUserOperationReceipt "0xop2";
      ConsoleLog ["op tx hash:"; "0xop2tx"];
      ProcessExit 0]).
Proof.
  apply (successful_swap_run USDC WIF None sample_env (sample_world (of_Z 100) 7)
           "0xc816865f172d640d93712C68a7E1F83F3fA63235"
           [sample_pool] (sample_route (of_Z 100) [false]) 95000000000000000000
           "0x01" "0x7e5f4552091a69125d5dfcb7b8c2659029395bdf" 7 "0xop1" "0xop1tx" "0xsig" "0xop2" "0xop2tx").
  all: try reflexivity.
  - split; [eexists; reflexivity |].
    repeat split; try reflexivity; try (vm_compute; reflexivity).
    eexists. split; reflexivity.
  - intros _. split; reflexivity.
Defined.

(** X11: when the quote of the resolved route lies outside [uint256], as
    the negative quote of a negative output does, the encoding of the
    arguments of the swap throws and the run is rejected after the two
    resolver calls, before any account is created. *)
Theorem out_of_range_quote_rejects (tokenIn tokenOut : Address) (fees : option Fees)
    (env : Env) (w : World) (api : string) (pools : list Pool) (ro : RouteOutput)
    (minOut : Z) :
  KURU_API env = Some api ->
  w_getAllPools w (KURU_API env) tokenIn tokenOut = Returns pools ->
  w_findBestPath w tokenIn tokenOut size pools = Returns ro ->
  minTokenOutAmount (output ro) = Some minOut ->
  minOut < 0 \/ 2 ^ 256 <= minOut ->
  exists reason,
    run (main_at tokenIn tokenOut fees env w) =
      (inr (Rejected reason),
       [GetAllPools (KURU_API env) tokenIn tokenOut;
        FindBestPath tokenIn tokenOut size pools]).
Proof.
  intros Hapi Hpools Hroute Hmin Hout.
  assert (Hrange : in_uint256 minOut = false).
  { unfold in_uint256. destruct Hout as [Hneg | Hbig].
    - destruct (Z.leb_spec 0 minOut); [lia | reflexivity].
    - destruct (Z.ltb_spec minOut (2 ^ 256)); [lia | apply andb_false_r]. }
  assert (Hnz : strict_eq (output ro) (of_Z 0) = false).
  { destruct (strict_eq (output ro) (of_Z 0)) eqn:Hz; [| reflexivity].
    apply strict_eq_zero in Hz as [s Hs].
    rewrite Hs, minTokenOutAmount_zero in Hmin. injection Hmin as <-.
    vm_compute in Hrange. discriminate Hrange. }
  run_red. rewrite Hapi in *. run_red. known Hpools. known Hroute.
  rewrite Hmin, amountInWei_literal, Hnz, swap_value_cases. run_red.
  rewrite Hrange. repeat world_step; eexists; reflexivity.
Qed.

Lemma out_of_range_quote_rejects_witness :
  exists reason,
    run (main sample_env (sample_world (of_Z (-1)) 0)) =
      (inr (Rejected reason),
       [GetAllPools (KURU_API sample_env) USDC WIF;
        FindBestPath USDC WIF size [sample_pool]]).
Proof.
  apply (out_of_range_quote_rejects USDC WIF None sample_env (sample_world (of_Z (-1)) 0)
           "https://api.kuru.io" [sample_pool] (sample_route (of_Z (-1)) [false])
           (-949999999999999956)).
  - reflexivity.
  - reflexivity.
  - reflexivity.
  - vm_compute. reflexivity.
  - left. lia.
Defined.

(** ** Further properties of the quote *)

Lemma well_formed_slippage_5 : well_formed_slippage slippagePercentage.
Proof. repeat split; reflexivity. Qed.

Lemma ulps_5 : ulps slippagePercentage = 5 * 2 ^ 1074.
Proof. vm_compute. reflexivity. Qed.

(** The quote at the slippage of the file is monotone in the raw output. *)
Lemma quote_le (r1 r2 : number) (n2 : Z) :
  well_formed_output r1 -> valid r2 = true -> is_finite r2 = true ->
  SFleb r1 r2 = true ->
  minTokenOutAmount r2 = Some n2 ->
  exists n1, minTokenOutAmount r1 = Some n1 /\ 0 <= n1 <= n2.
Proof.
  intros (Hv1 & Hf1 & H01) Hv2 Hf2 Hle H2.
  pose proof (slippage_ulps _ well_formed_slippage_5) as HS.
  destruct (SFleb_ulps r1 r2 Hv1 Hv2 Hf1 Hf2 H01 Hle) as [HU H02].
  change (minTokenOutAmount r2) with (minTokenOutAmount_at slippagePercentage r2) in H2.
  change (minTokenOutAmount r1) with (minTokenOutAmount_at slippagePercentage r1).
  rewrite quote_in_ulps in H2 by auto using well_formed_slippage_5.
  rewrite quote_in_ulps by auto using well_formed_slippage_5.
  apply fixed_of_ulps_mono with (U2 := quote_ulps (ulps slippagePercentage) (ulps r2));
    [| exact H2].
  split.
  - apply quote_ulps_nonneg; lia.
  - apply quote_ulps_mono; lia.
Qed.

(** X8: a raw output of at most 5465575640562975 * 2^-113 (about 5.26e-19)
    has the minimum output 0, from the next number on the minimum output is
    at least 1; and a raw output that is not a zero, however small, does
    not pass the no-route test. *)
Theorem dust_output_quotes_zero (r : number) :
  well_formed_output r ->
  (SFleb r dust_output = true -> minTokenOutAmount r = Some 0) /\
  (SFleb above_dust_output r = true ->
     strict_eq r (of_Z 0) = false /\
     forall n, minTokenOutAmount r = Some n -> 1 <= n) /\
  (forall s m e, r = S754_finite s m e -> strict_eq r (of_Z 0) = false).
Proof.
  intros Hr. split; [| split].
  - intros Hle.
    destruct (quote_le r dust_output 0 Hr eq_refl eq_refl Hle) as (n & Hn & Hn0).
    + vm_compute. reflexivity.
    + rewrite Hn. f_equal. lia.
  - intros Hle. destruct Hr as (Hv & Hf & H0). split.
    + destruct r as [s | s | | s m e]; try discriminate Hf; [discriminate Hle |].
      destruct s; reflexivity.
    + intros n Hn.
      destruct (quote_le above_dust_output r n) as (n1 & Hn1 & Hle1); auto.
      * repeat split; reflexivity.
      * assert (E : minTokenOutAmount above_dust_output = Some 1)
          by (vm_compute; reflexivity).
        rewrite E in Hn1. injection Hn1 as <-. lia.
  - intros s m e ->. destruct s; reflexivity.
Qed.

Lemma dust_output_quotes_zero_witness :
  minTokenOutAmount dust_output = Some 0 /\
  strict_eq dust_output (of_Z 0) = false.
Proof.
  split.
  - apply (proj1 (dust_output_quotes_zero dust_output
                    (conj eq_refl (conj eq_refl eq_refl)))).
    reflexivity.
  - apply (proj2 (proj2 (dust_output_quotes_zero dust_output
                           (conj eq_refl (conj eq_refl eq_refl))))
             false 5465575640562975%positive (-113)).
    reflexivity.
Defined.

(** X9: the quote exists for every raw output r >= 0 up to
    8030941611842105 * 2^17 (about 1.0526e21) and is then below 10^39; from
    the next number on [parseUnits] throws. *)
Theorem quote_defined_up_to_limit (r : number) :
  well_formed_output r ->
  (SFleb r greatest_quoted_output = true ->
     exists n, minTokenOutAmount r = Some n /\ 0 <= n < 10 ^ 39) /\
  (SFleb least_refused_output r = true -> minTokenOutAmount r = None).
Proof.
  intros Hr. split.
  - intros Hle.
    assert (E : exists n0, minTokenOutAmount greatest_quoted_output = Some n0 /\ n0 < 10 ^ 39).
    { eexists. split; [vm_compute; reflexivity | reflexivity]. }
    destruct E as (n0 & E & Hlt).
    destruct (quote_le r greatest_quoted_output n0 Hr eq_refl eq_refl Hle E)
      as (n & Hn & Hn0).
    exists n. split; [exact Hn | lia].
  - intros Hle. destruct Hr as (Hv & Hf & H0).
    destruct (minTokenOutAmount r) as [n |] eqn:Hn; [| reflexivity].
    destruct (quote_le least_refused_output r n) as (n1 & Hn1 & _); auto.
    + repeat split; reflexivity.
    + assert (E : minTokenOutAmount least_refused_output = None)
        by (vm_compute; reflexivity).
      rewrite E in Hn1. discriminate Hn1.
Qed.

Lemma quote_defined_up_to_limit_witness :
  (exists n, minTokenOutAmount (of_Z 100) = Some n /\ 0 <= n < 10 ^ 39) /\
  minTokenOutAmount (of_Z (10 ^ 30)) = None.
Proof.
  split.
  - apply (proj1 (quote_defined_up_to_limit (of_Z 100)
                    (conj eq_refl (conj eq_refl eq_refl)))).
    reflexivity.
  - apply (proj2 (quote_defined_up_to_limit (of_Z (10 ^ 30))
                    (conj eq_refl (conj eq_refl eq_refl)))).
    reflexivity.
Defined.

(** The two roundings and the text at 18 decimals, put together: [P] is
    the rounded product [95 * U], [Q] the rounded quotient [P / 100] and
    [n] the integer nearest to [Q * T / W]. *)
Lemma quote_error_algebra (W T U P Q n : Z) :
  0 < T -> 2 * T <= W -> 0 <= U -> 0 <= P -> 0 <= Q -> 0 <= n ->
  2 ^ 53 * (95 * U) <= (2 ^ 53 + 1) * P + 2 ^ 52 ->
  (2 ^ 53 - 1) * P <= 2 ^ 53 * (95 * U) + 2 ^ 52 ->
  2 ^ 53 * P <= (2 ^ 53 + 1) * (Q * 100) + 2 ^ 52 * 100 ->
  (2 ^ 53 - 1) * (Q * 100) <= 2 ^ 53 * P + 2 ^ 52 * 100 ->
  2 * (Q * T) - W <= 2 * (W * n) <= 2 * (Q * T) + W ->
  (2 ^ 51 - 1) * (95 * (U * T)) <= 2 ^ 51 * (100 * (W * (n + 1))) /\
  2 ^ 51 * (100 * (W * (n - 1))) <= (2 ^ 51 + 1) * (95 * (U * T)).
Proof.
  change (2 ^ 53) with 9007199254740992. change (2 ^ 52) with 4503599627370496.
  change (2 ^ 51) with 2251799813685248.
  intros HT HTW HU HP HQ Hn H1 H2 H3 H4 H5.
  assert (L1 : 9007199254740992 * 9007199254740992 * (95 * U)
               <= 9007199254740993 * 9007199254740993 * (Q * 100)
                  + 9007199254740993 * 4503599627370496 * 100
                  + 9007199254740992 * 4503599627370496) by lia.
  assert (L2 : 9007199254740991 * 9007199254740991 * (Q * 100)
               <= 9007199254740992 * 9007199254740992 * (95 * U)
                  + 9007199254740992 * 4503599627370496
                  + 9007199254740991 * 4503599627370496 * 100) by lia.
  clear H1 H2 H3 H4 HP.
  apply (Z.mul_le_mono_nonneg_r _ _ T ltac:(lia)) in L1.
  apply (Z.mul_le_mono_nonneg_r _ _ T ltac:(lia)) in L2.
  replace (W * (n + 1)) with (W * n + W) by ring.
  replace (W * (n - 1)) with (W * n - W) by ring.
  assert (E1 : 9007199254740992 * 9007199254740992 * (95 * U) * T
               = 9007199254740992 * 9007199254740992 * 95 * (U * T)) by ring.
  assert (E2 : (9007199254740993 * 9007199254740993 * (Q * 100)
                + 9007199254740993 * 4503599627370496 * 100
                + 9007199254740992 * 4503599627370496) * T
               = 9007199254740993 * 9007199254740993 * 100 * (Q * T)
                 + (9007199254740993 * 4503599627370496 * 100
                    + 9007199254740992 * 4503599627370496) * T) by ring.
  assert (E3 : 9007199254740991 * 9007199254740991 * (Q * 100) * T
               = 9007199254740991 * 9007199254740991 * 100 * (Q * T)) by ring.
  assert (E4 : (9007199254740992 * 9007199254740992 * (95 * U)
                + 9007199254740992 * 4503599627370496
                + 9007199254740991 * 4503599627370496 * 100) * T
               = 9007199254740992 * 9007199254740992 * 95 * (U * T)
                 + (9007199254740992 * 4503599627370496
                    + 9007199254740991 * 4503599627370496 * 100) * T) by ring.
  rewrite E1, E2 in L1. rewrite E3, E4 in L2. clear E1 E2 E3 E4.
  assert (HUT : 0 <= U * T) by nia.
  assert (HQT : 0 <= Q * T) by nia.
  assert (HWn : 0 <= W * n) by nia.
  set (X := U * T) in *. set (Y := Q * T) in *. set (Z := W * n) in *.
  clearbody X Y Z. lia.
Qed.

(** The quote of the file on values in units of 2^-1074, when it exists. *)
Lemma quote_steps (r : number) (n : Z) :
  well_formed_output r -> minTokenOutAmount r = Some n ->
  let P := b64_round (ulps r * 95) 1 in
  let Q := b64_round P 100 in
  Q < 10 ^ 21 * 2 ^ 1074 /\
  n = (2 * Q * 10 ^ 18 + 2 ^ 1074) / 2 ^ 1075.
Proof.
  intros (Hv & Hf & H0) Hn P Q.
  change (minTokenOutAmount r) with (minTokenOutAmount_at slippagePercentage r) in Hn.
  rewrite quote_in_ulps in Hn by auto using well_formed_slippage_5.
  destruct (valid_nonneg_num r Hv Hf H0) as (_ & m & t & Hm & Ht & HU).
  assert (HU0 : 0 <= ulps r) by (rewrite HU; pose proof (pow2_pos t Ht); nia).
  unfold quote_ulps in Hn. rewrite ulps_5, factor_ulps_whole in Hn by lia.
  rewrite stage_mul_whole in Hn by lia.
  change (100 - 5) with 95 in Hn. fold P in Hn.
  assert (Hbig : 10 ^ 21 * 2 ^ 1074 < INF) by reflexivity.
  unfold fixed_of_ulps in Hn.
  destruct (Z.leb_spec (10 ^ 21 * 2 ^ 1074) (stage_div (Z.min INF P))) as [Hc | Hc];
    [discriminate Hn |].
  injection Hn as Hn. unfold stage_div in *.
  destruct (Z.leb_spec INF (Z.min INF P)) as [Hi | Hi]; [lia |].
  replace (Z.min INF P) with P in * by lia. fold Q in Hc, Hn.
  assert (HQ : Z.min INF Q = Q) by lia. rewrite HQ in *.
  split; [exact Hc | symmetry; exact Hn].
Qed.

(** X10: the quote n of a raw output r >= 0 is within one smallest unit and
    a relative 2^-51 of the exact 95 * r / 100 * 10^18:
    (1 - 2^-51) * E - 1 <= n <= (1 + 2^-51) * E + 1 for
    E = 95 * (ulps r) * 10^18 / (100 * 2^1074), where [ulps r] is r in
    units of 2^-1074. *)
Theorem quote_accuracy (r : number) (n : Z) :
  well_formed_output r -> minTokenOutAmount r = Some n ->
  0 <= n /\
  (2 ^ 51 - 1) * (95 * (ulps r * 10 ^ 18)) <= 2 ^ 51 * (100 * (2 ^ 1074 * (n + 1))) /\
  2 ^ 51 * (100 * (2 ^ 1074 * (n - 1))) <= (2 ^ 51 + 1) * (95 * (ulps r * 10 ^ 18)).
Proof.
  intros Hr Hn. destruct (quote_steps r n Hr Hn) as [_ Hq]. cbv zeta in Hq.
  destruct Hr as (Hv & Hf & H0).
  destruct (valid_nonneg_num r Hv Hf H0) as (_ & m & t & Hm & Ht & HU).
  assert (HU0 : 0 <= ulps r) by (rewrite HU; pose proof (pow2_pos t Ht); nia).
  clear HU Hm Ht m t.
  set (U := ulps r) in *. clearbody U.
  pose proof (b64_round_nonneg (U * 95) 1 ltac:(lia) ltac:(lia)) as HP0.
  destruct (b64_round_error (U * 95) 1 ltac:(lia) ltac:(lia)) as [HP1 HP2].
  set (P := b64_round (U * 95) 1) in *. clearbody P.
  pose proof (b64_round_nonneg P 100 HP0 ltac:(lia)) as HQ0.
  destruct (b64_round_error P 100 HP0 ltac:(lia)) as [HQ1 HQ2].
  set (Q := b64_round P 100) in *. clearbody Q.
  assert (HT : 0 < 10 ^ 18) by reflexivity.
  assert (HTW : 2 * 10 ^ 18 <= 2 ^ 1074) by (apply Z.leb_le; vm_compute; reflexivity).
  assert (HW2 : 2 ^ 1075 = 2 * 2 ^ 1074) by (vm_compute; reflexivity).
  rewrite HW2 in Hq.
  set (W := 2 ^ 1074) in *. set (T := 10 ^ 18) in *. clearbody W T.
  assert (HQT : 0 <= Q * T) by nia.
  pose proof (Z.div_mod (2 * Q * T + W) (2 * W) ltac:(lia)) as Hdm.
  pose proof (Z.mod_pos_bound (2 * Q * T + W) (2 * W) ltac:(lia)) as Hmod.
  rewrite <- Hq in Hdm.
  assert (Hn0 : 0 <= n).
  { rewrite Hq. apply Z.div_pos; lia. }
  split; [exact Hn0 |].
  apply (quote_error_algebra W T U P Q n); try lia.
Qed.

Lemma quote_accuracy_witness :
  0 <= 95 * 10 ^ 18 /\
  (2 ^ 51 - 1) * (95 * (ulps (of_Z 100) * 10 ^ 18))
    <= 2 ^ 51 * (100 * (2 ^ 1074 * (95 * 10 ^ 18 + 1))) /\
  2 ^ 51 * (100 * (2 ^ 1074 * (95 * 10 ^ 18 - 1)))
    <= (2 ^ 51 + 1) * (95 * (ulps (of_Z 100) * 10 ^ 18)).
Proof.
  apply (quote_accuracy (of_Z 100) (95 * 10 ^ 18)).
  - repeat split; reflexivity.
  - vm_compute. reflexivity.
Defined.
